(** * Ironhack Payments: cohort metrics pipeline

    A shallow embedding of the three analysis scripts

      - [scripts/clean/1_data_cleaning_ironhack_payments.py]
      - [scripts/clean/2_eda_ironhack_payments.py]
      - [scripts/clean/3_cohort_analysis_metrics.py]

    The scripts are straight-line pandas code.  A DataFrame is a list of
    rows (order and duplicates matter), a nullable column is an [option],
    and the pandas primitives the scripts call ([groupby], [merge],
    [pivot], [fillna], [round], [cumsum] ...) are written out as list
    functions in module [Pandas].

    Numbers.  Ids and counts are integers; an id column that holds a
    missing value is a float column in pandas, and an id is taken to be
    small enough to be held exactly there.  Amounts, ratios and rounded
    values are exact rationals ([Q]): the float columns of the scripts
    hold decimal data, and binary rounding error is not modelled.

    Dates.  A calendar month is an integer, ordered as the ['YYYY-MM']
    strings of the CSV files are.  The [created_at] of a cash request
    may be missing: [pd.to_datetime(..., errors='coerce')] turns a text
    that is no date, and a date pandas cannot hold, into [NaT], and the
    row stays in the table.  A user whose requests are all undated has
    no first request date; [astype(str)] writes the cohort of such a
    user as the text ['NaT'] (see [NaT_text]).

    Text.  The categorical columns are ASCII text.  Between two scripts
    a table goes through a CSV file; [pd.read_csv] reads some texts back
    as missing values (see [read_text]).

    Charts.  A chart call is followed as far as it can stop the run: an
    axis limit that is no number, a heat map without cells.  The other
    chart calls are taken to return.

    Layout.  Modules [Cleaning], [Eda] and [CohortMetrics] hold the
    cells of the three scripts, each closed by the script as a run;
    [CleaningChecks] holds the checks of script 1 that only print. *)

From Stdlib Require Import List ZArith QArith Qround Lia Bool Ascii String.
From Stdlib Require Import Sorting.Sorted Sorting.Permutation.
Import ListNotations.

Set Implicit Arguments.
Local Open Scope Z_scope.

(* ===================================================================== *)
(** * The pandas primitives used by the scripts *)
(* ===================================================================== *)

Module Pandas.

(** ** Null handling *)

(** [Series.dropna()]: the non-null values, in order. *)
Fixpoint dropna {A : Type} (l : list (option A)) : list A :=
  match l with
  | [] => []
  | Some a :: l' => a :: dropna l'
  | None :: l' => dropna l'
  end.

(** [Series.isnull()] / [Series.notnull()] on one value. *)
Definition isnull {A : Type} (o : option A) : bool :=
  match o with Some _ => false | None => true end.

Definition notnull {A : Type} (o : option A) : bool := negb (isnull o).

(** [a.fillna(b)], row by row. *)
Definition fillna {A : Type} (a b : option A) : option A :=
  match a with Some _ => a | None => b end.

(** Equality of two nullable integer keys.  [pd.merge] pairs a null key
    with a null key, so [None] equals [None] here. *)
Definition key_eqb (a b : option Z) : bool :=
  match a, b with
  | Some x, Some y => Z.eqb x y
  | None, None => true
  | _, _ => false
  end.

(** Equality of two nullable values of any column.  A missing value
    equals a missing value, as [duplicated] and [value_counts] have
    it. *)
Definition option_eqb {A : Type} (eqb : A -> A -> bool) (a b : option A)
  : bool :=
  match a, b with
  | Some x, Some y => eqb x y
  | None, None => true
  | _, _ => false
  end.

(** [column == text]: a comparison with a missing value is false. *)
Definition text_is (text : string) (v : option string) : bool :=
  match v with
  | Some s => String.eqb s text
  | None => false
  end.

(** ** Sorted distinct keys

    [groupby] and [pivot] return their keys sorted and without
    duplicates; [nunique] counts them. *)

Fixpoint insert_unique (x : Z) (l : list Z) : list Z :=
  match l with
  | [] => [x]
  | y :: l' =>
      match (x ?= y)%Z with
      | Lt => x :: l
      | Eq => l
      | Gt => y :: insert_unique x l'
      end
  end.

Definition sorted_unique (l : list Z) : list Z :=
  fold_right insert_unique [] l.

(** [Series.nunique()]: nulls are not counted. *)
Definition nunique (l : list (option Z)) : nat :=
  List.length (sorted_unique (dropna l)).

(** ** Left merge

    [pd.merge(left, right, how='left')]: the left rows keep their order;
    a left row with no partner appears once with a null right side, a
    left row with [n] partners appears [n] times, in the order of the
    right table. *)
Definition left_merge {L R : Type} (on : L -> R -> bool)
    (left : list L) (right : list R) : list (L * option R) :=
  flat_map
    (fun l =>
       match filter (on l) right with
       | [] => [(l, None)]
       | matches => map (fun r => (l, Some r)) matches
       end)
    left.

(** [pd.merge(left, right, on=...)], an inner join: a left row appears
    once for each of its partners, and not at all without one. *)
Definition inner_merge {L R : Type} (on : L -> R -> bool)
    (left : list L) (right : list R) : list (L * R) :=
  flat_map (fun l => map (fun r => (l, r)) (filter (on l) right)) left.

(** ** Sort of rows by an integer key ([sort_values], ascending)

    A row goes in front of the later rows with the same key.  The tables
    sorted below have distinct keys, so the order among equal keys that
    pandas would pick plays no part. *)

Fixpoint insert_by {A : Type} (key : A -> Z) (x : A) (l : list A) : list A :=
  match l with
  | [] => [x]
  | y :: l' =>
      if (key x <=? key y)%Z then x :: l else y :: insert_by key x l'
  end.

Definition sort_values {A : Type} (key : A -> Z) (l : list A) : list A :=
  fold_right (insert_by key) [] l.

(** ** Rounding

    [Series.round(k)] is numpy's round: the value is scaled by [10^k],
    rounded to the nearest integer with ties going to the even one, and
    scaled back. *)

Definition round_half_even (q : Q) : Z :=
  let f := Qfloor q in
  match ((q - inject_Z f) ?= (1 # 2))%Q with
  | Lt => f
  | Gt => (f + 1)%Z
  | Eq => if Z.even f then f else (f + 1)%Z
  end.

Definition round_dec (k : nat) (q : Q) : Q :=
  (inject_Z (round_half_even (q * inject_Z (10 ^ Z.of_nat k)))
   / inject_Z (10 ^ Z.of_nat k))%Q.

(** [0 < q], as a boolean. *)
Definition Qpositive (q : Q) : bool := negb (Qle_bool q 0%Q).

(** [Series.sum()] of a float column: nulls are skipped. *)
Definition nansum (l : list (option Q)) : Q :=
  fold_right Qplus 0%Q (dropna l).

(** [Series.cumsum()]. *)
Fixpoint cumsum_from (acc : Q) (l : list Q) : list Q :=
  match l with
  | [] => []
  | x :: l' => (acc + x)%Q :: cumsum_from (acc + x)%Q l'
  end.

Definition cumsum (l : list Q) : list Q := cumsum_from 0%Q l.

(** [Series.max()]: an empty column has no largest value, and pandas
    answers [NaN]. *)
Fixpoint series_max (l : list Q) : option Q :=
  match l with
  | [] => None
  | x :: l' =>
      match series_max l' with
      | Some m => Some (if Qle_bool x m then m else x)
      | None => Some x
      end
  end.

(** [Series.value_counts(dropna=False)]: every value of the column,
    missing or not, with the number of rows that hold it.  The values
    are listed as they first appear; the scripts read the counts, not
    their order. *)
Fixpoint distinct {A : Type} (eqb : A -> A -> bool) (l : list A) : list A :=
  match l with
  | [] => []
  | x :: l' => x :: filter (fun y => negb (eqb x y)) (distinct eqb l')
  end.

Definition value_counts {A : Type} (eqb : A -> A -> bool) (l : list A)
  : list (A * Z) :=
  map (fun v => (v, Z.of_nat (List.length (filter (eqb v) l))))
      (distinct eqb l).

(** ** Labelled data

    A [Series] is a list of labelled values, a [DataFrame] a list of
    labelled rows.  The labels are calendar months (see [Period]
    below), represented by integers. *)

Abbreviation Series A := (list (Z * A)) (only parsing).
Abbreviation DataFrame A := (list (Z * list (Z * A))) (only parsing).

(** [row.loc[label]] when [label in row], else nothing. *)
Fixpoint loc {A : Type} (label : Z) (s : list (Z * A)) : option A :=
  match s with
  | [] => None
  | (k, v) :: s' => if (k =? label)%Z then Some v else loc label s'
  end.

(** The values of a row, without their labels. *)
Definition values {A : Type} (s : list (Z * A)) : list A := map snd s.

(** Apply a function to every value of a Series. *)
Definition smap {A B : Type} (f : A -> B) (s : Series A) : Series B :=
  map (fun kv => (fst kv, f (snd kv))) s.

(** The number of cells of a table. *)
Definition cells {A : Type} (m : DataFrame A) : nat :=
  List.length (List.concat (map snd m)).

End Pandas.

Import Pandas.

(* ===================================================================== *)
(** * Dates *)
(* ===================================================================== *)

(** A calendar month ([Period('2020-01', 'M')], and the string ['2020-01']
    the CSV files carry) is the integer [12 * year + (month - 1)]: for
    four-digit years the integers are ordered the way the strings are. *)
Abbreviation Period := Z (only parsing).

Definition ym (year month : Z) : Period := 12 * year + (month - 1).

(** A naive timestamp: the calendar month it falls in, then its position
    inside that month, in nanoseconds from the start of the month.
    Timestamps are compared month first. *)
Record Timestamp : Type := mkTimestamp {
  ts_month : Period;
  ts_rest : Z
}.

(** [Series.dt.to_period('M')] on one value. *)
Definition to_period_M (t : Timestamp) : Period := ts_month t.

Definition ts_leb (a b : Timestamp) : bool :=
  (ts_month a <? ts_month b)
  || ((ts_month a =? ts_month b) && (ts_rest a <=? ts_rest b)).

Definition ts_min (a b : Timestamp) : Timestamp :=
  if ts_leb a b then a else b.

(** [Series.min()] of a datetime column; an empty column has no
    minimum. *)
Fixpoint series_min (l : list Timestamp) : option Timestamp :=
  match l with
  | [] => None
  | t :: l' =>
      match series_min l' with
      | Some m => Some (ts_min t m)
      | None => Some t
      end
  end.

(** pandas counts the nanoseconds of a date in 64 bits.  The dates it
    can hold run from [Timestamp.min], 1677-09-21 00:12:43.145224193,
    to [Timestamp.max], 2262-04-11 23:47:16.854775807. *)
Definition timestamp_min : Timestamp :=
  mkTimestamp (ym 1677 9) 1728763145224193.

Definition timestamp_max : Timestamp :=
  mkTimestamp (ym 2262 4) 949636854775807.

Definition in_bounds (t : Timestamp) : bool :=
  ts_leb timestamp_min t && ts_leb t timestamp_max.

(** [pd.to_datetime(column, errors='coerce')] on one value.  The value
    is the date its text denotes, if it denotes one; a text that is no
    date and a date out of bounds become [NaT]. *)
Definition to_datetime (v : option Timestamp) : option Timestamp :=
  match v with
  | Some t => if in_bounds t then Some t else None
  | None => None
  end.

(** The text ['NaT'], which [astype(str)] writes for a missing period.
    As a string it comes after every ['YYYY-MM']; it is given the first
    integer after the months of the four-digit years, which no date
    pandas holds reaches. *)
Definition NaT_text : Period := ym 10000 1.

(** [Series.dt.to_period('M').astype(str)] on one value. *)
Definition period_text (t : option Timestamp) : Period :=
  match t with
  | Some d => to_period_M d
  | None => NaT_text
  end.

(* ===================================================================== *)
(** * What a script prints, and how it ends *)
(* ===================================================================== *)

(** The scripts report through [safe_print] and [display].  None of
    their checks stops a run.  A run stops when an input file is missing
    ([raise] / [sys.exit(1)]), when a look-up names a column or a label
    the table does not have ([KeyError]), and when a chart is given
    nothing to draw ([ValueError]).  A run is therefore the list of
    reports printed so far, and either a result or the reason the run
    stopped. *)
Inductive Failure : Type :=
| FileNotFound (name : string)
| KeyError (key : string)
| ValueError (message : string).

Inductive Run (Report A : Type) : Type :=
| Finished (out : list Report) (a : A)
| Halted (out : list Report) (why : Failure).

Arguments Finished {Report A} out a.
Arguments Halted {Report A} out why.

Definition ret {Report A : Type} (a : A) : Run Report A := Finished [] a.

Definition bind {Report A B : Type} (m : Run Report A) (k : A -> Run Report B)
  : Run Report B :=
  match m with
  | Halted out why => Halted out why
  | Finished out a =>
      match k a with
      | Finished out' b => Finished (out ++ out') b
      | Halted out' why => Halted (out ++ out') why
      end
  end.

Definition safe_print {Report : Type} (r : Report) : Run Report unit :=
  Finished [r] tt.

(** [pd.read_csv(path)] inside [try ... except FileNotFoundError]. *)
Definition read_csv {Report A : Type} (name : string) (file : option A)
  : Run Report A :=
  match file with
  | Some table => Finished [] table
  | None => Halted [] (FileNotFound name)
  end.

(** [frame[key]], [index.get_loc(key)]: the value looked up, a
    [KeyError] when there is none. *)
Definition lookup {Report A : Type} (key : string) (found : option A)
  : Run Report A :=
  match found with
  | Some a => Finished [] a
  | None => Halted [] (KeyError key)
  end.

(** [plt.ylim(0, top)], [ax.set_ylim(0, top)]: matplotlib refuses a
    limit that is [NaN]. *)
Definition set_ylim {Report : Type} (top : option Q) : Run Report unit :=
  match top with
  | Some _ => Finished [] tt
  | None => Halted [] (ValueError "Axis limits cannot be NaN or Inf")
  end.

(** [sns.heatmap(table)]: seaborn takes the smallest and the largest
    cell for its colour scale, and numpy refuses that on no cell at
    all. *)
Definition heatmap {Report : Type} (size : nat) : Run Report unit :=
  match size with
  | O => Halted [] (ValueError "zero-size array to reduction operation fmin")
  | S _ => Finished [] tt
  end.

(** What a run has printed, finished or not. *)
Definition printed {Report A : Type} (m : Run Report A) : list Report :=
  match m with
  | Finished out _ => out
  | Halted out _ => out
  end.

Declare Scope run_scope.
Delimit Scope run_scope with run.
Notation "x <- m ;; k" := (bind m (fun x => k))
  (at level 61, m at next level, right associativity) : run_scope.
Notation "m ;;; k" := (bind m (fun _ => k))
  (at level 61, right associativity) : run_scope.

(* ===================================================================== *)
(** * Script 1: data cleaning *)
(* ===================================================================== *)

Module Cleaning.

(** A row of [cash_df] (the columns the cohort metrics and the charts
    depend on).  [created_at] is the date the text of the column
    denotes, when it denotes one. *)
Record CashRequest : Type := mkCashRequest {
  id : Z;
  amount : option Q;
  status : option string;
  transfer_type : option string;
  created_at : option Timestamp;
  user_id : option Z;
  deleted_account_id : option Z;
  recovery_status : option string
}.

(** A row of [fees_df]. *)
Record Fee : Type := mkFee {
  fee_id : Z;
  fee_type : option string;
  fee_status : option string;
  cash_request_id : option Z;
  total_amount : option Q
}.

(** In[10]: [df[col] = pd.to_datetime(df[col], errors='coerce')] *)
Definition parse_dates (r : CashRequest) : CashRequest :=
  {| id := id r; amount := amount r; status := status r;
     transfer_type := transfer_type r;
     created_at := to_datetime (created_at r);
     user_id := user_id r; deleted_account_id := deleted_account_id r;
     recovery_status := recovery_status r |}.

(** [rows_with_both]: both identity columns filled in. *)
Definition both_present (r : CashRequest) : bool :=
  notnull (user_id r) && notnull (deleted_account_id r).

(** In[19]:
    [cash_df.loc[user_id.notnull() & deleted_account_id.notnull(),
                 'deleted_account_id'] = np.nan] *)
Definition nullify_deleted_account_id (r : CashRequest) : CashRequest :=
  if both_present r then
    {| id := id r; amount := amount r; status := status r;
       transfer_type := transfer_type r;
       created_at := created_at r; user_id := user_id r;
       deleted_account_id := None;
       recovery_status := recovery_status r |}
  else r.

(** [cash_df] once the column [final_user_id] exists. *)
Record CleanCash : Type := mkCleanCash {
  cash : CashRequest;
  final_user_id : option Z
}.

(** In[21]:
    [cash_df['final_user_id'] = user_id.fillna(deleted_account_id)] *)
Definition add_final_user_id (r : CashRequest) : CleanCash :=
  {| cash := r;
     final_user_id := fillna (user_id r) (deleted_account_id r) |}.

(** In[19] followed by In[21], over the whole table. *)
Definition unify_identity (cash_df : list CashRequest) : list CleanCash :=
  map add_final_user_id (map nullify_deleted_account_id cash_df).

(** [missing_final_ids = cash_df['final_user_id'].isnull().sum()] *)
Definition missing_final_ids (cash_df : list CleanCash) : nat :=
  List.length (filter (fun r => isnull (final_user_id r)) cash_df).

(** In[23]: [valid_cash_ids = set(cash_df['id'])] and
    [unmatched_ids = fees_df[~fees_df['cash_request_id'].isin(valid_cash_ids)]].
    No cash id is null, so a null foreign key is never in the set. *)
Definition valid_cash_ids (cash_df : list CleanCash) : list Z :=
  map (fun r => id (cash r)) cash_df.

Definition isin (k : option Z) (ids : list Z) : bool :=
  match k with
  | Some x => existsb (Z.eqb x) ids
  | None => false
  end.

Definition unmatched_ids (cash_df : list CleanCash) (fees_df : list Fee)
  : list Fee :=
  filter (fun f => negb (isin (cash_request_id f) (valid_cash_ids cash_df)))
         fees_df.

(** In[24]: [fees_df = fees_df[fees_df['cash_request_id'].notnull()].copy()] *)
Definition drop_missing_cash_request_id (fees_df : list Fee) : list Fee :=
  filter (fun f => notnull (cash_request_id f)) fees_df.

(** ** In[25], In[26]: [clean_categorical_column]

    Text is ASCII: the categories of the two tables are English words.
    [str.lower] turns [A]..[Z] into [a]..[z]; [str.strip] removes, at
    both ends, the characters Python counts as white space (tab, line
    feed, vertical tab, form feed, carriage return, the separators
    0x1C..0x1F and the space). *)

Definition is_space (c : ascii) : bool :=
  let n := nat_of_ascii c in
  ((9 <=? n) && (n <=? 13) || (28 <=? n) && (n <=? 32))%nat.

Definition is_upper (c : ascii) : bool :=
  let n := nat_of_ascii c in
  ((65 <=? n) && (n <=? 90))%nat.

Definition lower_char (c : ascii) : ascii :=
  if is_upper c then ascii_of_nat (nat_of_ascii c + 32) else c.

Fixpoint lower (s : string) : string :=
  match s with
  | EmptyString => EmptyString
  | String c s' => String (lower_char c) (lower s')
  end.

Fixpoint lstrip (s : string) : string :=
  match s with
  | EmptyString => EmptyString
  | String c s' => if is_space c then lstrip s' else s
  end.

Fixpoint rstrip (s : string) : string :=
  match s with
  | EmptyString => EmptyString
  | String c s' =>
      match rstrip s' with
      | EmptyString => if is_space c then EmptyString else String c EmptyString
      | rest => String c rest
      end
  end.

Definition strip (s : string) : string := lstrip (rstrip s).

(** [Series.astype(str)] on one value of an object column: a missing
    value becomes the text ['nan']. *)
Definition astype_str (v : option string) : string :=
  match v with
  | Some s => s
  | None => "nan"%string
  end.

(** [df[col].astype(str).str.lower().str.strip()], then
    [.replace("nan", np.nan)], on one value. *)
Definition clean_categorical_column (v : option string) : option string :=
  let s := strip (lower (astype_str v)) in
  if String.eqb s "nan" then None else Some s.

(** In[26] on the categorical columns the two records carry: [status],
    [transfer_type] and [recovery_status] of a cash request, [type] and
    [status] of a fee. *)
Definition clean_cash_categoricals (r : CashRequest) : CashRequest :=
  {| id := id r; amount := amount r;
     status := clean_categorical_column (status r);
     transfer_type := clean_categorical_column (transfer_type r);
     created_at := created_at r; user_id := user_id r;
     deleted_account_id := deleted_account_id r;
     recovery_status := clean_categorical_column (recovery_status r) |}.

Definition clean_fee_categoricals (f : Fee) : Fee :=
  {| fee_id := fee_id f;
     fee_type := clean_categorical_column (fee_type f);
     fee_status := clean_categorical_column (fee_status f);
     cash_request_id := cash_request_id f;
     total_amount := total_amount f |}.

(** In[26] runs when [final_user_id] is already a column of [cash_df]. *)
Definition clean_cash_row (r : CleanCash) : CleanCash :=
  {| cash := clean_cash_categoricals (cash r);
     final_user_id := final_user_id r |}.

(** What script 1 prints about identities and fee links. *)
Inductive Report : Type :=
| RowsWithBothIds (n : nat)
| MissingFinalIds (n : nat)
| SampleMissingFinalIds (sample : list CleanCash)
| AllFinalIdsValid
| UnmatchedCashRequestIds (distinct : nat) (rows : nat)
| SampleUnmatched (sample : list Fee)
| NoUnmatchedCashRequestIds
| DroppedMissingCashRequestId (dropped : nat).

(** The cleaned tables script 1 writes. *)
Record Cleaned : Type := mkCleaned {
  clean_cash_requests : list CleanCash;
  clean_fees : list Fee
}.

(** Script 1 from loading to saving.  [head()] is the first five rows.
    The script has no chart and no look-up by a label of the data. *)
Definition script (cash_file : option (list CashRequest))
    (fees_file : option (list Fee)) : Run Report Cleaned :=
  (cash_df <- read_csv "extract - cash request - data analyst.csv" cash_file ;;
   fees_df <- read_csv "extract - fees - data analyst - .csv" fees_file ;;
   let cash_df := map parse_dates cash_df in
   safe_print (RowsWithBothIds (List.length (filter both_present cash_df))) ;;;
   let cash_df := unify_identity cash_df in
   let missing := missing_final_ids cash_df in
   safe_print (MissingFinalIds missing) ;;;
   (if (0 <? missing)%nat then
      safe_print (SampleMissingFinalIds
        (firstn 5 (filter (fun r => isnull (final_user_id r)) cash_df)))
    else safe_print AllFinalIdsValid) ;;;
   let unmatched := unmatched_ids cash_df fees_df in
   safe_print (UnmatchedCashRequestIds
                 (nunique (map cash_request_id unmatched))
                 (List.length unmatched)) ;;;
   (match unmatched with
    | [] => safe_print NoUnmatchedCashRequestIds
    | _ => safe_print (SampleUnmatched (firstn 5 unmatched))
    end) ;;;
   let original_len := List.length fees_df in
   let fees_df := drop_missing_cash_request_id fees_df in
   safe_print (DroppedMissingCashRequestId
                 (original_len - List.length fees_df)) ;;;
   let cash_df := map clean_cash_row cash_df in
   let fees_df := map clean_fee_categoricals fees_df in
   ret {| clean_cash_requests := cash_df; clean_fees := fees_df |})%run.

End Cleaning.

Import Cleaning.

(* ===================================================================== *)
(** * Script 2: charts, linking fees to cash requests, first request
      per user *)
(* ===================================================================== *)

Module Eda.

(** ** In[3]: the cleaned files, as [pd.read_csv] reads them

    [to_csv] writes a missing value as an empty field, and [read_csv]
    reads as missing every field whose text is one of its default
    [na_values].  The other columns come back as they were written. *)

Definition na_values : list string :=
  [EmptyString; "#N/A"; "#N/A N/A"; "#NA"; "-1.#IND"; "-1.#QNAN"; "-NaN";
   "-nan"; "1.#IND"; "1.#QNAN"; "<NA>"; "N/A"; "NA"; "NULL"; "NaN"; "None";
   "n/a"; "nan"; "null"]%string.

Definition read_text (v : option string) : option string :=
  match v with
  | Some s => if existsb (String.eqb s) na_values then None else Some s
  | None => None
  end.

Definition read_cash_row (r : CleanCash) : CleanCash :=
  {| cash :=
       {| id := id (cash r); amount := amount (cash r);
          status := read_text (status (cash r));
          transfer_type := read_text (transfer_type (cash r));
          created_at := created_at (cash r);
          user_id := user_id (cash r);
          deleted_account_id := deleted_account_id (cash r);
          recovery_status := read_text (recovery_status (cash r)) |};
     final_user_id := final_user_id r |}.

Definition read_fee_row (f : Fee) : Fee :=
  {| fee_id := fee_id f;
     fee_type := read_text (fee_type f);
     fee_status := read_text (fee_status f);
     cash_request_id := cash_request_id f;
     total_amount := total_amount f |}.

(** ** In[7]: one chart per categorical column *)

(** [temp_col = cash_df[col].fillna("missing") if col in replace_nan_cash
                else cash_df[col]], with
    [replace_nan_cash = ['recovery_status']]: the column that is
    filled. *)
Definition fill_missing (v : option string) : option string :=
  match v with
  | Some s => Some s
  | None => Some "missing"%string
  end.

(** [counts = temp_col.value_counts(dropna=False)] and the upper limit
    of the chart, [counts.max() * 1.1].  A column without rows has no
    counts. *)
Definition counts_top (column : list (option string)) : option Q :=
  option_map
    (fun top => (top * (11 # 10))%Q)
    (series_max
       (map (fun vc => inject_Z (snd vc))
            (value_counts (option_eqb String.eqb) column))).

(** ** In[8]: requests and amount per month *)

(** [cash_df['created_at'] = pd.to_datetime(cash_df['created_at'],
                                            errors='coerce')]
    [cash_df['year_month'] = cash_df['created_at'].dt.to_period('M')];
    [month_label] is the same month written out, so grouping by both
    columns groups by month.  A request without a date has no month. *)
Definition month_of (r : CleanCash) : option Period :=
  option_map to_period_M (to_datetime (created_at (cash r))).

Definition rows_of_month (m : Period) (cash_df : list CleanCash)
  : list CleanCash :=
  filter (fun r => key_eqb (month_of r) (Some m)) cash_df.

(** [cash_df.groupby(['year_month', 'month_label']).size()
      .reset_index(name='cash_requests')]: the rows without a month
    belong to no group. *)
Definition monthly_requests (cash_df : list CleanCash) : list (Period * Z) :=
  map (fun m => (m, Z.of_nat (List.length (rows_of_month m cash_df))))
      (sorted_unique (dropna (map month_of cash_df))).

(** [cash_df.groupby(['year_month', 'month_label'])['amount'].sum()
      .reset_index()] *)
Definition monthly_amount (cash_df : list CleanCash) : list (Period * Q) :=
  map (fun m =>
         (m, nansum (map (fun r => amount (cash r)) (rows_of_month m cash_df))))
      (sorted_unique (dropna (map month_of cash_df))).

Record MonthlyRow : Type := mkMonthlyRow {
  summary_month : Period;
  cash_requests : Z;
  summary_amount : Q
}.

(** [monthly_summary = pd.merge(monthly_requests, monthly_amount,
                               on=['year_month', 'month_label'])]
    [monthly_summary = monthly_summary.sort_values(by='year_month')] *)
Definition monthly_summary (cash_df : list CleanCash) : list MonthlyRow :=
  sort_values summary_month
    (map (fun p =>
            {| summary_month := fst (fst p);
               cash_requests := snd (fst p);
               summary_amount := snd (snd p) |})
         (inner_merge (fun a b => fst a =? fst b)
                      (monthly_requests cash_df) (monthly_amount cash_df))).

(** [ax1.set_ylim(0, monthly_summary['cash_requests'].max() * 1.1)] and
    [ax2.set_ylim(0, monthly_summary['amount'].max() * 1.1)] *)
Definition requests_top (summary : list MonthlyRow) : option Q :=
  option_map
    (fun top => (top * (11 # 10))%Q)
    (series_max (map (fun r => inject_Z (cash_requests r)) summary)).

Definition amount_top (summary : list MonthlyRow) : option Q :=
  option_map
    (fun top => (top * (11 # 10))%Q)
    (series_max (map summary_amount summary)).

(** ** In[11]: incidents per month *)

(** [cash_df] of script 2: the cleaned row plus the columns added in
    In[8] and In[11]; [cash_created_at] is the column [created_at] once
    [pd.to_datetime] has gone over it (In[16] renames it). *)
Record EdaCash : Type := mkEdaCash {
  clean : CleanCash;
  cash_created_at : option Timestamp;
  year_month : option Period;
  incident_flag : string
}.

(** In[11]:
    [cash_df['created_at'] = pd.to_datetime(cash_df['created_at'],
                                            errors='coerce')]
    [cash_df['year_month'] = cash_df['created_at'].dt.to_period('M')]
    [cash_df['incident_flag'] =
       np.where(recovery_status.notna(), 'incident', 'no_incident')] *)
Definition add_eda_columns (r : CleanCash) : EdaCash :=
  {| clean := r;
     cash_created_at := to_datetime (created_at (cash r));
     year_month := month_of r;
     incident_flag :=
       if notnull (recovery_status (cash r)) then "incident"%string
       else "no_incident"%string |}.

(** The two labels [np.where] writes into [incident_flag], in the order
    [groupby] and [pivot] sort them. *)
Definition incident_labels : list string :=
  ["incident"; "no_incident"]%string.

Definition in_trend_group (m : Period) (flag : string) (c : EdaCash) : bool :=
  key_eqb (year_month c) (Some m) && String.eqb (incident_flag c) flag.

(** [cash_df.groupby(['year_month', 'incident_flag']).size()
      .reset_index(name='count')]: one row per group that has rows. *)
Definition incident_trend (cash_df : list EdaCash)
  : list (Period * string * Z) :=
  flat_map
    (fun m =>
       flat_map
         (fun flag =>
            match filter (in_trend_group m flag) cash_df with
            | [] => []
            | rows => [(m, flag, Z.of_nat (List.length rows))]
            end)
         incident_labels)
    (sorted_unique (dropna (map year_month cash_df))).

(** The value [pivot] finds for a cell, if the long table has it. *)
Fixpoint trend_cell (m : Period) (flag : string)
    (trend : list (Period * string * Z)) : option Z :=
  match trend with
  | [] => None
  | (m', flag', v) :: rest =>
      if (m' =? m) && String.eqb flag' flag then Some v
      else trend_cell m flag rest
  end.

(** The index of the pivot: the months of the long table. *)
Definition trend_index (trend : list (Period * string * Z)) : list Period :=
  sorted_unique (map (fun t => fst (fst t)) trend).

(** [incident_trend.pivot(index='year_month', columns='incident_flag',
                          values='count').fillna(0)], column by column:
    the table has a column for each label the long table holds. *)
Definition incident_pivot (trend : list (Period * string * Z))
  : list (string * list (Period * Q)) :=
  map (fun flag =>
         (flag,
          map (fun m =>
                 (m, match trend_cell m flag trend with
                     | Some n => inject_Z n
                     | None => 0%Q
                     end))
              (trend_index trend)))
      (filter
         (fun flag => existsb (fun t => String.eqb (snd (fst t)) flag) trend)
         incident_labels).

(** [frame[name]]: nothing when the frame has no such column (a
    [KeyError] in the script). *)
Fixpoint column (name : string) (frame : list (string * list (Period * Q)))
  : option (list (Period * Q)) :=
  match frame with
  | [] => None
  | (label, cells) :: rest =>
      if String.eqb label name then Some cells else column name rest
  end.

Record IncidentMonth : Type := mkIncidentMonth {
  incident_month : Period;
  incident : Q;
  no_incident : Q;
  incident_ratio : Q
}.

(** [incident_table['Incident Ratio (%)'] =
       (incident_table['incident']
        / (incident_table['incident'] + incident_table['no_incident'])) * 100] *)
Definition incident_table (pivot : list (string * list (Period * Q)))
  : option (list IncidentMonth) :=
  match column "incident" pivot, column "no_incident" pivot with
  | Some incidents, Some others =>
      Some (map (fun p =>
                   {| incident_month := fst (fst p);
                      incident := snd (fst p);
                      no_incident := snd (snd p);
                      incident_ratio :=
                        (snd (fst p) / (snd (fst p) + snd (snd p))
                         * inject_Z 100)%Q |})
                (combine incidents others))
  | _, _ => None
  end.

(** [index.get_loc(label)]: the position of the label, nothing when the
    index does not hold it (a [KeyError] in the script). *)
Fixpoint get_loc (p : Period) (index : list Period) : option nat :=
  match index with
  | [] => None
  | q :: rest =>
      if q =? p then Some 0%nat else option_map S (get_loc p rest)
  end.

(** [partial_months = {'2019-11': 'Nov 2019*', '2020-11': 'Nov 2020*'}] *)
Definition incident_partial_months : list Period := [ym 2019 11; ym 2020 11].

(** [for month_period, label in partial_months.items():
       idx = incident_pivot.index.get_loc(pd.Period(month_period, freq='M'))]:
    the positions of the dashed lines, when every look-up succeeds. *)
Fixpoint partial_month_lines (months index : list Period)
  : option (list nat) :=
  match months with
  | [] => Some []
  | p :: rest =>
      match get_loc p index with
      | Some i => option_map (cons i) (partial_month_lines rest index)
      | None => None
      end
  end.

(** [if jan_2020_period in incident_pivot.index:
       jan_idx = incident_pivot.index.get_loc(jan_2020_period)] *)
Definition jan_2020_line (index : list Period) : option nat :=
  if existsb (Z.eqb (ym 2020 1)) index
  then get_loc (ym 2020 1) index
  else None.

Record IncidentCell : Type := mkIncidentCell {
  cell_table : list IncidentMonth;
  cell_partial_lines : list nat;
  cell_jan_line : option nat
}.

(** The cell In[11] from the flag to the lines of the chart; [None] is
    the cell stopped by a [KeyError]. *)
Definition incident_cell (cash_df : list CleanCash) : option IncidentCell :=
  let trend := incident_trend (map add_eda_columns cash_df) in
  match incident_table (incident_pivot trend) with
  | Some table =>
      match partial_month_lines incident_partial_months (trend_index trend) with
      | Some lines =>
          Some {| cell_table := table;
                  cell_partial_lines := lines;
                  cell_jan_line := jan_2020_line (trend_index trend) |}
      | None => None
      end
  | None => None
  end.

(** ** In[16], In[17]: the merge *)

(** Columns of [cash_df] after the renaming of In[16]. *)
Definition cash_request_id_of (c : EdaCash) : Z := id (cash (clean c)).
Definition cash_final_user_id (c : EdaCash) : option Z :=
  final_user_id (clean c).
Definition cash_status (c : EdaCash) : option string :=
  status (cash (clean c)).

(** A row of [merged_df]: the cash request and, when one is linked, a
    fee; without a fee every fee column is null. *)
Abbreviation MergedRow := (EdaCash * option Fee)%type (only parsing).

(** In[17]: [merged_df = cash_df.merge(fees_df, how='left',
                        left_on='cash_request_id',
                        right_on='cash_request_id')] *)
Definition merged_df (cash_df : list EdaCash) (fees_df : list Fee)
  : list MergedRow :=
  left_merge
    (fun c f => key_eqb (Some (cash_request_id_of c)) (cash_request_id f))
    cash_df fees_df.

(** [merged_df['cash_request_id'].nunique()] *)
Definition total_cash_requests (merged : list MergedRow) : nat :=
  nunique (map (fun r => Some (cash_request_id_of (fst r))) merged).

(** The column [type] of a merged row: the type of its fee. *)
Definition merged_fee_type (r : MergedRow) : option string :=
  match snd r with
  | Some f => fee_type f
  | None => None
  end.

(** [merged_df[merged_df['type'].notna()]['cash_request_id'].nunique()] *)
Definition cash_requests_with_fees (merged : list MergedRow) : nat :=
  nunique (map (fun r => Some (cash_request_id_of (fst r)))
               (filter (fun r => notnull (merged_fee_type r)) merged)).

(** ** In[18]: fees by status of the request and type of the fee *)

(** The groups of [merged_df.pivot_table(index='cash_status',
    columns='type', values='fee_id', aggfunc='count', fill_value=0)]:
    a row with a missing status or without a fee type is in no group. *)
Definition status_fee_keys (merged : list MergedRow)
  : list (string * string) :=
  flat_map
    (fun r =>
       match cash_status (fst r), merged_fee_type r with
       | Some s, Some t => [(s, t)]
       | _, _ => []
       end)
    merged.

(** The pivot has a row for each status and a column for each type of
    the groups. *)
Definition status_fee_pivot_cells (merged : list MergedRow) : nat :=
  (List.length (distinct String.eqb (map fst (status_fee_keys merged)))
   * List.length (distinct String.eqb (map snd (status_fee_keys merged))))%nat.

(** ** In[20]: first request per user *)

(** A row of [user_first_request].  [cohort_month] (['Jan 2020'], from
    [strftime]) is missing when the date is; [cohort_year_month]
    (['2020-01'], from [astype(str)]) is then the text ['NaT']. *)
Record UserFirstRequest : Type := mkUserFirstRequest {
  ufr_final_user_id : Z;
  first_request_date : option Timestamp;
  cohort_month : option Period;
  cohort_year_month : option Period
}.

(** The requests of one user. *)
Definition requests_of (u : Z) (cash_df : list EdaCash) : list EdaCash :=
  filter (fun c => key_eqb (cash_final_user_id c) (Some u)) cash_df.

(** [cash_df['cash_created_at'] =
       pd.to_datetime(cash_df['cash_created_at'], errors='coerce')],
    the first step of In[20], In[21] and In[22], on one row. *)
Definition request_date (c : EdaCash) : option Timestamp :=
  to_datetime (cash_created_at c).

(** In[20]:
    [cash_df.groupby('final_user_id')['cash_created_at'].min()], then
    the two cohort columns.  [groupby] drops the rows whose key is null
    and returns one row per key, keys ascending; [min] skips the
    missing dates. *)
Definition first_request_row (cash_df : list EdaCash) (u : Z)
  : UserFirstRequest :=
  let first :=
    series_min (dropna (map request_date (requests_of u cash_df))) in
  {| ufr_final_user_id := u;
     first_request_date := first;
     cohort_month := option_map to_period_M first;
     cohort_year_month := Some (period_text first) |}.

Definition user_first_request (cash_df : list EdaCash)
  : list UserFirstRequest :=
  map (first_request_row cash_df)
      (sorted_unique (dropna (map cash_final_user_id cash_df))).

(** ** In[21]: monthly active users *)

(** [cash_df['activity_month'] = cash_df['cash_created_at'].dt.to_period('M')] *)
Definition activity_month (c : EdaCash) : option Period :=
  option_map to_period_M (request_date c).

(** [cash_df.groupby('activity_month')['final_user_id'].nunique()
      .reset_index().rename(columns={'final_user_id': 'active_users'})] *)
Definition monthly_active_users (cash_df : list EdaCash)
  : list (Period * nat) :=
  map (fun m =>
         (m, nunique (map cash_final_user_id
                          (filter (fun c => key_eqb (activity_month c) (Some m))
                                  cash_df))))
      (sorted_unique (dropna (map activity_month cash_df))).

(** ** In[22]: instant and regular transfers per month *)

(** The keys of [groupby(['year_month', 'month_label', 'transfer_type'])],
    after In[22] has computed the month from [cash_created_at] once
    more: a row without a month or without a transfer type is in no
    group. *)
Definition transfer_key (c : EdaCash) : option (Period * string) :=
  match activity_month c, transfer_type (cash (clean c)) with
  | Some m, Some t => Some (m, t)
  | _, _ => None
  end.

Definition in_transfer_group (m : Period) (t : string) (c : EdaCash) : bool :=
  match transfer_key c with
  | Some (m', t') => (m' =? m) && String.eqb t' t
  | None => false
  end.

(** [.size().unstack(fill_value=0)]: one row per month of the groups,
    one column per transfer type of the groups. *)
Definition transfer_months (cash_df : list EdaCash) : list Period :=
  sorted_unique (map fst (dropna (map transfer_key cash_df))).

Definition transfer_column (t : string) (cash_df : list EdaCash)
  : option (list (Period * Z)) :=
  if existsb (fun k => String.eqb (snd k) t) (dropna (map transfer_key cash_df))
  then Some (map (fun m =>
                    (m, Z.of_nat
                          (List.length (filter (in_transfer_group m t) cash_df))))
                 (transfer_months cash_df))
  else None.

Record TransferShare : Type := mkTransferShare {
  share_month : Period;
  instant : Z;
  regular : Z;
  instant_share_percent : option Q
}.

(** [instant / (instant + regular) * 100] on two counts: [0 / 0] is
    [NaN]. *)
Definition share_percent (a b : Z) : option Q :=
  if a + b =? 0 then None
  else Some (inject_Z a / inject_Z (a + b) * inject_Z 100)%Q.

(** [transfer_counts['instant_share_percent'] =
       (transfer_counts['instant']
        / (transfer_counts['instant'] + transfer_counts['regular'])) * 100] *)
Definition transfer_shares (instants regulars : list (Period * Z))
  : list TransferShare :=
  map (fun p =>
         {| share_month := fst (fst p);
            instant := snd (fst p);
            regular := snd (snd p);
            instant_share_percent :=
              share_percent (snd (fst p)) (snd (snd p)) |})
      (combine instants regulars).

(** ** The script *)

(** The four tables script 2 hands to script 3. *)
Record Outputs : Type := mkOutputs {
  user_first_request_csv : list UserFirstRequest;
  monthly_active_users_csv : list (Period * nat);
  transfer_type_share : list TransferShare;
  merged_cash_fee : list MergedRow
}.

Inductive Report : Type :=
| MergedShape (rows : nat)
| TotalCashRequests (n : nat)
| CashRequestsWithFees (n : nat)
| TotalUniqueUsers (n : nat).

(** Script 2 from loading to saving.  The cleaned files are read inside
    [try ... except FileNotFoundError: sys.exit(1)].  In[7] draws the
    columns of [categorical_cash], then those of [categorical_fees];
    the fee columns not carried here have as many rows as the others. *)
Definition script (cash_file : option (list CleanCash))
    (fees_file : option (list Fee)) : Run Report Outputs :=
  (cash_df <- read_csv "clean_cash_requests.csv" cash_file ;;
   fees_df <- read_csv "clean_fees.csv" fees_file ;;
   let cash_df := map read_cash_row cash_df in
   let fees_df := map read_fee_row fees_df in
   set_ylim (counts_top (map (fun r => status (cash r)) cash_df)) ;;;
   set_ylim (counts_top (map (fun r => transfer_type (cash r)) cash_df)) ;;;
   set_ylim (counts_top
               (map (fun r => fill_missing (recovery_status (cash r)))
                    cash_df)) ;;;
   set_ylim (counts_top (map fee_type fees_df)) ;;;
   set_ylim (counts_top (map fee_status fees_df)) ;;;
   let summary := monthly_summary cash_df in
   set_ylim (requests_top summary) ;;;
   set_ylim (amount_top summary) ;;;
   let cash_df := map add_eda_columns cash_df in
   let trend := incident_trend cash_df in
   lookup "incident" (column "incident" (incident_pivot trend)) ;;;
   lookup "no_incident" (column "no_incident" (incident_pivot trend)) ;;;
   lookup "2019-11" (get_loc (ym 2019 11) (trend_index trend)) ;;;
   lookup "2020-11" (get_loc (ym 2020 11) (trend_index trend)) ;;;
   let merged := merged_df cash_df fees_df in
   safe_print (MergedShape (List.length merged)) ;;;
   safe_print (TotalCashRequests (total_cash_requests merged)) ;;;
   safe_print (CashRequestsWithFees (cash_requests_with_fees merged)) ;;;
   heatmap (status_fee_pivot_cells merged) ;;;
   let users := user_first_request cash_df in
   safe_print (TotalUniqueUsers (List.length users)) ;;;
   let active := monthly_active_users cash_df in
   instants <- lookup "instant" (transfer_column "instant" cash_df) ;;
   regulars <- lookup "regular" (transfer_column "regular" cash_df) ;;
   ret {| user_first_request_csv := users;
          monthly_active_users_csv := active;
          transfer_type_share := transfer_shares instants regulars;
          merged_cash_fee := merged |})%run.

End Eda.

Import Eda.
(* ===================================================================== *)
(** * Script 3: cohort metrics *)
(* ===================================================================== *)

Module CohortMetrics.

(** A row of [merged_cash_fee_cohort]: a row of [merged_df] and, when
    the user is known to [user_first_request_df], its cohort columns. *)
Abbreviation CohortRow :=
  (EdaCash * option Fee * option UserFirstRequest)%type (only parsing).

Definition row_final_user_id (r : CohortRow) : option Z :=
  cash_final_user_id (fst (fst r)).
Definition row_year_month (r : CohortRow) : option Period :=
  year_month (fst (fst r)).
Definition row_incident_flag (r : CohortRow) : string :=
  incident_flag (fst (fst r)).
Definition row_fee_status (r : CohortRow) : option string :=
  match snd (fst r) with Some f => fee_status f | None => None end.
Definition row_total_amount (r : CohortRow) : option Q :=
  match snd (fst r) with Some f => total_amount f | None => None end.
Definition row_cohort_month (r : CohortRow) : option Period :=
  match snd r with Some u => cohort_month u | None => None end.
Definition row_cohort_year_month (r : CohortRow) : option Period :=
  match snd r with Some u => cohort_year_month u | None => None end.

(** In[8]: [pd.merge(merged_df,
              user_first_request_df[['final_user_id', 'cohort_month',
                                     'cohort_year_month']],
              on='final_user_id', how='left')] *)
Definition merged_cash_fee_cohort (merged : list MergedRow)
    (user_first_request_df : list UserFirstRequest) : list CohortRow :=
  left_merge
    (fun m u =>
       key_eqb (cash_final_user_id (fst m)) (Some (ufr_final_user_id u)))
    merged user_first_request_df.

(** ** In[9]: validation of the cohort assignment *)

(** [missing_cohort_rows = df['cohort_month'].isna().sum()] *)
Definition missing_cohort_rows (df : list CohortRow) : nat :=
  List.length (filter (fun r => isnull (row_cohort_month r)) df).

(** The rows of one user. *)
Definition rows_of_user (u : Z) (df : list CohortRow) : list CohortRow :=
  filter (fun r => key_eqb (row_final_user_id r) (Some u)) df.

(** [user_cohort_counts =
       df.groupby('final_user_id')['cohort_month'].nunique()] *)
Definition user_cohort_counts (df : list CohortRow) : list (Z * nat) :=
  map (fun u => (u, nunique (map row_cohort_month (rows_of_user u df))))
      (sorted_unique (dropna (map row_final_user_id df))).

(** [inconsistent_users = user_cohort_counts[user_cohort_counts > 1]] *)
Definition inconsistent_users (df : list CohortRow) : list (Z * nat) :=
  filter (fun un => (1 <? snd un)%nat) (user_cohort_counts df).

(** ** In[12]: usage matrix *)

(** The group keys of [groupby(['cohort_year_month', 'year_month'])]:
    a row with a null key belongs to no group. *)
Definition group_keys (df : list CohortRow) : list (Period * Period) :=
  flat_map
    (fun r =>
       match row_cohort_year_month r, row_year_month r with
       | Some c, Some m => [(c, m)]
       | _, _ => []
       end)
    df.

Definition in_group (c m : Period) (k : Period * Period) : bool :=
  (fst k =? c) && (snd k =? m).

(** [cohort_usage]: one row [(cohort_year_month, year_month,
    num_requests)] per group, groups in ascending key order. *)
Definition cohort_usage (df : list CohortRow)
  : list (Period * Period * Z) :=
  let keys := group_keys df in
  flat_map
    (fun c =>
       map (fun m =>
              (c, m, Z.of_nat (List.length (filter (in_group c m) keys))))
           (sorted_unique
              (map snd (filter (fun k => fst k =? c) keys))))
    (sorted_unique (map fst keys)).

(** The value [pivot] finds for a cell, if the long table has it. *)
Fixpoint find_cell (c m : Period) (long : list (Period * Period * Z))
  : option Z :=
  match long with
  | [] => None
  | (c', m', v) :: rest =>
      if (c' =? c) && (m' =? m) then Some v else find_cell c m rest
  end.

(** [long.pivot(index='cohort_year_month', columns='year_month',
                values='num_requests')] *)
Definition pivot (long : list (Period * Period * Z))
  : DataFrame (option Z) :=
  let index := sorted_unique (map (fun t => fst (fst t)) long) in
  let columns := sorted_unique (map (fun t => snd (fst t)) long) in
  map (fun c => (c, map (fun m => (m, find_cell c m long)) columns)) index.

(** [.fillna(0).astype(int)] on one cell. *)
Definition fillna0 (v : option Z) : Z :=
  match v with Some n => n | None => 0 end.

Definition cohort_usage_matrix (df : list CohortRow) : DataFrame Z :=
  map (fun row => (fst row, smap fillna0 (snd row)))
      (pivot (cohort_usage df)).

(** ** In[13]: retention matrix *)

(** [cohort_usage_matrix.astype(float)] *)
Definition astype_float (m : DataFrame Z) : DataFrame Q :=
  map (fun row => (fst row, smap inject_Z (snd row))) m.

(** [(row / first_value).round(3)] *)
Definition divide_and_round (first_value : Q) (row : Series Q) : Series Q :=
  smap (fun v => round_dec 3 (v / first_value)%Q) row.

(** [retention_matrix.loc[idx] = 0.0] *)
Definition zero_row (row : Series Q) : Series Q := smap (fun _ => 0%Q) row.

(** [first_value = row[row > 0].iloc[0] if any(row > 0) else None] *)
Definition first_nonzero (row : Series Q) : option Q :=
  match filter Qpositive (values row) with
  | first_value :: _ => Some first_value
  | [] => None
  end.

(** The body of the loop of In[13].  A first value found by
    [first_nonzero] is positive, so the test
    [first_value and first_value != 0] only fails on [None]. *)
Definition normalize_by_first_nonzero (row : Series Q) : Series Q :=
  match first_nonzero row with
  | Some first_value => divide_and_round first_value row
  | None => zero_row row
  end.

(** The loop assigns each row by its label; the labels of a pivot
    are distinct, so every row is rewritten from its own values. *)
Definition retention_matrix (usage : DataFrame Z) : DataFrame Q :=
  map (fun row => (fst row, normalize_by_first_nonzero (snd row)))
      (astype_float usage).

(** ** In[15]: retention matrix without the partial months *)

Definition partial_months : list Period := [ym 2019 11; ym 2020 11].

Definition is_partial (p : Period) : bool :=
  existsb (Z.eqb p) partial_months.

(** [cohort_usage_matrix.drop(index=partial_months,
                              columns=partial_months, errors='ignore')] *)
Definition filtered_usage (usage : DataFrame Z) : DataFrame Z :=
  map (fun row =>
         (fst row, filter (fun kv => negb (is_partial (fst kv))) (snd row)))
      (filter (fun row => negb (is_partial (fst row))) usage).

(** The body of the loop of In[15]:
    [first_value = row.loc[idx] if idx in row else None], then
    [if pd.notna(first_value) and first_value > 0]. *)
Definition normalize_by_entry_month (idx : Period) (row : Series Q)
  : Series Q :=
  match loc idx row with
  | Some first_value =>
      if Qpositive first_value then divide_and_round first_value row
      else zero_row row
  | None => zero_row row
  end.

Definition filtered_retention_matrix (usage : DataFrame Z) : DataFrame Q :=
  map (fun row => (fst row, normalize_by_entry_month (fst row) (snd row)))
      (astype_float (filtered_usage usage)).

(** ** In[17]: incident rate *)

(** [df.groupby('cohort_year_month').size()]: rows with a null cohort
    belong to no group. *)
Definition size_by_cohort (df : list CohortRow) : list (Period * Z) :=
  map (fun c =>
         (c, Z.of_nat
               (List.length
                  (filter (fun r => key_eqb (row_cohort_year_month r) (Some c))
                          df))))
      (sorted_unique (dropna (map row_cohort_year_month df))).

Definition total_counts (df : list CohortRow) : list (Period * Z) :=
  size_by_cohort df.

Definition incident_counts (df : list CohortRow) : list (Period * Z) :=
  size_by_cohort
    (filter (fun r => String.eqb (row_incident_flag r) "incident") df).

Record IncidentRow : Type := mkIncidentRow {
  incident_cohort : Period;
  total_requests : Z;
  incident_requests : Z;
  incident_rate : Q
}.

(** [pd.concat([total_counts, incident_counts], axis=1).fillna(0)], then
    the rate.  Every cohort of [incident_counts] is a cohort of
    [total_counts], so the index of the result is that of
    [total_counts]; a cohort without incidents gets 0. *)
Definition incident_df (df : list CohortRow) : list IncidentRow :=
  map (fun cn =>
         let incidents := fillna0 (loc (fst cn) (incident_counts df)) in
         {| incident_cohort := fst cn;
            total_requests := snd cn;
            incident_requests := incidents;
            incident_rate :=
              round_dec 4 (inject_Z incidents / inject_Z (snd cn))%Q |})
      (total_counts df).

(** ** In[19]: revenue per cohort *)

(** [merged_df[merged_df['fee_status'] == 'accepted']] *)
Definition is_accepted (r : CohortRow) : bool :=
  match row_fee_status r with
  | Some s => String.eqb s "accepted"
  | None => false
  end.

Definition accepted_fees (df : list CohortRow) : list CohortRow :=
  filter is_accepted df.

(** The rows of one cohort. *)
Definition rows_of_cohort (c : Period) (df : list CohortRow)
  : list CohortRow :=
  filter (fun r => key_eqb (row_cohort_year_month r) (Some c)) df.

(** [accepted_fees.groupby('cohort_year_month')['total_amount'].sum()
      .reset_index(name='cohort_revenue')
      .sort_values(by='cohort_year_month')] *)
Definition cohort_revenue (df : list CohortRow) : list (Period * Q) :=
  let accepted := accepted_fees df in
  sort_values fst
    (map (fun c =>
            (c, nansum (map row_total_amount (rows_of_cohort c accepted))))
         (sorted_unique (dropna (map row_cohort_year_month accepted)))).

(** ** In[21]: cumulative revenue *)

Record CumulativeRow : Type := mkCumulativeRow {
  cumulative_cohort : Period;
  cumulative_cohort_revenue : Q;
  cumulative_revenue : Q
}.

(** [revenue_df = revenue_df.sort_values("cohort_year_month")]
    [revenue_df["cumulative_revenue"] = revenue_df["cohort_revenue"].cumsum()] *)
Definition revenue_df (revenue : list (Period * Q)) : list CumulativeRow :=
  let sorted := sort_values fst revenue in
  map (fun rc =>
         {| cumulative_cohort := fst (fst rc);
            cumulative_cohort_revenue := snd (fst rc);
            cumulative_revenue := snd rc |})
      (combine sorted (cumsum (map snd sorted))).

(** ** In[22]: ARPU *)

(** [user_first_request.groupby('cohort_year_month').size()] *)
Definition cohort_user_counts (users : list UserFirstRequest)
  : list (Period * Z) :=
  map (fun c =>
         (c, Z.of_nat
               (List.length
                  (filter (fun u => key_eqb (cohort_year_month u) (Some c))
                          users))))
      (sorted_unique (dropna (map cohort_year_month users))).

Record ArpuRow : Type := mkArpuRow {
  arpu_cohort : Period;
  arpu_cohort_revenue : Q;
  user_count : option Z;
  arpu : option Q
}.

(** [arpu_df = pd.merge(cohort_revenue, cohort_user_counts,
                        on='cohort_year_month', how='left')]
    [arpu_df['arpu'] = (cohort_revenue / user_count).round(2)];
    a cohort without a user count has a null [arpu]. *)
Definition arpu_df (revenue : list (Period * Q))
    (users : list UserFirstRequest) : list ArpuRow :=
  map (fun rc =>
         let count := option_map snd (snd rc) in
         {| arpu_cohort := fst (fst rc);
            arpu_cohort_revenue := snd (fst rc);
            user_count := count;
            arpu :=
              option_map
                (fun n => round_dec 2 (snd (fst rc) / inject_Z n)%Q)
                count |})
      (left_merge (fun r c => fst r =? fst c)
                  revenue (cohort_user_counts users)).

(** ** In[23]: CLV *)

(** [retention_binary = retention_df.gt(0).astype(int)]
    [avg_retention_months = retention_binary.sum(axis=1)] *)
Definition avg_retention_months (retention_df : DataFrame Q)
  : list (Period * Z) :=
  map (fun row =>
         (fst row,
          Z.of_nat (List.length (filter Qpositive (values (snd row))))))
      retention_df.

Record ClvRow : Type := mkClvRow {
  clv_arpu : ArpuRow;
  clv_avg_retention_months : option Z;
  clv : option Q
}.

Definition clv_cohort (r : ClvRow) : Period := arpu_cohort (clv_arpu r).

(** [(arpu * avg_retention_months).round(2)]: null when either side is. *)
Definition clv_value (a : option Q) (months : option Z) : option Q :=
  match a, months with
  | Some x, Some k => Some (round_dec 2 (x * inject_Z k)%Q)
  | _, _ => None
  end.

(** [clv_df = arpu_df.merge(avg_retention_months,
                            on='cohort_year_month', how='left')]
    [clv_df['clv'] = (clv_df['arpu'] * clv_df['avg_retention_months']).round(2)]
    [clv_df = clv_df[~clv_df['cohort_year_month'].isin(partial_months)]] *)
Definition clv_df (arpu_table : list ArpuRow) (retention_df : DataFrame Q)
  : list ClvRow :=
  filter (fun r => negb (is_partial (clv_cohort r)))
    (map (fun am =>
            let months := option_map snd (snd am) in
            {| clv_arpu := fst am;
               clv_avg_retention_months := months;
               clv := clv_value (arpu (fst am)) months |})
         (left_merge (fun a m => arpu_cohort a =? fst m)
                     arpu_table (avg_retention_months retention_df))).

(** ** The script *)

Inductive Report : Type :=
| MissingCohortRows (n : nat)
| PreviewMissingCohort (sample : list CohortRow)
| AllRecordsAssigned
| CohortAssignmentConsistent
| InconsistentUsers (n : nat) (sample : list (Z * nat)).

Record Metrics : Type := mkMetrics {
  out_merged_cash_fee_cohort : list CohortRow;
  out_cohort_usage_matrix : DataFrame Z;
  out_retention_matrix : DataFrame Q;
  out_filtered_retention_matrix : DataFrame Q;
  out_incident_df : list IncidentRow;
  out_cohort_revenue : list (Period * Q);
  out_revenue_df : list CumulativeRow;
  out_arpu_df : list ArpuRow;
  out_clv_df : list ClvRow
}.

(** The tables as script 3 derives them from the cohort-tagged table
    and the per-user mapping. *)
Definition metrics (df : list CohortRow) (users : list UserFirstRequest)
  : Metrics :=
  let usage := cohort_usage_matrix df in
  let filtered := filtered_retention_matrix usage in
  let revenue := cohort_revenue df in
  let arpu_table := arpu_df revenue users in
  {| out_merged_cash_fee_cohort := df;
     out_cohort_usage_matrix := usage;
     out_retention_matrix := retention_matrix usage;
     out_filtered_retention_matrix := filtered;
     out_incident_df := incident_df df;
     out_cohort_revenue := revenue;
     out_revenue_df := revenue_df revenue;
     out_arpu_df := arpu_table;
     out_clv_df := clv_df arpu_table filtered |}.

(** [plt.ylim(0, incident_df['incident_rate'].max() + 0.05)] *)
Definition incident_rate_top (table : list IncidentRow) : option Q :=
  option_map (fun top => (top + (5 # 100))%Q)
             (series_max (map incident_rate table)).

(** Script 3: the four files of script 2 are read (a missing file
    raises), the cohort is merged in, the assignment is validated by
    printing, and the metrics are computed.  The texts of the files hold
    none of the [na_values] of [read_csv], the text ['NaT'] included.
    The heat maps of In[12], In[14] and In[15] and the axis limit of
    In[18] are the chart calls that can stop the run. *)
Definition script (users_file : option (list UserFirstRequest))
    (active_users_file : option (list (Period * nat)))
    (transfer_share_file : option (list TransferShare))
    (merged_file : option (list MergedRow)) : Run Report Metrics :=
  (users <- read_csv "user_first_request.csv" users_file ;;
   read_csv "monthly_active_users.csv" active_users_file ;;;
   read_csv "transfer_type_share.csv" transfer_share_file ;;;
   merged <- read_csv "merged_cash_fee.csv" merged_file ;;
   let df := merged_cash_fee_cohort merged users in
   let missing := missing_cohort_rows df in
   safe_print (MissingCohortRows missing) ;;;
   (if (0 <? missing)%nat then
      safe_print (PreviewMissingCohort
        (firstn 5 (filter (fun r => isnull (row_cohort_month r)) df)))
    else safe_print AllRecordsAssigned) ;;;
   (match inconsistent_users df with
    | [] => safe_print CohortAssignmentConsistent
    | bad => safe_print (InconsistentUsers (List.length bad) (firstn 5 bad))
    end) ;;;
   let tables := metrics df users in
   heatmap (cells (out_cohort_usage_matrix tables)) ;;;
   heatmap (cells (out_retention_matrix tables)) ;;;
   heatmap (cells (out_filtered_retention_matrix tables)) ;;;
   set_ylim (incident_rate_top (out_incident_df tables)) ;;;
   ret tables)%run.

End CohortMetrics.

Import CohortMetrics.

(* ===================================================================== *)
(** * The three scripts in sequence *)
(* ===================================================================== *)

Inductive PipelineReport : Type :=
| FromCleaning (r : Cleaning.Report)
| FromEda (r : Eda.Report)
| FromCohortMetrics (r : CohortMetrics.Report).

Definition relabel {R R' A : Type} (f : R -> R') (m : Run R A) : Run R' A :=
  match m with
  | Finished out a => Finished (map f out) a
  | Halted out why => Halted (map f out) why
  end.

(** Each script reads the files the previous one wrote. *)
Definition pipeline (cash_file : option (list CashRequest))
    (fees_file : option (list Fee)) : Run PipelineReport Metrics :=
  (cleaned <- relabel FromCleaning (Cleaning.script cash_file fees_file) ;;
   eda <- relabel FromEda
            (Eda.script (Some (clean_cash_requests cleaned))
                        (Some (clean_fees cleaned))) ;;
   relabel FromCohortMetrics
     (CohortMetrics.script (Some (user_first_request_csv eda))
                           (Some (monthly_active_users_csv eda))
                           (Some (transfer_type_share eda))
                           (Some (merged_cash_fee eda))))%run.



(** The cohort-tagged table the pipeline builds from the cleaned tables
    script 2 has read. *)
Definition cohort_table (cash_df : list CleanCash) (fees_df : list Fee)
  : list CohortRow :=
  let eda_cash := map add_eda_columns cash_df in
  merged_cash_fee_cohort (merged_df eda_cash fees_df)
                         (user_first_request eda_cash).

(* ===================================================================== *)
(** * Notions the statements below are phrased with *)
(* ===================================================================== *)

Definition ts_le (a b : Timestamp) : Prop :=
  ts_month a < ts_month b
  \/ (ts_month a = ts_month b /\ ts_rest a <= ts_rest b).

(** The sum of one row of a matrix, over all its columns. *)
Definition row_sum (row : Series Z) : Z := fold_right Z.add 0 (values row).

(** The number of rows of a group: those of cohort [c] active in month
    [m]. *)
Definition group_size (keys : list (Period * Period)) (c m : Period) : Z :=
  Z.of_nat (List.length (filter (in_group c m) keys)).

(** The sum of a column of integers. *)
Definition sumZ (l : list Z) : Z := fold_right Z.add 0 l.

(** The row and column labels of the usage matrix. *)
Definition usage_index (df : list CohortRow) : list Period :=
  sorted_unique (map fst (group_keys df)).

Definition usage_columns (df : list CohortRow) : list Period :=
  sorted_unique (map snd (group_keys df)).

(** The metrics the pipeline derives from cleaned tables. *)
Definition pipeline_metrics (cash_df : list CleanCash) (fees_df : list Fee)
  : Metrics :=
  metrics (cohort_table cash_df fees_df)
          (user_first_request (map add_eda_columns cash_df)).

(** The number of users of a cohort: [user_first_request] has one row
    per user. *)
Definition users_in_cohort (c : Period) (users : list UserFirstRequest) : Z :=
  Z.of_nat
    (List.length
       (filter (fun u => key_eqb (cohort_year_month u) (Some c)) users)).

(** The number of columns of a retention row that hold a strictly
    positive value. *)
Definition active_months (row : Series Q) : Z :=
  Z.of_nat (List.length (filter Qpositive (values row))).

(** The running sums of a column, written as sums of its prefixes. *)
Definition sumQ (l : list Q) : Q := fold_right Qplus 0%Q l.

Definition prefix_sums (l : list Q) : list Q :=
  map (fun i => sumQ (firstn (S i) l)) (seq 0 (List.length l)).

(** The retention row as the specification words it: every cell of the
    row of cohort [c] divided by the cell of the entry month [c] and
    rounded to 3 places; all zeros when that cell is zero or absent. *)
Definition spec_retention_row (c : Period) (usage_row : Series Q)
  : Series Q :=
  match loc c usage_row with
  | Some entry =>
      if Qpositive entry
      then smap (fun v => round_dec 3 (v / entry)%Q) usage_row
      else smap (fun _ => 0%Q) usage_row
  | None => smap (fun _ => 0%Q) usage_row
  end.

Definition spec_retention_matrix (usage : DataFrame Z) : DataFrame Q :=
  map (fun row =>
         (fst row, spec_retention_row (fst row) (smap inject_Z (snd row))))
      usage.

(** User [u] has a request that carries a date. *)
Definition has_dated_request (u : Z) (cash_df : list EdaCash) : Prop :=
  exists c t, In c cash_df /\ cash_final_user_id c = Some u
              /\ request_date c = Some t.

(** [first] is the minimum [created_at] over the requests of user [u]:
    one of the user's requests carries it, and none carries an earlier
    date. *)
Definition is_first_request_date (first : Timestamp) (u : Z)
    (cash_df : list EdaCash) : Prop :=
  (exists c, In c cash_df /\ cash_final_user_id c = Some u
             /\ request_date c = Some first)
  /\ (forall c t, In c cash_df -> cash_final_user_id c = Some u ->
                  request_date c = Some t -> ts_le first t).

(* ===================================================================== *)
(** * Script 1: duplicates, identity counts, amounts, columns *)
(* ===================================================================== *)

Module CleaningChecks.

(** ** In[13], In[14]: [check_duplicates] *)

(** [Series.duplicated()] and [DataFrame.duplicated()] with the default
    [keep='first']: a row is marked when an equal row stands before
    it. *)
Fixpoint duplicated_from {A : Type} (eqb : A -> A -> bool) (seen : list A)
    (l : list A) : list bool :=
  match l with
  | [] => []
  | x :: l' => existsb (eqb x) seen :: duplicated_from eqb (x :: seen) l'
  end.

Definition duplicated {A : Type} (eqb : A -> A -> bool) (l : list A)
  : list bool :=
  duplicated_from eqb [] l.

(** [.sum()] of a boolean column. *)
Definition count_true (l : list bool) : nat :=
  List.length (filter (fun b => b) l).

(** The two counts [check_duplicates] prints; the second one only when a
    key column is given. *)
Record DuplicateCounts : Type := mkDuplicateCounts {
  total_dupes : nat;
  id_dupes : option nat
}.

(** [row_eqb] is the equality of two whole rows, over every column of
    the table. *)
Definition check_duplicates {Row : Type} (row_eqb : Row -> Row -> bool)
    (key_column : option (Row -> Z)) (df : list Row) : DuplicateCounts :=
  {| total_dupes := count_true (duplicated row_eqb df);
     id_dupes :=
       match key_column with
       | Some key => Some (count_true (duplicated Z.eqb (map key df)))
       | None => None
       end |}.

(** Two rows of [cash_df] hold the same values. *)
Definition timestamp_eqb (a b : Timestamp) : bool :=
  (ts_month a =? ts_month b) && (ts_rest a =? ts_rest b).

Definition cash_request_eqb (x y : CashRequest) : bool :=
  (id x =? id y)
  && option_eqb Qeq_bool (amount x) (amount y)
  && option_eqb String.eqb (status x) (status y)
  && option_eqb String.eqb (transfer_type x) (transfer_type y)
  && option_eqb timestamp_eqb (created_at x) (created_at y)
  && key_eqb (user_id x) (user_id y)
  && key_eqb (deleted_account_id x) (deleted_account_id y)
  && option_eqb String.eqb (recovery_status x) (recovery_status y).

(** ** In[17]: how the two identity columns are filled *)

Definition both_missing (r : CashRequest) : bool :=
  isnull (user_id r) && isnull (deleted_account_id r).

Definition user_only (r : CashRequest) : bool :=
  notnull (user_id r) && isnull (deleted_account_id r).

Definition deleted_only (r : CashRequest) : bool :=
  isnull (user_id r) && notnull (deleted_account_id r).

Record IdentityCounts : Type := mkIdentityCounts {
  total_rows : nat;
  n_both_present : nat;
  n_both_missing : nat;
  n_user_only : nat;
  n_deleted_only : nat
}.

Definition identity_counts (cash_df : list CashRequest) : IdentityCounts :=
  {| total_rows := List.length cash_df;
     n_both_present := List.length (filter both_present cash_df);
     n_both_missing := List.length (filter both_missing cash_df);
     n_user_only := List.length (filter user_only cash_df);
     n_deleted_only := List.length (filter deleted_only cash_df) |}.

(** ** In[27]: the check of the monetary columns *)

(** [column <= 0] on one value; a comparison with a missing value is
    false. *)
Definition non_positive (a : option Q) : bool :=
  match a with
  | Some x => Qle_bool x 0%Q
  | None => false
  end.

(** [invalid_cash = cash_df[cash_df['amount'] <= 0]] *)
Definition invalid_cash (cash_df : list CleanCash) : list CleanCash :=
  filter (fun r => non_positive (amount (cash r))) cash_df.

(** [invalid_fees = fees_df[fees_df['total_amount'] <= 0]] *)
Definition invalid_fees (fees_df : list Fee) : list Fee :=
  filter (fun f => non_positive (total_amount f)) fees_df.

(** ** In[28]: the order of the columns

    Only the names of the columns are followed; the data of a column
    moves with its name. *)

Definition has_column (cols : list string) (c : string) : bool :=
  existsb (String.eqb c) cols.

(** [df[wanted]]: a [KeyError] when a wanted column is not in the
    table. *)
Definition select_columns (cols wanted : list string)
  : option (list string) :=
  if forallb (has_column cols) wanted then Some wanted else None.

Definition cash_primary_cols : list string :=
  ["id"; "final_user_id"; "amount"; "status"; "transfer_type";
   "reimbursement_date"; "created_at"]%string.

Definition fees_primary_cols : list string :=
  ["id"; "cash_request_id"; "total_amount"; "type"; "status";
   "created_at"]%string.

(** [remaining = [col for col in df.columns if col not in primary]]
    [df = df[primary + remaining]] *)
Definition reorder_columns (primary cols : list string)
  : option (list string) :=
  select_columns cols
    (primary ++ filter (fun c => negb (has_column primary c)) cols).

End CleaningChecks.

Import CleaningChecks.


(* ===================================================================== *)
(** * Notions for the statements about these cells *)
(* ===================================================================== *)

(** The months in which the cash table has a dated request,
    ascending. *)
Definition months_of (cash_df : list CleanCash) : list Period :=
  sorted_unique (dropna (map month_of cash_df)).

(** The requests of a month with, and without, a [recovery_status]. *)
Definition incidents_in (m : Period) (cash_df : list CleanCash) : Z :=
  Z.of_nat
    (List.length
       (filter (fun r => key_eqb (month_of r) (Some m)
                         && notnull (recovery_status (cash r)))
               cash_df)).

Definition others_in (m : Period) (cash_df : list CleanCash) : Z :=
  Z.of_nat
    (List.length
       (filter (fun r => key_eqb (month_of r) (Some m)
                         && isnull (recovery_status (cash r)))
               cash_df)).

(** The long table of incidents per month, written with the two counts
    of each month. *)
Definition trend_rows (incidents others : Period -> Z) (months : list Period)
  : list (Period * string * Z) :=
  flat_map
    (fun m =>
       (if 0 <? incidents m then [(m, "incident"%string, incidents m)]
        else [])
       ++ (if 0 <? others m then [(m, "no_incident"%string, others m)]
           else []))
    months.

(** A fee names a request of the cash table. *)
Definition is_linked (cash_df : list EdaCash) (f : Fee) : bool :=
  isin (cash_request_id f) (map cash_request_id_of cash_df).

(** A request has a fee in the fee table; [has_typed_fee]: one whose
    [type] is filled in. *)
Definition has_fee (fees_df : list Fee) (c : EdaCash) : bool :=
  existsb
    (fun f => key_eqb (Some (cash_request_id_of c)) (cash_request_id f))
    fees_df.

Definition has_typed_fee (fees_df : list Fee) (c : EdaCash) : bool :=
  existsb
    (fun f => key_eqb (Some (cash_request_id_of c)) (cash_request_id f)
              && notnull (fee_type f))
    fees_df.

(** The fees the rows of a merged table carry. *)
Definition merged_fees (merged : list MergedRow) : list Fee :=
  dropna (map snd merged).

(** The fees of a request, and the cohort of a request: the one of its
    user, none for a request without [final_user_id]. *)
Definition fees_of (fees_df : list Fee) (q : EdaCash) : list Fee :=
  filter (fun f => key_eqb (Some (cash_request_id_of q)) (cash_request_id f))
         fees_df.

Definition cohort_of_request (cash_df : list EdaCash) (q : EdaCash)
  : option Period :=
  match cash_final_user_id q with
  | Some u => cohort_year_month (first_request_row cash_df u)
  | None => None
  end.

(** A matrix without the rows and the columns of the partial months. *)
Definition drop_partial {A : Type} (m : DataFrame A) : DataFrame A :=
  map (fun row =>
         (fst row, filter (fun kv => negb (is_partial (fst kv))) (snd row)))
      (filter (fun row => negb (is_partial (fst row))) m).

(* ===================================================================== *)
(** * Sample tables *)
(* ===================================================================== *)

Module Samples.

(** The start of day [d] of a month, in nanoseconds. *)
Definition day (d : Z) : Z := (d - 1) * 86400000000000.

Definition request (i : Z) (user deleted : option Z) (at_ : Timestamp)
  : CashRequest :=
  {| id := i; amount := Some (100 # 1)%Q; status := Some "money_back"%string;
     transfer_type := Some "regular"%string;
     created_at := Some at_; user_id := user; deleted_account_id := deleted;
     recovery_status := None |}.

(** The same request, sent as an instant transfer; gone through
    recovery; without a date. *)
Definition as_instant (r : CashRequest) : CashRequest :=
  {| id := id r; amount := amount r; status := status r;
     transfer_type := Some "instant"%string;
     created_at := created_at r; user_id := user_id r;
     deleted_account_id := deleted_account_id r;
     recovery_status := recovery_status r |}.

Definition as_recovered (r : CashRequest) : CashRequest :=
  {| id := id r; amount := amount r; status := status r;
     transfer_type := transfer_type r;
     created_at := created_at r; user_id := user_id r;
     deleted_account_id := deleted_account_id r;
     recovery_status := Some "completed"%string |}.

Definition undated (r : CashRequest) : CashRequest :=
  {| id := id r; amount := amount r; status := status r;
     transfer_type := transfer_type r;
     created_at := None; user_id := user_id r;
     deleted_account_id := deleted_account_id r;
     recovery_status := recovery_status r |}.

Definition fee (i : Z) (request_id : option Z) (st : string) (value : Q)
  : Fee :=
  {| fee_id := i; fee_type := Some "instant_payment"%string;
     fee_status := Some st; cash_request_id := request_id;
     total_amount := Some value |}.

(** A request with neither [user_id] nor [deleted_account_id]. *)
Definition anonymous_request : CashRequest :=
  request 1 None None (mkTimestamp (ym 2020 2) (day 1)).

(** Request 100, and three fees: one without a cash request, one that
    names a request that does not exist, one linked to request 100. *)
Definition request_100 : CashRequest :=
  request 100 (Some 42) None (mkTimestamp (ym 2020 1) (day 15)).

Definition unlinked_fee : Fee := fee 1 None "cancelled" 5.
Definition orphan_fee : Fee := fee 2 (Some 999) "accepted" 5.
Definition linked_fee : Fee := fee 3 (Some 100) "accepted" 5.

(** The scenario of the specification: user 1 asks on 2020-01-15 and
    on 2020-03-10, user 2 on 2020-02-01. *)
Definition jan_15 : Timestamp := mkTimestamp (ym 2020 1) (day 15).
Definition feb_01 : Timestamp := mkTimestamp (ym 2020 2) (day 1).
Definition mar_10 : Timestamp := mkTimestamp (ym 2020 3) (day 10).

Definition scenario_requests : list CashRequest :=
  [request 11 (Some 1) None mar_10;
   request 12 (Some 1) None jan_15;
   request 13 (Some 2) None feb_01].

Definition scenario_cash : list CleanCash :=
  unify_identity scenario_requests.

Definition scenario_fees : list Fee :=
  [fee 1 (Some 11) "accepted" 5; fee 2 (Some 11) "rejected" 5;
   fee 3 (Some 12) "accepted" (15 # 2); fee 4 (Some 13) "accepted" 5].

End Samples.

Import Samples.

(** Further sample tables. *)
Module MoreSamples.

(** Request 21 appears twice, once under each identity column. *)
Definition repeated_requests : list CashRequest :=
  [request 21 (Some 1) None jan_15;
   request 22 (Some 2) (Some 9) feb_01;
   request 21 (Some 1) None jan_15;
   request 23 None None mar_10].

(** The columns of [cash_df] that script 1 names, with [final_user_id]
    added last as In[21] does. *)
Definition raw_cash_columns : list string :=
  ["id"; "amount"; "status"; "created_at"; "updated_at"; "user_id";
   "moderated_at"; "deleted_account_id"; "reimbursement_date";
   "cash_request_received_date"; "money_back_date"; "transfer_type";
   "send_at"; "recovery_status"; "reco_creation"; "reco_last_update";
   "final_user_id"]%string.

(** A table that starts in November 2019 and ends in November 2020,
    with one request that went through recovery. *)
Definition recovered_request (i : Z) (user : Z) (at_ : Timestamp)
  : CashRequest :=
  {| id := i; amount := Some (50 # 1)%Q; status := Some "money_back"%string;
     transfer_type := Some "instant"%string;
     created_at := Some at_; user_id := Some user; deleted_account_id := None;
     recovery_status := Some "completed"%string |}.

Definition full_year_cash : list CleanCash :=
  unify_identity
    [request 31 (Some 1) None (mkTimestamp (ym 2019 11) (day 19));
     recovered_request 32 1 (mkTimestamp (ym 2020 1) (day 7));
     request 33 (Some 2) None (mkTimestamp (ym 2020 1) (day 9));
     request 34 (Some 2) None (mkTimestamp (ym 2020 11) (day 1))].

(** The raw tables of a year that every cell of the three scripts gets
    through: requests from November 2019 to November 2020, regular and
    instant, one of them gone through recovery, one of them (45) with
    neither [user_id] nor [deleted_account_id]; three fees of the type
    instant_payment, two of them accepted. *)
Definition year_requests : list CashRequest :=
  [request 41 (Some 1) None (mkTimestamp (ym 2019 11) (day 19));
   as_recovered
     (as_instant (request 42 (Some 1) None (mkTimestamp (ym 2020 1) (day 7))));
   request 43 (Some 2) None (mkTimestamp (ym 2020 1) (day 9));
   request 45 None None (mkTimestamp (ym 2020 2) (day 3));
   as_instant (request 44 (Some 2) None (mkTimestamp (ym 2020 11) (day 1)))].

Definition year_fees : list Fee :=
  [fee 1 (Some 42) "accepted" 5; fee 2 (Some 43) "accepted" 5;
   fee 3 (Some 41) "rejected" 5].

(** User 7 has two requests, neither with a date; user 8 has one of
    February 2020.  The fee of request 51 is accepted. *)
Definition undated_requests : list CashRequest :=
  [undated (request 51 (Some 7) None feb_01);
   undated (request 52 (Some 7) None feb_01);
   request 53 (Some 8) None feb_01].

Definition undated_cash : list CleanCash :=
  unify_identity undated_requests.

Definition undated_fees : list Fee := [fee 1 (Some 51) "accepted" 5].


End MoreSamples.

Import MoreSamples.

(* ===================================================================== *)
(** * Facts about the pandas primitives *)
(* ===================================================================== *)

Section PandasFacts.

Lemma In_dropna {A : Type} (a : A) (l : list (option A)) :
  In a (dropna l) <-> In (Some a) l.
Proof.
  induction l as [| [b |] l IH]; simpl.
  - tauto.
  - rewrite IH. split; intros [H | H]; auto; left; congruence.
  - rewrite IH. split; [auto | intros [H | H]; [discriminate | auto]].
Qed.

Lemma key_eqb_Some (k : option Z) (u : Z) :
  key_eqb k (Some u) = true <-> k = Some u.
Proof.
  destruct k as [x |]; simpl.
  - rewrite Z.eqb_eq. split; congruence.
  - split; discriminate.
Qed.

Lemma key_eqb_Some_l (u : Z) (k : option Z) :
  key_eqb (Some u) k = true <-> k = Some u.
Proof.
  destruct k as [x |]; simpl.
  - rewrite Z.eqb_eq. split; congruence.
  - split; discriminate.
Qed.

(** *** Sorted distinct keys *)

Lemma In_insert_unique (z x : Z) (l : list Z) :
  In z (insert_unique x l) <-> z = x \/ In z l.
Proof.
  induction l as [| y l IH]; simpl.
  - intuition.
  - destruct (Z.compare_spec x y) as [E | E | E]; simpl.
    + subst. intuition.
    + intuition.
    + rewrite IH. intuition.
Qed.

Lemma In_sorted_unique (z : Z) (l : list Z) :
  In z (sorted_unique l) <-> In z l.
Proof.
  induction l as [| x l IH]; simpl.
  - tauto.
  - rewrite In_insert_unique, IH. intuition.
Qed.

Lemma insert_unique_sorted (x : Z) (l : list Z) :
  StronglySorted Z.lt l -> StronglySorted Z.lt (insert_unique x l).
Proof.
  induction 1 as [| y l Hs IH Hall]; simpl.
  - repeat constructor.
  - destruct (Z.compare_spec x y) as [E | E | E].
    + constructor; assumption.
    + constructor; [constructor; assumption |].
      constructor; [assumption |].
      rewrite Forall_forall in *. intros z Hz. specialize (Hall z Hz). lia.
    + constructor; [assumption |].
      rewrite Forall_forall in *. intros z Hz.
      apply In_insert_unique in Hz. destruct Hz as [-> | Hz]; auto.
Qed.

Lemma sorted_unique_sorted (l : list Z) :
  StronglySorted Z.lt (sorted_unique l).
Proof.
  induction l as [| x l IH]; simpl.
  - constructor.
  - apply insert_unique_sorted, IH.
Qed.

(** *** Left merge *)

Variables L R : Type.
Variable on : L -> R -> bool.

Lemma In_left_merge (row : L * option R) (left : list L) (right : list R) :
  In row (left_merge on left right) <->
  In (fst row) left /\
  match snd row with
  | Some r => In r right /\ on (fst row) r = true
  | None => forall r, In r right -> on (fst row) r = false
  end.
Proof.
  unfold left_merge. rewrite in_flat_map. destruct row as [l o]. simpl.
  split.
  - intros [l' [Hl' Hin]].
    destruct (filter (on l') right) as [| r0 ms] eqn:Hf.
    + destruct Hin as [Heq | []]. inversion Heq; subst. split; [assumption |].
      intros r Hr. destruct (on l r) eqn:Hon; [| reflexivity].
      assert (In r (filter (on l) right)) as Hbad
          by (apply filter_In; auto).
      rewrite Hf in Hbad. destruct Hbad.
    + change (In (l, o) (map (fun r => (l', Some r)) (r0 :: ms))) in Hin.
      apply in_map_iff in Hin. destruct Hin as [r [Heq Hr]].
      inversion Heq; subst. split; [assumption |].
      rewrite <- Hf in Hr. apply filter_In in Hr. assumption.
  - intros [Hl Ho]. exists l. split; [assumption |].
    destruct o as [r |].
    + destruct Ho as [Hr Hon].
      assert (In r (filter (on l) right)) as Hin by (apply filter_In; auto).
      destruct (filter (on l) right) as [| r0 ms]; [destruct Hin |].
      change (In (l, Some r) (map (fun r => (l, Some r)) (r0 :: ms))).
      apply in_map_iff. exists r. auto.
    + destruct (filter (on l) right) as [| r0 ms] eqn:Hf; [left; reflexivity |].
      assert (In r0 (filter (on l) right)) as Hin by (rewrite Hf; left; reflexivity).
      apply filter_In in Hin. destruct Hin as [Hr Hon].
      rewrite (Ho r0 Hr) in Hon. discriminate.
Qed.

(** Every left row survives a left merge. *)
Lemma left_merge_keeps (l : L) (left : list L) (right : list R) :
  In l left -> exists o, In (l, o) (left_merge on left right).
Proof.
  intros Hl. unfold left_merge.
  destruct (filter (on l) right) as [| r0 ms] eqn:Hf.
  - exists None. apply in_flat_map. exists l. rewrite Hf. simpl. auto.
  - exists (Some r0). apply in_flat_map. exists l. rewrite Hf. simpl. auto.
Qed.

Lemma left_merge_length (left : list L) (right : list R) :
  (List.length left <= List.length (left_merge on left right))%nat.
Proof.
  unfold left_merge. induction left as [| l left IH]; simpl; [lia |].
  rewrite length_app.
  destruct (filter (on l) right) as [| r0 ms]; simpl List.length in *; lia.
Qed.

End PandasFacts.

(* ===================================================================== *)
(** * Script 1: identity unification and fee links *)
(* ===================================================================== *)

(** C2.  For every cash request, [final_user_id] is [user_id] when that
    is not null and [deleted_account_id] otherwise; on a row carrying both
    identities, [user_id] is kept and [deleted_account_id] is set to null,
    and [final_user_id] is computed from the row as corrected. *)
Theorem final_user_id_prefers_user_id (cash_df : list CashRequest) :
  Forall2
    (fun raw out =>
       final_user_id out =
         match user_id raw with
         | Some u => Some u
         | None => deleted_account_id raw
         end
       /\ user_id (cash out) = user_id raw
       /\ deleted_account_id (cash out) =
            match user_id raw, deleted_account_id raw with
            | Some _, Some _ => None
            | _, d => d
            end
       /\ final_user_id out =
            fillna (user_id (cash out)) (deleted_account_id (cash out)))
    cash_df (unify_identity cash_df).
Proof.
  unfold unify_identity.
  induction cash_df as [| raw cash_df IH]; simpl; constructor; [| exact IH].
  unfold add_final_user_id, nullify_deleted_account_id, both_present.
  destruct raw as [i a s tr c u d r]; simpl.
  destruct u as [u |], d as [d |]; simpl; repeat split; reflexivity.
Qed.

(** ** The runs of the scripts *)

Lemma bind_Finished {Report A B : Type} (m : Run Report A)
    (k : A -> Run Report B) (out : list Report) (b : B) :
  bind m k = Finished out b ->
  exists o1 a o2, m = Finished o1 a /\ k a = Finished o2 b /\ out = o1 ++ o2.
Proof.
  unfold bind. destruct m as [o1 a | o1 why]; [| discriminate].
  destruct (k a) as [o2 b' | o2 why] eqn:Ek; [| discriminate].
  intros H. injection H as <- <-. exists o1, a, o2. auto.
Qed.

Lemma printed_bind {Report A B : Type} (m : Run Report A)
    (k : A -> Run Report B) :
  printed (bind m k) =
    printed m ++ match m with
                 | Finished _ a => printed (k a)
                 | Halted _ _ => []
                 end.
Proof.
  unfold bind. destruct m as [o1 a | o1 why]; simpl.
  - destruct (k a); reflexivity.
  - symmetry. apply app_nil_r.
Qed.

Lemma printed_relabel {R R' A : Type} (f : R -> R') (m : Run R A) :
  printed (relabel f m) = map f (printed m).
Proof. destruct m; reflexivity. Qed.

(** In[10] rewrites the dates and In[26] the categories; neither touches
    an id. *)
Lemma final_user_id_parse_dates (cash_df : list CashRequest) :
  map final_user_id (unify_identity (map parse_dates cash_df))
  = map final_user_id (unify_identity cash_df).
Proof.
  unfold unify_identity. rewrite !map_map. apply map_ext. intros r.
  unfold add_final_user_id, nullify_deleted_account_id, both_present,
    parse_dates.
  destruct r as [i a s tr c [u |] [d |] rs]; reflexivity.
Qed.

Lemma missing_final_ids_column (cash_df : list CleanCash) :
  missing_final_ids cash_df
  = List.length (filter (fun k : option Z => isnull k)
                        (map final_user_id cash_df)).
Proof.
  unfold missing_final_ids.
  induction cash_df as [| r cash_df IH]; [reflexivity |].
  cbn [map filter]. destruct (isnull (final_user_id r)); cbn [List.length];
    rewrite IH; reflexivity.
Qed.

Lemma missing_final_ids_parse_dates (cash_df : list CashRequest) :
  missing_final_ids (unify_identity (map parse_dates cash_df))
  = missing_final_ids (unify_identity cash_df).
Proof.
  rewrite !missing_final_ids_column, final_user_id_parse_dates. reflexivity.
Qed.

Lemma valid_cash_ids_parse_dates (cash_df : list CashRequest) :
  valid_cash_ids (unify_identity (map parse_dates cash_df))
  = valid_cash_ids (unify_identity cash_df).
Proof.
  unfold valid_cash_ids, unify_identity. rewrite !map_map. apply map_ext.
  intros r.
  unfold add_final_user_id, nullify_deleted_account_id, both_present,
    parse_dates.
  destruct r as [i a s tr c [u |] [d |] rs]; reflexivity.
Qed.

Lemma unmatched_ids_parse_dates (cash_df : list CashRequest)
    (fees_df : list Fee) :
  unmatched_ids (unify_identity (map parse_dates cash_df)) fees_df
  = unmatched_ids (unify_identity cash_df) fees_df.
Proof. unfold unmatched_ids. rewrite valid_cash_ids_parse_dates. reflexivity. Qed.

Lemma missing_final_ids_cleaned (cash_df : list CleanCash) :
  missing_final_ids (map clean_cash_row cash_df) = missing_final_ids cash_df.
Proof.
  rewrite !missing_final_ids_column, map_map. reflexivity.
Qed.

Lemma valid_cash_ids_cleaned (cash_df : list CleanCash) :
  valid_cash_ids (map clean_cash_row cash_df) = valid_cash_ids cash_df.
Proof. unfold valid_cash_ids. rewrite map_map. reflexivity. Qed.

(** Script 1 runs to its end whenever both input files exist, whatever
    they hold, and prints the number of rows without identity. *)
Lemma cleaning_script_finishes (cash_df : list CashRequest) (fees_df : list Fee) :
  exists out,
    Cleaning.script (Some cash_df) (Some fees_df) =
      Finished out
        {| clean_cash_requests :=
             map clean_cash_row (unify_identity (map parse_dates cash_df));
           clean_fees :=
             map clean_fee_categoricals
                 (drop_missing_cash_request_id fees_df) |}
    /\ In (MissingFinalIds (missing_final_ids (unify_identity cash_df))) out
    /\ In (UnmatchedCashRequestIds
             (nunique (map cash_request_id
                           (unmatched_ids (unify_identity cash_df) fees_df)))
             (List.length (unmatched_ids (unify_identity cash_df) fees_df)))
          out.
Proof.
  unfold Cleaning.script, read_csv, safe_print, ret, bind.
  rewrite unmatched_ids_parse_dates, missing_final_ids_parse_dates.
  destruct (0 <? missing_final_ids (unify_identity cash_df))%nat;
    destruct (unmatched_ids (unify_identity cash_df) fees_df);
    eexists; (split; [reflexivity |]); simpl; auto 10.
Qed.

(** The tables script 2 saves, when it gets to its last cell. *)
Lemma eda_script_tables (cash_df : list CleanCash) (fees_df : list Fee)
    (out : list Eda.Report) (eda : Outputs) :
  Eda.script (Some cash_df) (Some fees_df) = Finished out eda ->
  merged_cash_fee eda
    = merged_df (map add_eda_columns (map read_cash_row cash_df))
                (map read_fee_row fees_df)
  /\ user_first_request_csv eda
     = user_first_request (map add_eda_columns (map read_cash_row cash_df)).
Proof.
  unfold Eda.script. intros H.
  repeat (apply bind_Finished in H;
          destruct H as (? & ? & ? & ? & H & ?); cbv beta zeta in H).
  unfold ret in H. injection H as _ <-.
  repeat match goal with
         | E : read_csv _ (Some _) = Finished _ _ |- _ =>
             cbv beta iota delta [read_csv] in E; injection E as _ <-
         end.
  split; reflexivity.
Qed.

(** Script 3 prints the number of rows without a cohort before any of
    its charts. *)
Lemma cohort_script_validation (users : list UserFirstRequest)
    (active : list (Period * nat)) (shares : list TransferShare)
    (merged : list MergedRow) :
  In (MissingCohortRows
        (missing_cohort_rows (merged_cash_fee_cohort merged users)))
     (printed (CohortMetrics.script (Some users) (Some active) (Some shares)
                                    (Some merged))).
Proof.
  unfold CohortMetrics.script.
  rewrite !printed_bind. cbn [read_csv printed app].
  rewrite !printed_bind. cbn [safe_print printed app]. left. reflexivity.
Qed.


(** The pipeline, from the end of script 2 on: the cohorts are merged
    in and the rows without a cohort are counted and printed. *)
Lemma pipeline_reaches_validation (cash_df : list CashRequest)
    (fees_df : list Fee) (out2 : list Eda.Report) (eda : Outputs) :
  Eda.script
    (Some (map clean_cash_row (unify_identity (map parse_dates cash_df))))
    (Some (map clean_fee_categoricals (drop_missing_cash_request_id fees_df)))
    = Finished out2 eda ->
  In (FromCleaning
        (MissingFinalIds (missing_final_ids (unify_identity cash_df))))
     (printed (pipeline (Some cash_df) (Some fees_df)))
  /\ In (FromCohortMetrics
           (MissingCohortRows
              (missing_cohort_rows
                 (merged_cash_fee_cohort (merged_cash_fee eda)
                                         (user_first_request_csv eda)))))
        (printed (pipeline (Some cash_df) (Some fees_df))).
Proof.
  intros E2. unfold pipeline.
  destruct (cleaning_script_finishes cash_df fees_df) as [o1 [E1 [M1 _]]].
  rewrite E1. rewrite printed_bind. cbn [relabel printed].
  cbn [clean_cash_requests clean_fees]. rewrite E2.
  rewrite printed_bind. cbn [relabel printed]. rewrite printed_relabel.
  split.
  - apply in_or_app. left. apply in_map. exact M1.
  - apply in_or_app. right. apply in_or_app. right. apply in_map.
    apply cohort_script_validation.
Qed.

(** A left merge keeps every left row at least once. *)
Lemma left_merge_keeps_count {L R : Type} (on : L -> R -> bool)
    (p : L -> bool) (left : list L) (right : list R) :
  (List.length (filter p left)
   <= List.length (filter (fun row => p (fst row))
                          (left_merge on left right)))%nat.
Proof.
  unfold left_merge. induction left as [| l left IH]; [apply Nat.le_refl |].
  cbn [flat_map filter]. rewrite filter_app, length_app.
  destruct (p l) eqn:Hp; [| lia].
  change (List.length (l :: filter p left))
    with (S (List.length (filter p left))).
  match goal with
  | |- (_ <= _ + ?n)%nat => set (rest := n) in *
  end.
  destruct (filter (on l) right) as [| r ms];
    simpl; rewrite Hp; simpl; lia.
Qed.

Lemma filter_length_implied {A : Type} (p q : A -> bool) (l : list A) :
  (forall x, In x l -> p x = true -> q x = true) ->
  (List.length (filter p l) <= List.length (filter q l))%nat.
Proof.
  induction l as [| x l IH]; intros H; [apply Nat.le_refl |].
  cbn [filter].
  assert (IH' := IH (fun y Hy => H y (or_intror Hy))).
  destruct (p x) eqn:Hp.
  - rewrite (H x (or_introl eq_refl) Hp). cbn [List.length]. lia.
  - destruct (q x); cbn [List.length]; lia.
Qed.

Lemma filter_map_commute {A B : Type} (f : A -> B) (p : B -> bool)
    (l : list A) :
  filter p (map f l) = map f (filter (fun a => p (f a)) l).
Proof.
  induction l as [| a l IH]; simpl; [reflexivity |].
  destruct (p (f a)); simpl; rewrite IH; reflexivity.
Qed.

(** A row without identity gets no cohort: [groupby] left its null key
    out of [user_first_request], so the left merge finds no partner. *)
Lemma null_user_has_no_cohort (merged : list MergedRow)
    (cash_df : list EdaCash) (r : CohortRow) :
  In r (merged_cash_fee_cohort merged (user_first_request cash_df)) ->
  row_final_user_id r = None ->
  row_cohort_month r = None /\ row_cohort_year_month r = None.
Proof.
  unfold merged_cash_fee_cohort. intros Hin Hnull.
  apply In_left_merge in Hin. destruct Hin as [_ Hsnd].
  unfold row_cohort_month, row_cohort_year_month.
  destruct r as [m [u |]]; simpl in *; [| auto].
  unfold row_final_user_id in Hnull. simpl in Hnull.
  destruct Hsnd as [_ Hon]. rewrite Hnull in Hon. discriminate.
Qed.

(** C3, as stated, fails.  The tables of [year_requests] and [year_fees]
    get through every cell of the three scripts; request 45 has no
    identity, so the count of null [final_user_id] is 1; the pipeline does
    not halt: it prints the count, reaches the cohort join with the row,
    prints the count of rows without a cohort, and finishes. *)
Lemma missing_final_user_id_does_not_halt :
  missing_final_ids (unify_identity year_requests) = 1%nat
  /\ exists out m,
       pipeline (Some year_requests) (Some year_fees) = Finished out m
       /\ In (FromCleaning (MissingFinalIds 1)) out
       /\ In (FromCohortMetrics (MissingCohortRows 1)) out
       /\ exists r, In r (out_merged_cash_fee_cohort m)
                    /\ row_final_user_id r = None
                    /\ cash_request_id_of (fst (fst r)) = 45.
Proof.
  split; [reflexivity |].
  eexists. eexists. split; [vm_compute; reflexivity |].
  split; [simpl; auto 10 |]. split; [simpl; auto 20 |].
  eexists. split; [do 3 right; left; reflexivity | split; reflexivity].
Qed.

(** C3, amended.  After identity unification the number of rows with a
    null [final_user_id] is printed and script 1 runs to its end,
    whatever the number.  No later cell reads it: whenever script 2 gets
    to its last cell, the cohort join of script 3 is reached with these
    rows; each of them is given no cohort and is counted by the
    missing-cohort check, whose count is printed as well. *)
Theorem missing_final_user_id_is_reported (cash_df : list CashRequest)
    (fees_df : list Fee) :
  exists out cleaned,
    Cleaning.script (Some cash_df) (Some fees_df) = Finished out cleaned
    /\ In (MissingFinalIds (missing_final_ids (unify_identity cash_df))) out
    /\ missing_final_ids (clean_cash_requests cleaned)
       = missing_final_ids (unify_identity cash_df)
    /\ forall out2 eda,
         Eda.script (Some (clean_cash_requests cleaned))
                    (Some (clean_fees cleaned)) = Finished out2 eda ->
         let df := merged_cash_fee_cohort (merged_cash_fee eda)
                                          (user_first_request_csv eda) in
         In (FromCohortMetrics (MissingCohortRows (missing_cohort_rows df)))
            (printed (pipeline (Some cash_df) (Some fees_df)))
         /\ (missing_final_ids (clean_cash_requests cleaned)
             <= missing_cohort_rows df)%nat
         /\ Forall
              (fun r =>
                 match row_final_user_id r with
                 | None =>
                     row_cohort_month r = None
                     /\ row_cohort_year_month r = None
                 | Some _ => True
                 end)
              df.
Proof.
  destruct (cleaning_script_finishes cash_df fees_df) as [out [E [M1 _]]].
  exists out. eexists. split; [exact E |]. split; [exact M1 |].
  cbn [clean_cash_requests clean_fees].
  split; [rewrite missing_final_ids_cleaned;
          apply missing_final_ids_parse_dates |].
  intros out2 eda E2.
  destruct (pipeline_reaches_validation cash_df fees_df E2) as [_ M3].
  destruct (eda_script_tables _ _ E2) as [Hm Hu].
  cbv zeta. split; [exact M3 |].
  rewrite Hm, Hu.
  set (eda_cash := map add_eda_columns _).
  assert (Hnull : forall r,
             In r (merged_cash_fee_cohort
                     (merged_df eda_cash
                        (map read_fee_row
                           (map clean_fee_categoricals
                              (drop_missing_cash_request_id fees_df))))
                     (user_first_request eda_cash)) ->
             row_final_user_id r = None ->
             row_cohort_month r = None /\ row_cohort_year_month r = None).
  { intros r Hr Hn. eapply null_user_has_no_cohort; eauto. }
  split.
  - unfold missing_cohort_rows.
    eapply Nat.le_trans;
      [| apply (@filter_length_implied _
                  (fun r => isnull (row_final_user_id r)))].
    + unfold merged_cash_fee_cohort, row_final_user_id.
      eapply Nat.le_trans;
        [| apply (@left_merge_keeps_count _ _ _
                    (fun m : MergedRow =>
                       isnull (cash_final_user_id (fst m))))].
      unfold merged_df.
      eapply Nat.le_trans;
        [| apply (@left_merge_keeps_count _ _ _
                    (fun c : EdaCash => isnull (cash_final_user_id c)))].
      unfold eda_cash, missing_final_ids.
      rewrite !map_map, !filter_map_commute, !length_map.
      apply Nat.le_refl.
    + intros r Hr Hn. destruct (row_final_user_id r) eqn:Hu'; [discriminate |].
      destruct (Hnull r Hr Hu') as [Hc _]. rewrite Hc. reflexivity.
  - apply Forall_forall. intros r Hr.
    destruct (row_final_user_id r) eqn:Hu'; [exact I |].
    apply Hnull; assumption.
Qed.

(** C4, as stated, fails: a fee whose [cash_request_id] is 999, while the
    only cash request has id 100, is listed by the unmatched-id check but
    is still in the cleaned fee table. *)
Lemma unmatched_fee_is_retained :
  exists out cleaned,
    Cleaning.script (Some [request_100])
                    (Some [unlinked_fee; orphan_fee; linked_fee])
      = Finished out cleaned
    /\ In orphan_fee (clean_fees cleaned)
    /\ cash_request_id orphan_fee = Some 999
    /\ isin (cash_request_id orphan_fee)
            (valid_cash_ids (clean_cash_requests cleaned)) = false
    /\ In (UnmatchedCashRequestIds 1 2) out.
Proof.
  eexists. eexists. split; [vm_compute; reflexivity |].
  repeat split; simpl; auto 10.
Qed.

(** C4, amended.  After cleaning, every retained fee has a non-null
    [cash_request_id]; the fees dropped are exactly those whose
    [cash_request_id] is null, and the others are kept in their order,
    with the categories as In[26] rewrites them.  A fee whose non-null
    [cash_request_id] matches no cash request is counted by the
    unmatched-id check, which prints, and is retained. *)
Theorem fees_without_cash_request_id_are_dropped (cash_df : list CashRequest)
    (fees_df : list Fee) :
  exists out cleaned,
    Cleaning.script (Some cash_df) (Some fees_df) = Finished out cleaned
    /\ Forall (fun f => cash_request_id f <> None) (clean_fees cleaned)
    /\ clean_fees cleaned
       = map clean_fee_categoricals
             (filter (fun f => notnull (cash_request_id f)) fees_df)
    /\ (forall f, In f fees_df ->
                  (In (clean_fee_categoricals f) (clean_fees cleaned) <->
                   cash_request_id f <> None))
    /\ (forall f, In f (unmatched_ids (clean_cash_requests cleaned) fees_df) <->
                  (In f fees_df
                   /\ isin (cash_request_id f)
                           (valid_cash_ids (clean_cash_requests cleaned))
                      = false))
    /\ In (UnmatchedCashRequestIds
             (nunique (map cash_request_id
                (unmatched_ids (clean_cash_requests cleaned) fees_df)))
             (List.length
                (unmatched_ids (clean_cash_requests cleaned) fees_df)))
          out.
Proof.
  destruct (cleaning_script_finishes cash_df fees_df) as [out [E [_ M]]].
  exists out. eexists. split; [exact E |].
  cbn [clean_fees clean_cash_requests].
  assert (Hids : unmatched_ids
                   (map clean_cash_row
                        (unify_identity (map parse_dates cash_df))) fees_df
                 = unmatched_ids (unify_identity cash_df) fees_df).
  { unfold unmatched_ids.
    rewrite valid_cash_ids_cleaned, valid_cash_ids_parse_dates. reflexivity. }
  assert (forall f, In f (drop_missing_cash_request_id fees_df) <->
                    In f fees_df /\ cash_request_id f <> None) as Hdrop.
  { intros f. unfold drop_missing_cash_request_id. rewrite filter_In.
    unfold notnull, isnull.
    destruct (cash_request_id f); simpl; intuition congruence. }
  split; [| split; [reflexivity | split; [| split]]].
  - apply Forall_forall. intros f Hf. apply in_map_iff in Hf.
    destruct Hf as [g [<- Hg]]. apply Hdrop in Hg. exact (proj2 Hg).
  - intros f Hf. split.
    + intros Hin. apply in_map_iff in Hin. destruct Hin as [g [Hg Hin]].
      apply Hdrop in Hin. destruct Hin as [_ Hk].
      assert (Ek : cash_request_id g = cash_request_id f).
      { change (cash_request_id (clean_fee_categoricals g)
                = cash_request_id (clean_fee_categoricals f)).
        rewrite Hg. reflexivity. }
      rewrite <- Ek. exact Hk.
    + intros Hk. apply in_map. apply Hdrop. split; assumption.
  - intros f. unfold unmatched_ids. rewrite filter_In, negb_true_iff. tauto.
  - rewrite Hids. exact M.
Qed.


(* ===================================================================== *)
(** * Script 2: the left join keeps every cash request *)
(* ===================================================================== *)

(** Two strictly ascending lists with the same elements are equal. *)
Lemma strictly_sorted_ext (l1 l2 : list Z) :
  StronglySorted Z.lt l1 -> StronglySorted Z.lt l2 ->
  (forall z, In z l1 <-> In z l2) -> l1 = l2.
Proof.
  intros H1. revert l2.
  induction H1 as [| x l1 Hs1 IH Hall1]; intros l2 H2 Hext.
  - destruct l2 as [| y l2]; [reflexivity |].
    destruct (proj2 (Hext y) (or_introl eq_refl)).
  - destruct H2 as [| y l2 Hs2 Hall2].
    + destruct (proj1 (Hext x) (or_introl eq_refl)).
    + rewrite Forall_forall in Hall1, Hall2.
      assert (x = y) as ->.
      { destruct (proj1 (Hext x) (or_introl eq_refl)) as [E | Hx]; [auto |].
        destruct (proj2 (Hext y) (or_introl eq_refl)) as [E | Hy]; [auto |].
        specialize (Hall1 y Hy). specialize (Hall2 x Hx). lia. }
      f_equal. apply IH; [assumption |].
      intros z. split; intros Hz.
      * destruct (proj1 (Hext z) (or_intror Hz)) as [E | Hz']; [| assumption].
        specialize (Hall1 z Hz). lia.
      * destruct (proj2 (Hext z) (or_intror Hz)) as [E | Hz']; [| assumption].
        specialize (Hall2 z Hz). lia.
Qed.

(** The sorted distinct keys of a column depend only on which values the
    column holds. *)
Lemma sorted_unique_ext (l1 l2 : list Z) :
  (forall z, In z l1 <-> In z l2) -> sorted_unique l1 = sorted_unique l2.
Proof.
  intros Hext. apply strictly_sorted_ext; try apply sorted_unique_sorted.
  intros z. rewrite !In_sorted_unique. apply Hext.
Qed.

(** C6.  The left join of the cash requests with the fees loses no
    request: the joined table has as many distinct request ids as the
    cash table, and at least as many rows. *)
Theorem merged_df_keeps_every_cash_request (cash_df : list EdaCash)
    (fees_df : list Fee) :
  total_cash_requests (merged_df cash_df fees_df)
    = nunique (map (fun c => Some (cash_request_id_of c)) cash_df)
  /\ (List.length cash_df <= List.length (merged_df cash_df fees_df))%nat.
Proof.
  split; [| apply left_merge_length].
  unfold total_cash_requests, nunique. f_equal.
  apply sorted_unique_ext. intros z.
  rewrite !In_dropna, !in_map_iff. split.
  - intros [[c o] [Hz Hin]]. simpl in Hz.
    apply In_left_merge in Hin. simpl in Hin.
    exists c. tauto.
  - intros [c [Hz Hin]].
    destruct (left_merge_keeps
                (fun c f => key_eqb (Some (cash_request_id_of c))
                                    (cash_request_id f))
                c cash_df fees_df Hin) as [o Ho].
    exists (c, o). auto.
Qed.

(* ===================================================================== *)
(** * Cohort assignment *)
(* ===================================================================== *)

Lemma ts_leb_le (a b : Timestamp) : ts_leb a b = true <-> ts_le a b.
Proof.
  unfold ts_leb, ts_le.
  rewrite orb_true_iff, andb_true_iff, Z.ltb_lt, Z.eqb_eq, Z.leb_le.
  tauto.
Qed.

Lemma ts_le_refl (a : Timestamp) : ts_le a a.
Proof. unfold ts_le. lia. Qed.

Lemma ts_le_trans (a b c : Timestamp) : ts_le a b -> ts_le b c -> ts_le a c.
Proof. unfold ts_le. lia. Qed.

Lemma ts_le_total (a b : Timestamp) : ts_le a b \/ ts_le b a.
Proof. unfold ts_le. lia. Qed.

Lemma ts_le_antisym (a b : Timestamp) : ts_le a b -> ts_le b a -> a = b.
Proof.
  destruct a as [ma ra], b as [mb rb]. unfold ts_le. simpl.
  intros H1 H2. f_equal; lia.
Qed.

(** [to_period('M')] is monotone. *)
Lemma to_period_M_mono (a b : Timestamp) :
  ts_le a b -> to_period_M a <= to_period_M b.
Proof. unfold ts_le, to_period_M. lia. Qed.

Lemma ts_min_cases (a b : Timestamp) :
  (ts_min a b = a /\ ts_le a b) \/ (ts_min a b = b /\ ts_le b a).
Proof.
  unfold ts_min. destruct (ts_leb a b) eqn:E.
  - left. split; [reflexivity | apply ts_leb_le, E].
  - right. split; [reflexivity |].
    destruct (ts_le_total a b) as [H | H]; [| exact H].
    apply ts_leb_le in H. congruence.
Qed.

(** [min()] returns a value of the column that no other value
    precedes, and finds one unless the column is empty. *)
Lemma series_min_Some (l : list Timestamp) (m : Timestamp) :
  series_min l = Some m -> In m l /\ forall t, In t l -> ts_le m t.
Proof.
  revert m. induction l as [| t0 l IH]; simpl; intros m Hm; [discriminate |].
  destruct (series_min l) as [m' |] eqn:E.
  - destruct (IH m' eq_refl) as [Hin Hle]. injection Hm as <-.
    destruct (ts_min_cases t0 m') as [[-> H] | [-> H]].
    + split; [auto |]. intros t [<- | Ht].
      * apply ts_le_refl.
      * eapply ts_le_trans; [exact H | auto].
    + split; [auto |]. intros t [<- | Ht]; [exact H | auto].
  - injection Hm as <-. split; [auto |].
    destruct l as [| t1 l]; [| simpl in E; destruct (series_min l); discriminate].
    intros t [<- | []]. apply ts_le_refl.
Qed.

Lemma series_min_None (l : list Timestamp) : series_min l = None -> l = [].
Proof.
  destruct l as [| t l]; simpl; [reflexivity |].
  destruct (series_min l); discriminate.
Qed.

Lemma In_requests_of (c : EdaCash) (u : Z) (cash_df : list EdaCash) :
  In c (requests_of u cash_df) <->
  In c cash_df /\ cash_final_user_id c = Some u.
Proof.
  unfold requests_of. rewrite filter_In, key_eqb_Some. tauto.
Qed.

(** ** Dates pandas can hold *)

Lemma to_datetime_Some (v : option Timestamp) (t : Timestamp) :
  to_datetime v = Some t <-> v = Some t /\ in_bounds t = true.
Proof.
  unfold to_datetime. destruct v as [d |]; [| intuition discriminate].
  destruct (in_bounds d) eqn:E; split.
  - intros H. injection H as <-. auto.
  - intros [H _]. exact H.
  - discriminate.
  - intros [H Hb]. injection H as ->. congruence.
Qed.

Lemma to_datetime_idem (v : option Timestamp) :
  to_datetime (to_datetime v) = to_datetime v.
Proof.
  unfold to_datetime. destruct v as [d |]; [| reflexivity].
  destruct (in_bounds d) eqn:E; [rewrite E |]; reflexivity.
Qed.

(** A date pandas holds falls in a month from 1677-09 to 2262-04; its
    month is never written ['NaT']. *)
Lemma in_bounds_month (t : Timestamp) :
  in_bounds t = true -> ym 1677 9 <= to_period_M t <= ym 2262 4.
Proof.
  unfold in_bounds. rewrite andb_true_iff.
  unfold ts_leb, timestamp_min, timestamp_max, to_period_M. cbn [ts_month ts_rest].
  rewrite !orb_true_iff, !andb_true_iff, !Z.ltb_lt, !Z.eqb_eq. lia.
Qed.

Lemma month_is_not_NaT_text (v : option Timestamp) (t : Timestamp) :
  to_datetime v = Some t -> to_period_M t < NaT_text.
Proof.
  intros H. apply to_datetime_Some in H. destruct H as [_ H].
  apply in_bounds_month in H. unfold NaT_text, ym in *. lia.
Qed.

Lemma request_date_add_eda_columns (r : CleanCash) :
  request_date (add_eda_columns r) = to_datetime (created_at (cash r)).
Proof. unfold request_date, add_eda_columns. cbn [cash_created_at]. apply to_datetime_idem. Qed.

Lemma year_month_add_eda_columns (r : CleanCash) :
  year_month (add_eda_columns r)
  = option_map to_period_M (request_date (add_eda_columns r)).
Proof. rewrite request_date_add_eda_columns. reflexivity. Qed.

(** The dates of the requests of a user. *)
Lemma In_dated_requests (t : Timestamp) (u : Z) (cash_df : list EdaCash) :
  In t (dropna (map request_date (requests_of u cash_df))) <->
  exists c, In c cash_df /\ cash_final_user_id c = Some u
            /\ request_date c = Some t.
Proof.
  rewrite In_dropna, in_map_iff. split.
  - intros [c [Hc Hin]]. apply In_requests_of in Hin. exists c. tauto.
  - intros [c [Hin [Hu Hc]]]. exists c. split; [exact Hc |].
    apply In_requests_of. auto.
Qed.

(** The minimum the code computes is the minimum of the statement. *)
Lemma series_min_is_first_request_date (cash_df : list EdaCash) (u : Z)
    (first : Timestamp) :
  series_min (dropna (map request_date (requests_of u cash_df))) = Some first
  <-> is_first_request_date first u cash_df.
Proof.
  split.
  - intros Hmin. apply series_min_Some in Hmin. destruct Hmin as [Hin Hle].
    apply In_dated_requests in Hin. split; [exact Hin |].
    intros c t Hc Hu Ht. apply Hle. apply In_dated_requests. eauto.
  - intros [[c [Hc [Hu Hat]]] Hle].
    assert (In first (dropna (map request_date (requests_of u cash_df))))
      as Hreq by (apply In_dated_requests; eauto).
    destruct (series_min (dropna (map request_date (requests_of u cash_df))))
      as [m |] eqn:E.
    + f_equal. apply series_min_Some in E. destruct E as [Hin Hmin].
      apply In_dated_requests in Hin. destruct Hin as [c' [Hc' [Hu' Ht']]].
      apply ts_le_antisym.
      * apply Hmin. exact Hreq.
      * apply (Hle c'); assumption.
    + apply series_min_None in E. rewrite E in Hreq. destruct Hreq.
Qed.

(** A user with a dated request has a first request; a user without one
    has none. *)
Lemma first_request_exists (cash_df : list EdaCash) (u : Z) :
  has_dated_request u cash_df ->
  exists first, is_first_request_date first u cash_df.
Proof.
  intros [c [t [Hc [Hu Ht]]]].
  assert (In t (dropna (map request_date (requests_of u cash_df))))
    as Hreq by (apply In_dated_requests; eauto).
  destruct (series_min (dropna (map request_date (requests_of u cash_df))))
    as [first |] eqn:E.
  - exists first. apply series_min_is_first_request_date. exact E.
  - apply series_min_None in E. rewrite E in Hreq. destruct Hreq.
Qed.

Lemma no_first_request (cash_df : list EdaCash) (u : Z) :
  ~ has_dated_request u cash_df ->
  series_min (dropna (map request_date (requests_of u cash_df))) = None.
Proof.
  intros Hno.
  destruct (series_min (dropna (map request_date (requests_of u cash_df))))
    as [first |] eqn:E; [| reflexivity].
  exfalso. apply Hno. apply series_min_Some in E. destruct E as [Hin _].
  apply In_dated_requests in Hin. destruct Hin as [c H]. exists c, first.
  exact H.
Qed.

(** The row of [user_first_request] of a user, by cases. *)
Lemma first_request_row_dated (cash_df : list EdaCash) (u : Z)
    (first : Timestamp) :
  is_first_request_date first u cash_df ->
  first_request_row cash_df u
  = {| ufr_final_user_id := u;
       first_request_date := Some first;
       cohort_month := Some (to_period_M first);
       cohort_year_month := Some (to_period_M first) |}.
Proof.
  intros H. apply series_min_is_first_request_date in H.
  unfold first_request_row. rewrite H. reflexivity.
Qed.

Lemma first_request_row_undated (cash_df : list EdaCash) (u : Z) :
  ~ has_dated_request u cash_df ->
  first_request_row cash_df u
  = {| ufr_final_user_id := u;
       first_request_date := None;
       cohort_month := None;
       cohort_year_month := Some NaT_text |}.
Proof.
  intros H. apply no_first_request in H.
  unfold first_request_row. rewrite H. reflexivity.
Qed.

(** The first date of a user is a date pandas holds. *)
Lemma first_request_in_bounds (cash_df : list EdaCash) (u : Z)
    (first : Timestamp) :
  is_first_request_date first u cash_df -> to_period_M first < NaT_text.
Proof.
  intros [[c [_ [_ Hc]]] _]. unfold request_date in Hc.
  eapply month_is_not_NaT_text. exact Hc.
Qed.

Lemma In_user_first_request (row : UserFirstRequest) (cash_df : list EdaCash) :
  In row (user_first_request cash_df) <->
  exists u, In (Some u) (map cash_final_user_id cash_df)
            /\ row = first_request_row cash_df u.
Proof.
  unfold user_first_request. rewrite in_map_iff. split.
  - intros [u [E Hu]]. apply In_sorted_unique, In_dropna in Hu. eauto.
  - intros [u [Hu E]]. exists u. split; [auto |].
    apply In_sorted_unique, In_dropna. exact Hu.
Qed.

(** After the cohort merge, a row of a user the cash table knows carries
    that user's row of [user_first_request]. *)
Lemma cohort_columns_of_known_user (merged : list MergedRow)
    (cash_df : list EdaCash) (r : CohortRow) (u : Z) :
  In r (merged_cash_fee_cohort merged (user_first_request cash_df)) ->
  row_final_user_id r = Some u ->
  In (Some u) (map cash_final_user_id cash_df) ->
  snd r = Some (first_request_row cash_df u).
Proof.
  unfold merged_cash_fee_cohort, row_final_user_id.
  intros Hin Hu Hknown. apply In_left_merge in Hin.
  destruct Hin as [_ Hsnd]. destruct r as [m [x |]]; cbn [fst snd] in *.
  - destruct Hsnd as [Hx Hon]. rewrite Hu in Hon.
    apply key_eqb_Some_l in Hon. injection Hon as Hon.
    apply In_user_first_request in Hx. destruct Hx as [u' [_ ->]].
    simpl in Hon. subst u'. reflexivity.
  - exfalso.
    assert (In (first_request_row cash_df u) (user_first_request cash_df))
      as Hrow by (apply In_user_first_request; eauto).
    specialize (Hsnd _ Hrow). rewrite Hu in Hsnd. simpl in Hsnd.
    rewrite Z.eqb_refl in Hsnd. discriminate.
Qed.

(** The cash request behind a row of the cohort-tagged table is a row of
    the cash table, and every cash request is behind some row. *)
Lemma cohort_table_request (cash_df : list CleanCash) (fees_df : list Fee)
    (r : CohortRow) :
  In r (cohort_table cash_df fees_df) ->
  In (fst (fst r)) (map add_eda_columns cash_df).
Proof.
  unfold cohort_table, merged_cash_fee_cohort, merged_df. intros Hin.
  apply In_left_merge in Hin. destruct Hin as [Hin _].
  apply In_left_merge in Hin. tauto.
Qed.

Lemma cohort_table_keeps (cash_df : list CleanCash) (fees_df : list Fee)
    (c : EdaCash) :
  In c (map add_eda_columns cash_df) ->
  exists r, In r (cohort_table cash_df fees_df) /\ fst (fst r) = c.
Proof.
  unfold cohort_table, merged_cash_fee_cohort, merged_df. intros Hin.
  destruct (left_merge_keeps
              (fun c f => key_eqb (Some (cash_request_id_of c))
                                  (cash_request_id f))
              c _ fees_df Hin) as [f Hf].
  destruct (left_merge_keeps
              (fun m u => key_eqb (cash_final_user_id (fst m))
                                  (Some (ufr_final_user_id u)))
              (c, f) _
              (user_first_request (map add_eda_columns cash_df)) Hf)
    as [o Ho].
  exists (c, f, o). auto.
Qed.

(** The cohort columns of a row of the cohort-tagged table, for a row
    whose user is identified. *)
Lemma cohort_table_columns (cash_df : list CleanCash) (fees_df : list Fee)
    (r : CohortRow) (u : Z) :
  In r (cohort_table cash_df fees_df) ->
  row_final_user_id r = Some u ->
  snd r = Some (first_request_row (map add_eda_columns cash_df) u).
Proof.
  intros Hin Hu. eapply cohort_columns_of_known_user; eauto.
  apply in_map_iff. exists (fst (fst r)). split; [exact Hu |].
  apply cohort_table_request with (fees_df := fees_df). exact Hin.
Qed.

(** *** Distinct counts of a constant column *)



Lemma filter_nil {A : Type} (f : A -> bool) (l : list A) :
  (forall x, In x l -> f x = false) -> filter f l = [].
Proof.
  induction l as [| x l IH]; simpl; intros Hall; [reflexivity |].
  rewrite (Hall x (or_introl eq_refl)). apply IH. auto.
Qed.







(** The scenario of the specification: user 1, whose requests are dated
    2020-03-10 and 2020-01-15, is in cohort 2020-01, user 2 in cohort
    2020-02, and without fees the usage matrix counts one request in
    each of the cells (2020-01, 2020-01), (2020-01, 2020-03) and
    (2020-02, 2020-02). *)
Example scenario_cohorts :
  map (fun row => (ufr_final_user_id row, cohort_year_month row))
      (user_first_request (map add_eda_columns scenario_cash))
  = [(1, Some (ym 2020 1)); (2, Some (ym 2020 2))]
  /\ cohort_usage_matrix (cohort_table scenario_cash [])
     = [(ym 2020 1, [(ym 2020 1, 1); (ym 2020 2, 0); (ym 2020 3, 1)]);
        (ym 2020 2, [(ym 2020 1, 0); (ym 2020 2, 1); (ym 2020 3, 0)])].
Proof. split; reflexivity. Qed.

(* ===================================================================== *)
(** * The usage matrix *)
(* ===================================================================== *)

Lemma In_group_keys (c m : Period) (df : list CohortRow) :
  In (c, m) (group_keys df) <->
  exists r, In r df /\ row_cohort_year_month r = Some c
            /\ row_year_month r = Some m.
Proof.
  unfold group_keys. rewrite in_flat_map. split.
  - intros [r [Hr Hin]]. exists r.
    destruct (row_cohort_year_month r) as [c' |];
      destruct (row_year_month r) as [m' |]; simpl in Hin;
      try (destruct Hin; fail).
    destruct Hin as [E | []]. injection E as -> ->. auto.
  - intros [r [Hr [Hc Hm]]]. exists r. rewrite Hc, Hm. simpl. auto.
Qed.

Lemma in_group_true (c m : Period) (k : Period * Period) :
  in_group c m k = true <-> k = (c, m).
Proof.
  unfold in_group. destruct k as [c' m']. simpl.
  rewrite andb_true_iff, !Z.eqb_eq. split.
  - intros [-> ->]. reflexivity.
  - intros E. injection E as -> ->. auto.
Qed.

Lemma group_size_absent (keys : list (Period * Period)) (c m : Period) :
  ~ In (c, m) keys -> group_size keys c m = 0.
Proof.
  intros Hnot. unfold group_size. rewrite filter_nil; [reflexivity |].
  intros k Hk. destruct (in_group c m k) eqn:E; [| reflexivity].
  apply in_group_true in E. subst k. contradiction.
Qed.

Lemma group_size_present (keys : list (Period * Period)) (c m : Period) :
  In (c, m) keys -> 0 < group_size keys c m.
Proof.
  intros Hin. unfold group_size.
  assert (In (c, m) (filter (in_group c m) keys)) as H
    by (apply filter_In; split; [exact Hin | apply in_group_true; reflexivity]).
  destruct (filter (in_group c m) keys); [destruct H | simpl; lia].
Qed.

(** The long table [cohort_usage] has one row per group, holding the
    size of the group. *)
Lemma In_cohort_usage (c m : Period) (v : Z) (df : list CohortRow) :
  In (c, m, v) (cohort_usage df) <->
  In (c, m) (group_keys df) /\ v = group_size (group_keys df) c m.
Proof.
  unfold cohort_usage. rewrite in_flat_map. split.
  - intros [c' [Hc' Hin]]. apply in_map_iff in Hin.
    destruct Hin as [m' [E Hm']]. injection E as -> -> <-.
    apply In_sorted_unique, in_map_iff in Hm'.
    destruct Hm' as [[c0 m0] [Em Hk]]. simpl in Em. subst m0.
    apply filter_In in Hk. destruct Hk as [Hk Hc0]. simpl in Hc0.
    apply Z.eqb_eq in Hc0. subst c0. split; [exact Hk | reflexivity].
  - intros [Hk ->]. exists c. split.
    + apply In_sorted_unique, in_map_iff. exists (c, m). auto.
    + apply in_map_iff. exists m. split; [reflexivity |].
      apply In_sorted_unique, in_map_iff. exists (c, m).
      split; [reflexivity |]. apply filter_In. split; [exact Hk |].
      simpl. apply Z.eqb_refl.
Qed.

Lemma find_cell_Some (c m : Period) (v : Z) (long : list (Period * Period * Z)) :
  find_cell c m long = Some v -> In (c, m, v) long.
Proof.
  induction long as [| [[c' m'] v'] long IH]; simpl; [discriminate |].
  destruct ((c' =? c) && (m' =? m)) eqn:E.
  - intros H. injection H as ->. apply andb_true_iff in E.
    destruct E as [Ec Em]. apply Z.eqb_eq in Ec, Em. subst. auto.
  - auto.
Qed.

Lemma find_cell_None (c m : Period) (long : list (Period * Period * Z)) :
  find_cell c m long = None -> forall v, ~ In (c, m, v) long.
Proof.
  induction long as [| [[c' m'] v'] long IH]; simpl; [tauto |].
  destruct ((c' =? c) && (m' =? m)) eqn:E; [discriminate |].
  intros Hn v [Hv | Hv]; [| exact (IH Hn v Hv)].
  injection Hv as -> -> ->. rewrite !Z.eqb_refl in E. discriminate.
Qed.

(** A cell of the pivot, with its null filled by 0, is the group size. *)
Lemma pivot_cell (c m : Period) (df : list CohortRow) :
  fillna0 (find_cell c m (cohort_usage df)) = group_size (group_keys df) c m.
Proof.
  destruct (find_cell c m (cohort_usage df)) as [v |] eqn:E; simpl.
  - apply find_cell_Some, In_cohort_usage in E. tauto.
  - symmetry. apply group_size_absent. intros Hin.
    apply (find_cell_None _ _ _ E (group_size (group_keys df) c m)).
    apply In_cohort_usage. auto.
Qed.

(** The usage matrix in closed form: its rows are the cohorts that have
    a group, its columns the months that have one, both ascending, and
    its cells the group sizes. *)
Lemma cohort_usage_matrix_cells (df : list CohortRow) :
  cohort_usage_matrix df =
  map (fun c =>
         (c, map (fun m => (m, group_size (group_keys df) c m))
                 (usage_columns df)))
      (usage_index df).
Proof.
  unfold cohort_usage_matrix, pivot, usage_index, usage_columns.
  rewrite map_map.
  replace (sorted_unique (map (fun t => fst (fst t)) (cohort_usage df)))
    with (sorted_unique (map fst (group_keys df))).
  2:{ apply sorted_unique_ext. intros c. rewrite !in_map_iff. split.
      - intros [[c' m] [E Hk]]. simpl in E. subst c'.
        exists (c, m, group_size (group_keys df) c m). split; [reflexivity |].
        apply In_cohort_usage. auto.
      - intros [[[c' m] v] [E Hk]]. simpl in E. subst c'.
        apply In_cohort_usage in Hk. exists (c, m). tauto. }
  replace (sorted_unique (map (fun t => snd (fst t)) (cohort_usage df)))
    with (sorted_unique (map snd (group_keys df))).
  2:{ apply sorted_unique_ext. intros m. rewrite !in_map_iff. split.
      - intros [[c m'] [E Hk]]. simpl in E. subst m'.
        exists (c, m, group_size (group_keys df) c m). split; [reflexivity |].
        apply In_cohort_usage. auto.
      - intros [[[c m'] v] [E Hk]]. simpl in E. subst m'.
        apply In_cohort_usage in Hk. exists (c, m). tauto. }
  apply map_ext. intros c. unfold smap. simpl. rewrite map_map.
  apply f_equal. apply map_ext. intros m. simpl.
  apply f_equal. apply pivot_cell.
Qed.

(** *** Row sums *)

Lemma strictly_sorted_NoDup (l : list Z) : StronglySorted Z.lt l -> NoDup l.
Proof.
  induction 1 as [| x l Hs IH Hall]; constructor; [| exact IH].
  intros Hin. rewrite Forall_forall in Hall. specialize (Hall x Hin). lia.
Qed.

Lemma sumZ_add (f g : Z -> Z) (cols : list Z) :
  sumZ (map (fun m => f m + g m) cols) = sumZ (map f cols) + sumZ (map g cols).
Proof.
  unfold sumZ. induction cols as [| m cols IH]; simpl; lia.
Qed.

Lemma sumZ_zero (f : Z -> Z) (cols : list Z) :
  (forall m, In m cols -> f m = 0) -> sumZ (map f cols) = 0.
Proof.
  unfold sumZ. induction cols as [| m cols IH]; simpl; intros H; [reflexivity |].
  rewrite (H m (or_introl eq_refl)), IH; [reflexivity | auto].
Qed.

Lemma sumZ_indicator (x : Z) (cols : list Z) :
  NoDup cols -> In x cols ->
  sumZ (map (fun m => if x =? m then 1 else 0) cols) = 1.
Proof.
  induction 1 as [| m cols Hnot Hnd IH]; intros Hin; [destruct Hin |].
  change (sumZ (map (fun m0 => if x =? m0 then 1 else 0) (m :: cols)))
    with ((if x =? m then 1 else 0)
          + sumZ (map (fun m0 => if x =? m0 then 1 else 0) cols)).
  destruct (Z.eqb_spec x m) as [-> | Hne].
  - rewrite sumZ_zero; [reflexivity |].
    intros m' Hm'. destruct (Z.eqb_spec m m') as [-> | _]; [contradiction | reflexivity].
  - destruct Hin as [E | Hin]; [congruence |]. rewrite IH; auto.
Qed.

Lemma group_size_cons (k : Period * Period) (keys : list (Period * Period))
    (c m : Period) :
  group_size (k :: keys) c m
  = (if in_group c m k then 1 else 0) + group_size keys c m.
Proof.
  unfold group_size. simpl. destruct (in_group c m k); simpl List.length; lia.
Qed.

(** Summing the sizes of the groups of one cohort over all the months
    counts the keys of that cohort. *)
Lemma group_sizes_sum (c : Period) (keys : list (Period * Period))
    (cols : list Period) :
  NoDup cols -> (forall k, In k keys -> In (snd k) cols) ->
  sumZ (map (group_size keys c) cols)
  = Z.of_nat (List.length (filter (fun k => fst k =? c) keys)).
Proof.
  intros Hnd. induction keys as [| k keys IH]; intros Hcols.
  - simpl. apply sumZ_zero. reflexivity.
  - rewrite (map_ext _ _ (group_size_cons k keys c)).
    rewrite (sumZ_add (fun m => if in_group c m k then 1 else 0)
                      (group_size keys c)).
    rewrite IH by (intros k' Hk'; apply Hcols; right; exact Hk').
    simpl filter. unfold in_group.
    destruct (fst k =? c); simpl andb.
    + rewrite (@sumZ_indicator (snd k) cols Hnd)
        by (apply Hcols; left; reflexivity).
      simpl List.length. lia.
    + rewrite sumZ_zero by reflexivity. lia.
Qed.

Lemma row_sum_cells (f : Z -> Z) (cols : list Z) :
  row_sum (map (fun m => (m, f m)) cols) = sumZ (map f cols).
Proof.
  unfold row_sum, values, sumZ. rewrite map_map. reflexivity.
Qed.

(** The row of a cohort in the usage matrix sums to the number of rows
    of the cohort that have an activity month. *)
Lemma usage_row_sum (df : list CohortRow) :
  map (fun row => (fst row, row_sum (snd row))) (cohort_usage_matrix df)
  = map (fun c =>
           (c, Z.of_nat
                 (List.length (filter (fun k => fst k =? c) (group_keys df)))))
        (usage_index df).
Proof.
  rewrite cohort_usage_matrix_cells, map_map. apply map_ext. intros c.
  simpl. apply f_equal. rewrite row_sum_cells. apply group_sizes_sum.
  - apply strictly_sorted_NoDup, sorted_unique_sorted.
  - intros k Hk. apply In_sorted_unique, in_map. exact Hk.
Qed.

Lemma keys_of_cohort (df : list CohortRow) (c : Period) :
  forallb (fun r => notnull (row_year_month r)) df = true ->
  List.length (filter (fun k => fst k =? c) (group_keys df))
  = List.length
      (filter (fun r => key_eqb (row_cohort_year_month r) (Some c)) df).
Proof.
  induction df as [| r df IH]; simpl; [reflexivity |].
  rewrite andb_true_iff. intros [Hr Hdf]. specialize (IH Hdf).
  unfold group_keys in *. simpl.
  destruct (row_year_month r) as [m |]; [| discriminate].
  destruct (row_cohort_year_month r) as [c' |]; simpl; [| exact IH].
  destruct (c' =? c); simpl; rewrite IH; reflexivity.
Qed.

Lemma usage_index_all_cohorts (df : list CohortRow) :
  forallb (fun r => notnull (row_year_month r)) df = true ->
  usage_index df = sorted_unique (dropna (map row_cohort_year_month df)).
Proof.
  intros Hall. unfold usage_index. apply sorted_unique_ext. intros c.
  rewrite In_dropna, !in_map_iff. split.
  - intros [[c' m] [E Hk]]. simpl in E. subst c'.
    apply In_group_keys in Hk. destruct Hk as [r [Hr [Hc _]]]. eauto.
  - intros [r [Hc Hr]].
    pose proof (proj1 (forallb_forall _ _) Hall r Hr) as Hm.
    cbv beta in Hm.
    destruct (row_year_month r) as [m |] eqn:Em; [| discriminate Hm].
    exists (c, m). split; [reflexivity |]. apply In_group_keys. eauto.
Qed.

(** C10.  When every row of the cohort-tagged table has an activity
    month, the rows of the usage matrix and the rows of the incident-rate
    table are about the same cohorts, in the same order, and the sum of
    a cohort's usage row over all activity months is the
    [total_requests] of that cohort. *)
Theorem usage_row_sums_to_total_requests (df : list CohortRow) :
  forallb (fun r => notnull (row_year_month r)) df = true ->
  map (fun row => (fst row, row_sum (snd row))) (cohort_usage_matrix df)
  = map (fun i => (incident_cohort i, total_requests i)) (incident_df df).
Proof.
  intros Hall. rewrite usage_row_sum.
  unfold incident_df, total_counts, size_by_cohort. rewrite !map_map.
  rewrite (usage_index_all_cohorts _ Hall).
  apply map_ext. intros c. simpl. apply f_equal. f_equal.
  apply keys_of_cohort, Hall.
Qed.

(** The proviso of C10 holds for a table the pipeline builds exactly
    when every request of the cash table has a date: an undated request
    has no activity month, and is counted by [total_requests] alone. *)
Lemma cohort_table_has_year_month (cash_df : list CleanCash)
    (fees_df : list Fee) :
  forallb (fun r => notnull (row_year_month r)) (cohort_table cash_df fees_df)
  = forallb (fun r => notnull (month_of r)) cash_df.
Proof.
  apply eq_true_iff_eq. rewrite !forallb_forall. split.
  - intros H r Hr.
    destruct (cohort_table_keeps cash_df fees_df (add_eda_columns r)
                (in_map _ _ _ Hr)) as [row [Hrow Hfst]].
    specialize (H row Hrow). unfold row_year_month in H.
    rewrite Hfst in H. exact H.
  - intros H row Hrow. apply cohort_table_request in Hrow.
    apply in_map_iff in Hrow. destruct Hrow as [r [Hr Hin]].
    unfold row_year_month. rewrite <- Hr. exact (H r Hin).
Qed.

(** C10 on the scenario of the specification. *)
Lemma usage_row_sums_to_total_requests_witness :
  forallb (fun r => notnull (row_year_month r))
          (cohort_table scenario_cash scenario_fees) = true
  /\ map (fun row => (fst row, row_sum (snd row)))
         (cohort_usage_matrix (cohort_table scenario_cash scenario_fees))
     = map (fun i => (incident_cohort i, total_requests i))
           (incident_df (cohort_table scenario_cash scenario_fees)).
Proof.
  split; [reflexivity |].
  apply (usage_row_sums_to_total_requests
           (cohort_table scenario_cash scenario_fees)).
  reflexivity.
Defined.

(* ===================================================================== *)
(** * Revenue and cumulative revenue *)
(* ===================================================================== *)

Lemma strictly_sorted_Sorted_le (l : list Z) :
  StronglySorted Z.lt l -> Sorted Z.le l.
Proof.
  induction 1 as [| x l Hs IH Hall]; constructor; [exact IH |].
  destruct l as [| y l]; constructor.
  inversion Hall; subst. lia.
Qed.

(** Sorting a table whose keys already ascend changes nothing. *)
Lemma sort_values_sorted {A : Type} (key : A -> Z) (l : list A) :
  Sorted Z.le (map key l) -> sort_values key l = l.
Proof.
  unfold sort_values. induction l as [| x l IH]; simpl; [reflexivity |].
  intros Hs. inversion Hs as [| k ks Htail Hhd]; subst.
  rewrite (IH Htail). destruct l as [| y l]; [reflexivity |].
  simpl in *. inversion Hhd; subst.
  destruct (Z.leb_spec (key x) (key y)); [reflexivity | lia].
Qed.

(** The revenue table before sorting: one row per cohort that has an
    accepted fee, cohorts ascending. *)
Lemma cohort_revenue_rows (df : list CohortRow) :
  cohort_revenue df =
  map (fun c =>
         (c, nansum (map row_total_amount
                         (rows_of_cohort c (accepted_fees df)))))
      (sorted_unique (dropna (map row_cohort_year_month (accepted_fees df)))).
Proof.
  unfold cohort_revenue. apply sort_values_sorted.
  rewrite map_map. simpl. rewrite map_id.
  apply strictly_sorted_Sorted_le, sorted_unique_sorted.
Qed.

Lemma cohort_revenue_keys (df : list CohortRow) :
  map fst (cohort_revenue df)
  = sorted_unique (dropna (map row_cohort_year_month (accepted_fees df))).
Proof.
  rewrite cohort_revenue_rows, map_map. simpl. apply map_id.
Qed.

Lemma map_fst_combine {A B : Type} (a : list A) (b : list B) :
  List.length a = List.length b -> map fst (combine a b) = a.
Proof.
  revert b. induction a as [| x a IH]; intros [| y b]; simpl;
    try discriminate; [reflexivity |].
  intros H. f_equal. apply IH. lia.
Qed.

Lemma map_snd_combine {A B : Type} (a : list A) (b : list B) :
  List.length a = List.length b -> map snd (combine a b) = b.
Proof.
  revert b. induction a as [| x a IH]; intros [| y b]; simpl;
    try discriminate; [reflexivity |].
  intros H. f_equal. apply IH. lia.
Qed.

Lemma cumsum_from_length (acc : Q) (l : list Q) :
  List.length (cumsum_from acc l) = List.length l.
Proof.
  revert acc. induction l as [| x l IH]; intros acc; simpl; [reflexivity |].
  rewrite IH. reflexivity.
Qed.

Lemma Forall2_Qeq_map (f g : nat -> Q) (idx : list nat) (cs : list Q) :
  (forall i, (f i == g i)%Q) ->
  Forall2 Qeq cs (map f idx) -> Forall2 Qeq cs (map g idx).
Proof.
  intros Hfg. revert cs.
  induction idx as [| i idx IH]; intros cs H; simpl in *;
    inversion H as [| a b la lb Hab Hrest]; subst; constructor.
  - rewrite Hab. apply Hfg.
  - apply IH. exact Hrest.
Qed.

(** [cumsum] yields the sums of the prefixes of the column. *)
Lemma cumsum_from_prefix_sums (acc : Q) (l : list Q) :
  Forall2 Qeq (cumsum_from acc l)
    (map (fun i => (acc + sumQ (firstn (S i) l))%Q) (seq 0 (List.length l))).
Proof.
  revert acc. induction l as [| x l IH]; intros acc; simpl; [constructor |].
  constructor.
  - destruct l; simpl; ring.
  - rewrite <- seq_shift, map_map.
    apply Forall2_Qeq_map
      with (f := fun i => ((acc + x) + sumQ (firstn (S i) l))%Q).
    + intros i. simpl. ring.
    + apply IH.
Qed.

Lemma cumsum_prefix_sums (l : list Q) :
  Forall2 Qeq (cumsum l) (prefix_sums l).
Proof.
  unfold cumsum, prefix_sums.
  apply Forall2_Qeq_map with (f := fun i => (0 + sumQ (firstn (S i) l))%Q).
  - intros i. ring.
  - apply cumsum_from_prefix_sums.
Qed.

(** A running sum of non-negative terms never decreases. *)
Lemma cumsum_from_non_decreasing (acc : Q) (l : list Q) :
  Forall (fun x => (0 <= x)%Q) l ->
  Sorted Qle (cumsum_from acc l)
  /\ HdRel Qle acc (cumsum_from acc l).
Proof.
  intros Hall. revert acc.
  induction Hall as [| x l Hx Hall IH]; intros acc; simpl.
  - split; constructor.
  - destruct (IH (acc + x)%Q) as [Hs Hhd]. split.
    + constructor; assumption.
    + constructor. apply Qle_trans with (acc + 0)%Q.
      * rewrite Qplus_0_r. apply Qle_refl.
      * apply Qplus_le_r. exact Hx.
Qed.

Lemma nansum_nonneg (l : list (option Q)) :
  Forall (fun o => match o with Some a => (0 < a)%Q | None => True end) l ->
  (0 <= nansum l)%Q.
Proof.
  unfold nansum. induction 1 as [| [a |] l Ha Hall IH]; simpl.
  - apply Qle_refl.
  - exact (Qplus_le_compat 0 a 0 _ (Qlt_le_weak _ _ Ha) IH).
  - exact IH.
Qed.

(** The cumulative table keeps the rows of the revenue table, in the
    same order, and adds the running sum. *)
Lemma revenue_df_columns (df : list CohortRow) :
  map (fun r => (cumulative_cohort r, cumulative_cohort_revenue r))
      (revenue_df (cohort_revenue df)) = cohort_revenue df
  /\ map cumulative_revenue (revenue_df (cohort_revenue df))
     = cumsum (map snd (cohort_revenue df)).
Proof.
  unfold revenue_df.
  assert (sort_values fst (cohort_revenue df) = cohort_revenue df) as ->.
  { apply sort_values_sorted. rewrite cohort_revenue_keys.
    apply strictly_sorted_Sorted_le, sorted_unique_sorted. }
  rewrite !map_map. simpl.
  assert (List.length (cohort_revenue df)
          = List.length (cumsum (map snd (cohort_revenue df)))) as Hlen.
  { unfold cumsum. rewrite cumsum_from_length, length_map. reflexivity. }
  split.
  - transitivity (map fst (combine (cohort_revenue df)
                                   (cumsum (map snd (cohort_revenue df))))).
    + apply map_ext. intros [[c v] s]. reflexivity.
    + apply map_fst_combine, Hlen.
  - transitivity (map snd (combine (cohort_revenue df)
                                   (cumsum (map snd (cohort_revenue df))))).
    + apply map_ext. intros [[c v] s]. reflexivity.
    + apply map_snd_combine, Hlen.
Qed.

(** The cumulative column is the running sum of the revenue column over
    ascending cohorts, whatever the amounts are. *)
Lemma cumulative_revenue_prefix_sums (df : list CohortRow) :
  StronglySorted Z.lt (map cumulative_cohort (revenue_df (cohort_revenue df)))
  /\ Forall2 Qeq
       (map cumulative_revenue (revenue_df (cohort_revenue df)))
       (prefix_sums
          (map cumulative_cohort_revenue (revenue_df (cohort_revenue df)))).
Proof.
  destruct (revenue_df_columns df) as [Hrows Hcum].
  assert (map cumulative_cohort (revenue_df (cohort_revenue df))
          = map fst (cohort_revenue df)) as Hkeys.
  { rewrite <- Hrows at 2. rewrite map_map. reflexivity. }
  assert (map cumulative_cohort_revenue (revenue_df (cohort_revenue df))
          = map snd (cohort_revenue df)) as Hrev.
  { rewrite <- Hrows at 2. rewrite map_map. reflexivity. }
  split.
  - rewrite Hkeys, cohort_revenue_keys. apply sorted_unique_sorted.
  - rewrite Hcum, Hrev. apply cumsum_prefix_sums.
Qed.

(** C7.  The cumulative-revenue table lists the cohorts of the revenue
    table in ascending order of cohort key, its cumulative column is the
    running sum of the per-cohort revenue, and, every accepted fee amount
    being positive, each cohort revenue is at least 0 and the cumulative
    column never decreases. *)
Theorem cumulative_revenue_non_decreasing (df : list CohortRow) :
  Forall (fun r =>
            match row_total_amount r with
            | Some a => (0 < a)%Q
            | None => True
            end)
         (accepted_fees df) ->
  map (fun r => (cumulative_cohort r, cumulative_cohort_revenue r))
      (revenue_df (cohort_revenue df)) = cohort_revenue df
  /\ StronglySorted Z.lt
       (map cumulative_cohort (revenue_df (cohort_revenue df)))
  /\ Forall2 Qeq
       (map cumulative_revenue (revenue_df (cohort_revenue df)))
       (prefix_sums
          (map cumulative_cohort_revenue (revenue_df (cohort_revenue df))))
  /\ Forall (fun r => (0 <= cumulative_cohort_revenue r)%Q)
            (revenue_df (cohort_revenue df))
  /\ Sorted Qle (map cumulative_revenue (revenue_df (cohort_revenue df))).
Proof.
  intros Hpos.
  destruct (revenue_df_columns df) as [Hrows Hcum].
  destruct (cumulative_revenue_prefix_sums df) as [Hsorted Hprefix].
  assert (Forall (fun x => (0 <= x)%Q) (map snd (cohort_revenue df))) as Hnn.
  { rewrite cohort_revenue_rows, map_map. simpl.
    apply Forall_forall. intros x Hx. apply in_map_iff in Hx.
    destruct Hx as [c [<- _]]. apply nansum_nonneg.
    apply Forall_forall. intros o Ho. apply in_map_iff in Ho.
    destruct Ho as [r [<- Hr]]. unfold rows_of_cohort in Hr.
    apply filter_In in Hr. destruct Hr as [Hr _].
    rewrite Forall_forall in Hpos. exact (Hpos r Hr). }
  split; [exact Hrows |]. split; [exact Hsorted |].
  split; [exact Hprefix |]. split.
  - apply Forall_forall. intros r Hr.
    rewrite Forall_forall in Hnn. apply Hnn.
    rewrite <- Hrows, map_map. simpl.
    apply in_map_iff. exists r. auto.
  - rewrite Hcum. unfold cumsum. apply cumsum_from_non_decreasing, Hnn.
Qed.

(** C7 on the scenario of the specification: cohort 2020-01 earns
    5 + 7.5, cohort 2020-02 earns 5. *)
Lemma cumulative_revenue_non_decreasing_witness :
  Forall (fun r =>
            match row_total_amount r with
            | Some a => (0 < a)%Q
            | None => True
            end)
         (accepted_fees (cohort_table scenario_cash scenario_fees))
  /\ Sorted Qle
       (map cumulative_revenue
            (revenue_df
               (cohort_revenue (cohort_table scenario_cash scenario_fees)))).
Proof.
  assert (Forall (fun r =>
            match row_total_amount r with
            | Some a => (0 < a)%Q
            | None => True
            end)
         (accepted_fees (cohort_table scenario_cash scenario_fees))) as H
    by (repeat constructor).
  split; [exact H |].
  apply (cumulative_revenue_non_decreasing
           (cohort_table scenario_cash scenario_fees) H).
Defined.

(* ===================================================================== *)
(** * The entry month of a cohort *)
(* ===================================================================== *)

Lemma eda_year_month (cash_df : list CleanCash) (c : EdaCash) :
  In c (map add_eda_columns cash_df) ->
  year_month c = option_map to_period_M (request_date c).
Proof.
  intros Hin. apply in_map_iff in Hin. destruct Hin as [x [<- _]].
  apply year_month_add_eda_columns.
Qed.

(** A row that has a cohort belongs to an identified user, and the
    cohort is the text of that user's first month: the month of the
    first dated request, ['NaT'] when the user has none. *)
Lemma cohort_of_row (cash_df : list CleanCash) (fees_df : list Fee)
    (r : CohortRow) (c : Period) :
  In r (cohort_table cash_df fees_df) ->
  row_cohort_year_month r = Some c ->
  exists u,
    row_final_user_id r = Some u
    /\ c = period_text
             (first_request_date
                (first_request_row (map add_eda_columns cash_df) u)).
Proof.
  intros Hin Hc.
  destruct (row_final_user_id r) as [u |] eqn:Hu.
  - exists u. pose proof (cohort_table_columns _ _ _ Hin Hu) as Hsnd.
    unfold row_cohort_year_month in Hc. rewrite Hsnd in Hc.
    unfold first_request_row in *. cbn [cohort_year_month first_request_date] in *.
    split; [reflexivity | congruence].
  - exfalso. unfold cohort_table in Hin.
    destruct (null_user_has_no_cohort _ _ _ Hin Hu) as [_ Hnone].
    congruence.
Qed.

(** A row that has a cohort and an activity month belongs to a user with
    a dated request: the cohort is the month of the first one, and the
    activity month is not before it. *)
Lemma cohort_of_dated_row (cash_df : list CleanCash) (fees_df : list Fee)
    (r : CohortRow) (c m : Period) :
  In r (cohort_table cash_df fees_df) ->
  row_cohort_year_month r = Some c ->
  row_year_month r = Some m ->
  exists u first,
    row_final_user_id r = Some u
    /\ is_first_request_date first u (map add_eda_columns cash_df)
    /\ c = to_period_M first
    /\ c <= m.
Proof.
  intros Hin Hc Hm.
  destruct (cohort_of_row _ _ _ Hin Hc) as [u [Hu Hcu]].
  pose proof (cohort_table_request _ _ _ Hin) as Hcash.
  unfold row_year_month in Hm. rewrite (eda_year_month _ _ Hcash) in Hm.
  destruct (request_date (fst (fst r))) as [t |] eqn:Ht; [| discriminate].
  cbn [option_map] in Hm. injection Hm as <-.
  assert (Hdated : has_dated_request u (map add_eda_columns cash_df)).
  { exists (fst (fst r)), t. auto. }
  destruct (first_request_exists Hdated) as [first Hfirst].
  exists u, first. split; [exact Hu |]. split; [exact Hfirst |].
  rewrite (first_request_row_dated Hfirst) in Hcu.
  cbn [first_request_date period_text] in Hcu. split; [exact Hcu |].
  subst c. apply to_period_M_mono.
  destruct Hfirst as [_ Hle]. apply (Hle (fst (fst r))); assumption.
Qed.

(** No request of a cohort is dated before the month of the cohort. *)
Lemma activity_not_before_cohort (cash_df : list CleanCash)
    (fees_df : list Fee) (c m : Period) :
  In (c, m) (group_keys (cohort_table cash_df fees_df)) -> c <= m.
Proof.
  intros Hk. apply In_group_keys in Hk. destruct Hk as [r [Hr [Hc Hm]]].
  destruct (cohort_of_dated_row _ _ _ Hr Hc Hm) as [u [first [_ [_ [_ H]]]]].
  exact H.
Qed.

(** The user behind a row that has a cohort and an activity month made
    a request in the month of the cohort, and that request is a row of
    the table. *)
Lemma entry_key_of_row (cash_df : list CleanCash) (fees_df : list Fee)
    (r : CohortRow) (c m : Period) :
  In r (cohort_table cash_df fees_df) ->
  row_cohort_year_month r = Some c ->
  row_year_month r = Some m ->
  In (c, c) (group_keys (cohort_table cash_df fees_df)).
Proof.
  intros Hr Hc Hm.
  destruct (cohort_of_dated_row _ _ _ Hr Hc Hm)
    as [u [first [Hu [Hfirst [-> _]]]]].
  pose proof Hfirst as [[c0 [Hc0 [Hu0 Hat0]]] _].
  destruct (cohort_table_keeps cash_df fees_df c0 Hc0) as [r0 [Hr0 Hfst]].
  apply In_group_keys. exists r0. split; [exact Hr0 |].
  assert (row_final_user_id r0 = Some u) as Hu0'
    by (unfold row_final_user_id; rewrite Hfst; exact Hu0).
  split.
  - unfold row_cohort_year_month.
    rewrite (cohort_table_columns _ _ _ Hr0 Hu0').
    rewrite (first_request_row_dated Hfirst). reflexivity.
  - unfold row_year_month. rewrite Hfst.
    rewrite (eda_year_month _ _ Hc0), Hat0. reflexivity.
Qed.

(** Every cohort of the usage matrix has a request dated in its own
    month. *)
Lemma cohort_has_entry_month (cash_df : list CleanCash) (fees_df : list Fee)
    (c : Period) :
  In c (usage_index (cohort_table cash_df fees_df)) ->
  In (c, c) (group_keys (cohort_table cash_df fees_df)).
Proof.
  unfold usage_index. intros Hc.
  apply In_sorted_unique, in_map_iff in Hc.
  destruct Hc as [[c' m] [E Hk]]. simpl in E. subst c'.
  apply In_group_keys in Hk. destruct Hk as [r [Hr [Hc Hm]]].
  exact (entry_key_of_row _ _ _ Hr Hc Hm).
Qed.

(** *** Reading a row *)

Lemma Qpositive_inject_Z (z : Z) : Qpositive (inject_Z z) = (0 <? z).
Proof.
  unfold Qpositive, Qle_bool. simpl. rewrite Z.mul_1_r.
  destruct (Z.ltb_spec 0 z); destruct (Z.leb_spec z 0); simpl; try reflexivity; lia.
Qed.

Lemma first_nonzero_cons (m : Z) (v : Q) (row : Series Q) :
  first_nonzero ((m, v) :: row)
  = if Qpositive v then Some v else first_nonzero row.
Proof.
  unfold first_nonzero, values. simpl. destruct (Qpositive v); reflexivity.
Qed.

Lemma loc_cells {A : Type} (f : Z -> A) (c : Z) (cols : list Z) :
  In c cols -> loc c (map (fun m => (m, f m)) cols) = Some (f c).
Proof.
  induction cols as [| m cols IH]; simpl; [tauto |].
  destruct (Z.eqb_spec m c) as [-> | Hne]; [reflexivity |].
  intros [E | Hin]; [congruence | auto].
Qed.

Lemma loc_smap {A B : Type} (f : A -> B) (c : Z) (s : Series A) :
  loc c (smap f s) = option_map f (loc c s).
Proof.
  unfold smap. induction s as [| [k v] s IH]; simpl; [reflexivity |].
  destruct (k =? c); [reflexivity | exact IH].
Qed.

(** In a row whose cells are 0 before column [c] and positive at [c],
    the first positive value is the one at [c]. *)
Lemma first_nonzero_at (f : Z -> Z) (c : Z) (cols : list Z) :
  StronglySorted Z.lt cols -> In c cols ->
  (forall m, m < c -> f m = 0) -> 0 < f c ->
  first_nonzero (smap inject_Z (map (fun m => (m, f m)) cols))
  = Some (inject_Z (f c)).
Proof.
  intros Hs Hin Hzero Hpos.
  induction Hs as [| m cols Hs IH Hall]; [destruct Hin |].
  simpl. rewrite first_nonzero_cons, Qpositive_inject_Z.
  rewrite Forall_forall in Hall.
  destruct (Z.lt_trichotomy m c) as [Hlt | [-> | Hgt]].
  - rewrite (Hzero m Hlt). simpl. apply IH.
    destruct Hin as [E | Hin]; [lia | exact Hin].
  - destruct (Z.ltb_spec 0 (f c)); [reflexivity | lia].
  - exfalso. destruct Hin as [E | Hin]; [lia |].
    specialize (Hall c Hin). lia.
Qed.

(** The row of cohort [c] in the usage matrix of the pipeline: its cell
    in column [c] is positive and is the first non-zero cell. *)
Lemma entry_month_cell (cash_df : list CleanCash) (fees_df : list Fee)
    (c : Period) :
  In c (usage_index (cohort_table cash_df fees_df)) ->
  let keys := group_keys (cohort_table cash_df fees_df) in
  let row := map (fun m => (m, group_size keys c m))
                 (usage_columns (cohort_table cash_df fees_df)) in
  loc c row = Some (group_size keys c c)
  /\ 0 < group_size keys c c
  /\ first_nonzero (smap inject_Z row) = Some (inject_Z (group_size keys c c)).
Proof.
  intros Hc keys row.
  pose proof (cohort_has_entry_month _ _ _ Hc) as Hcc.
  assert (In c (usage_columns (cohort_table cash_df fees_df))) as Hcol.
  { apply In_sorted_unique, in_map_iff. exists (c, c). auto. }
  split; [apply loc_cells; exact Hcol |].
  split; [apply group_size_present; exact Hcc |].
  apply first_nonzero_at.
  - apply sorted_unique_sorted.
  - exact Hcol.
  - intros m Hm. apply group_size_absent. intros Hk.
    apply activity_not_before_cohort in Hk. lia.
  - apply group_size_present. exact Hcc.
Qed.

(** C9.  Every row of the usage matrix the pipeline builds has a
    strictly positive value in the column of its own cohort month, and
    the divisor the retention loop picks, the first non-zero value of the
    row, is that value. *)
Theorem entry_month_is_first_nonzero (cash_df : list CleanCash)
    (fees_df : list Fee) :
  Forall
    (fun row =>
       exists n,
         loc (fst row) (snd row) = Some n
         /\ 0 < n
         /\ first_nonzero (smap inject_Z (snd row)) = Some (inject_Z n))
    (cohort_usage_matrix (cohort_table cash_df fees_df)).
Proof.
  rewrite cohort_usage_matrix_cells. apply Forall_forall.
  intros row Hrow. apply in_map_iff in Hrow.
  destruct Hrow as [c [<- Hc]]. cbn [fst snd].
  exists (group_size (group_keys (cohort_table cash_df fees_df)) c c).
  exact (entry_month_cell cash_df fees_df c Hc).
Qed.

(* ===================================================================== *)
(** * The retention matrix *)
(* ===================================================================== *)

Lemma round_half_even_comp (q1 q2 : Q) :
  (q1 == q2)%Q -> round_half_even q1 = round_half_even q2.
Proof.
  intros H. unfold round_half_even.
  rewrite (Qfloor_comp _ _ H).
  assert (((q1 - inject_Z (Qfloor q2)) ?= (1 # 2))%Q
          = ((q2 - inject_Z (Qfloor q2)) ?= (1 # 2))%Q) as ->
    by (rewrite H; reflexivity).
  reflexivity.
Qed.

(** A positive count divided by itself rounds to exactly 1. *)
Lemma round_dec_3_self (n : Z) :
  0 < n -> (round_dec 3 (inject_Z n / inject_Z n) == 1)%Q.
Proof.
  intros Hn. unfold round_dec. change (10 ^ Z.of_nat 3) with 1000.
  rewrite (@round_half_even_comp _ (inject_Z 1000)).
  - reflexivity.
  - field. unfold Qeq. simpl. lia.
Qed.

(** On a hand-made usage row, one with requests dated before the cohort
    month, the first non-zero value is not the entry-month value, and
    the loop of In[13] then differs from the wording of the
    specification: such a row is never built by the pipeline. *)
Remark first_nonzero_differs_off_pipeline :
  normalize_by_first_nonzero [(ym 2020 1, 2%Q); (ym 2020 2, 4%Q)]
  <> spec_retention_row (ym 2020 2) [(ym 2020 1, 2%Q); (ym 2020 2, 4%Q)].
Proof. vm_compute. discriminate. Qed.

(** C1.  On every usage matrix the pipeline builds, the unfiltered
    retention matrix is the one the specification describes: each cell is
    the usage cell divided by the cohort's entry-month value and rounded
    to 3 places, a row whose entry-month value is zero or absent being
    all zeros; and the cell of a cohort in its own month is exactly 1. *)
Theorem retention_matrix_normalized_by_entry_month (cash_df : list CleanCash)
    (fees_df : list Fee) :
  retention_matrix (cohort_usage_matrix (cohort_table cash_df fees_df))
  = spec_retention_matrix (cohort_usage_matrix (cohort_table cash_df fees_df))
  /\ Forall
       (fun row => exists v, loc (fst row) (snd row) = Some v /\ (v == 1)%Q)
       (retention_matrix (cohort_usage_matrix (cohort_table cash_df fees_df))).
Proof.
  unfold retention_matrix, spec_retention_matrix, astype_float.
  rewrite cohort_usage_matrix_cells, !map_map. cbn [fst snd].
  split.
  - apply map_ext_in. intros c Hc. apply f_equal.
    destruct (entry_month_cell cash_df fees_df c Hc) as [Hloc [Hpos Hfirst]].
    unfold normalize_by_first_nonzero, spec_retention_row.
    rewrite Hfirst, loc_smap, Hloc. cbn [option_map].
    rewrite Qpositive_inject_Z.
    destruct (Z.ltb_spec 0
                (group_size (group_keys (cohort_table cash_df fees_df)) c c));
      [reflexivity | lia].
  - apply Forall_forall. intros row Hrow. apply in_map_iff in Hrow.
    destruct Hrow as [c [<- Hc]]. cbn [fst snd].
    destruct (entry_month_cell cash_df fees_df c Hc) as [Hloc [Hpos Hfirst]].
    unfold normalize_by_first_nonzero. rewrite Hfirst.
    unfold divide_and_round. rewrite !loc_smap, Hloc. cbn [option_map].
    eexists. split; [reflexivity |]. apply round_dec_3_self, Hpos.
Qed.

(* ===================================================================== *)
(** * ARPU and CLV *)
(* ===================================================================== *)

Section UniqueKeys.

Variables L R : Type.
Variable kl : L -> Z.
Variable kr : R -> Z.

(** Against a table with distinct keys, at most one row matches. *)
Lemma filter_unique_key (k : Z) (right : list R) :
  NoDup (map kr right) ->
  filter (fun r => k =? kr r) right
  = match find (fun r => k =? kr r) right with
    | Some r => [r]
    | None => []
    end.
Proof.
  induction right as [| r right IH]; simpl; [reflexivity |].
  intros Hnd. inversion Hnd as [| x xs Hnot Hnd']; subst.
  destruct (Z.eqb_spec k (kr r)) as [-> | Hne].
  - f_equal. apply filter_nil. intros r' Hr'.
    destruct (Z.eqb_spec (kr r) (kr r')) as [E | _]; [| reflexivity].
    exfalso. apply Hnot. rewrite E. apply in_map. exact Hr'.
  - apply IH. exact Hnd'.
Qed.

(** A left merge against a table with distinct keys is a lookup. *)
Lemma left_merge_lookup (left : list L) (right : list R) :
  NoDup (map kr right) ->
  left_merge (fun l r => kl l =? kr r) left right
  = map (fun l => (l, find (fun r => kl l =? kr r) right)) left.
Proof.
  intros Hnd. unfold left_merge.
  induction left as [| l left IH]; [reflexivity |].
  cbn [flat_map]. rewrite map_cons, IH, (@filter_unique_key (kl l) right Hnd).
  destruct (find (fun r => kl l =? kr r) right); reflexivity.
Qed.

End UniqueKeys.

(** Looking a key up in a table built from its keys. *)
Lemma find_keyed {A : Type} (f : Z -> A) (kr : A -> Z) (keys : list Z)
    (k : Z) :
  (forall z, kr (f z) = z) ->
  find (fun r => k =? kr r) (map f keys)
  = if in_dec Z.eq_dec k keys then Some (f k) else None.
Proof.
  intros Hkey. induction keys as [| z keys IH]; simpl; [reflexivity |].
  rewrite Hkey. destruct (Z.eqb_spec k z) as [-> | Hne].
  - destruct (Z.eq_dec z z); [reflexivity | congruence].
  - rewrite IH. destruct (Z.eq_dec z k); [congruence |].
    destruct (in_dec Z.eq_dec k keys); reflexivity.
Qed.


(** The per-cohort user counts, keyed by cohort. *)
Lemma cohort_user_counts_keys (users : list UserFirstRequest) :
  map fst (cohort_user_counts users)
  = sorted_unique (dropna (map cohort_year_month users)).
Proof.
  unfold cohort_user_counts. rewrite map_map. simpl. apply map_id.
Qed.

(** The ARPU table in closed form: one row per row of the revenue table,
    with the user count of the cohort looked up. *)
Lemma arpu_df_rows (revenue : list (Period * Q))
    (users : list UserFirstRequest) :
  arpu_df revenue users
  = map (fun cv =>
           let count :=
             option_map snd
               (find (fun cn => fst cv =? fst cn) (cohort_user_counts users)) in
           {| arpu_cohort := fst cv;
              arpu_cohort_revenue := snd cv;
              user_count := count;
              arpu := option_map
                        (fun n => round_dec 2 (snd cv / inject_Z n)%Q)
                        count |})
        revenue.
Proof.
  unfold arpu_df.
  rewrite (left_merge_lookup (fun r : Z * Q => fst r)
                             (fun c : Z * Z => fst c)).
  - rewrite map_map. reflexivity.
  - rewrite cohort_user_counts_keys.
    apply strictly_sorted_NoDup, sorted_unique_sorted.
Qed.

(** The filtered retention matrix in closed form. *)
Lemma filtered_retention_matrix_rows (df : list CohortRow) :
  filtered_retention_matrix (cohort_usage_matrix df)
  = map (fun c =>
           (c, normalize_by_entry_month c
                 (smap inject_Z
                    (filter (fun kv => negb (is_partial (fst kv)))
                       (map (fun m => (m, group_size (group_keys df) c m))
                            (usage_columns df))))))
        (filter (fun c => negb (is_partial c)) (usage_index df)).
Proof.
  unfold filtered_retention_matrix, astype_float, filtered_usage.
  rewrite cohort_usage_matrix_cells, filter_map_commute, !map_map.
  reflexivity.
Qed.

Lemma avg_retention_months_rows (df : list CohortRow) :
  avg_retention_months (filtered_retention_matrix (cohort_usage_matrix df))
  = map (fun c =>
           (c, active_months
                 (normalize_by_entry_month c
                    (smap inject_Z
                       (filter (fun kv => negb (is_partial (fst kv)))
                          (map (fun m => (m, group_size (group_keys df) c m))
                               (usage_columns df)))))))
        (filter (fun c => negb (is_partial c)) (usage_index df)).
Proof.
  unfold avg_retention_months.
  rewrite filtered_retention_matrix_rows, map_map. reflexivity.
Qed.

(** The CLV table in closed form: the rows of the ARPU table whose
    cohort is not a partial month, each with the number of active months
    looked up. *)
Lemma clv_df_rows (arpu_table : list ArpuRow) (df : list CohortRow) :
  clv_df arpu_table (filtered_retention_matrix (cohort_usage_matrix df))
  = filter (fun r => negb (is_partial (clv_cohort r)))
      (map (fun a =>
              let months :=
                option_map snd
                  (find (fun m => arpu_cohort a =? fst m)
                     (avg_retention_months
                        (filtered_retention_matrix (cohort_usage_matrix df)))) in
              {| clv_arpu := a;
                 clv_avg_retention_months := months;
                 clv := clv_value (arpu a) months |})
           arpu_table).
Proof.
  unfold clv_df. apply f_equal.
  rewrite (left_merge_lookup arpu_cohort (fun m : Z * Z => fst m)).
  - rewrite map_map. reflexivity.
  - rewrite avg_retention_months_rows, map_map. simpl. rewrite map_id.
    apply NoDup_filter, strictly_sorted_NoDup, sorted_unique_sorted.
Qed.

(** [user_first_request] has one row per user. *)
Lemma user_first_request_keys (cash_df : list EdaCash) :
  NoDup (map ufr_final_user_id (user_first_request cash_df)).
Proof.
  unfold user_first_request. rewrite map_map. simpl. rewrite map_id.
  apply strictly_sorted_NoDup, sorted_unique_sorted.
Qed.

(** The cohorts of the usage matrix are months: the text ['NaT'] is
    the cohort of users without a dated request, and their rows have no
    activity month. *)
Lemma usage_index_is_dated (cash_df : list CleanCash) (fees_df : list Fee)
    (c : Period) :
  In c (usage_index (cohort_table cash_df fees_df)) -> c < NaT_text.
Proof.
  unfold usage_index. intros Hc.
  apply In_sorted_unique, in_map_iff in Hc.
  destruct Hc as [[c' m] [E Hk]]. simpl in E. subst c'.
  apply In_group_keys in Hk. destruct Hk as [r [Hr [Hc Hm]]].
  destruct (cohort_of_dated_row _ _ _ Hr Hc Hm)
    as [u [first [_ [Hfirst [-> _]]]]].
  exact (first_request_in_bounds Hfirst).
Qed.

(** A cohort that earns revenue has a user; it has a row in the usage
    matrix unless it is the cohort ['NaT']. *)
Lemma revenue_cohort_is_known (cash_df : list CleanCash) (fees_df : list Fee)
    (c : Period) :
  In c (map fst (cohort_revenue (cohort_table cash_df fees_df))) ->
  In c (sorted_unique
          (dropna (map cohort_year_month
                       (user_first_request (map add_eda_columns cash_df)))))
  /\ 0 < users_in_cohort c (user_first_request (map add_eda_columns cash_df))
  /\ (c <> NaT_text -> In c (usage_index (cohort_table cash_df fees_df)))
  /\ (c = NaT_text -> ~ In c (usage_index (cohort_table cash_df fees_df))).
Proof.
  rewrite cohort_revenue_keys. intros Hc.
  apply In_sorted_unique, In_dropna, in_map_iff in Hc.
  destruct Hc as [r [Hc Hr]]. unfold accepted_fees in Hr.
  apply filter_In in Hr. destruct Hr as [Hr _].
  destruct (cohort_of_row _ _ _ Hr Hc) as [u [Hu Hcu]].
  set (users := user_first_request (map add_eda_columns cash_df)).
  set (row := first_request_row (map add_eda_columns cash_df) u) in *.
  assert (Hknown : In (Some u)
                      (map cash_final_user_id (map add_eda_columns cash_df))).
  { apply in_map_iff. exists (fst (fst r)). split; [exact Hu |].
    exact (cohort_table_request _ _ _ Hr). }
  assert (In row users) as Hrow.
  { apply In_user_first_request. exists u. split; [exact Hknown | reflexivity]. }
  assert (cohort_year_month row = Some c) as Hcohort.
  { rewrite Hcu. reflexivity. }
  split; [| split; [| split]].
  - apply In_sorted_unique, In_dropna, in_map_iff. eauto.
  - unfold users_in_cohort.
    assert (In row (filter (fun u0 => key_eqb (cohort_year_month u0) (Some c))
                           users)) as Hin.
    { apply filter_In. split; [exact Hrow |]. apply key_eqb_Some, Hcohort. }
    destruct (filter _ users); [destruct Hin | simpl; lia].
  - intros Hne.
    destruct (first_request_date row) as [first |] eqn:Hfirst;
      [| cbn [period_text] in Hcu; contradiction].
    cbn [period_text] in Hcu.
    assert (Hf : is_first_request_date first u (map add_eda_columns cash_df)).
    { apply series_min_is_first_request_date. exact Hfirst. }
    destruct Hf as [[c0 [Hc0 [Hu0 Hat0]]] _].
    destruct (cohort_table_keeps cash_df fees_df c0 Hc0) as [r0 [Hr0 Hfst]].
    assert (row_final_user_id r0 = Some u) as Hu0'
      by (unfold row_final_user_id; rewrite Hfst; exact Hu0).
    assert (Hc0' : row_cohort_year_month r0 = Some c).
    { unfold row_cohort_year_month.
      rewrite (cohort_table_columns _ _ _ Hr0 Hu0'). exact Hcohort. }
    assert (Hm0 : row_year_month r0 = Some c).
    { unfold row_year_month. rewrite Hfst.
      rewrite (eda_year_month _ _ Hc0), Hat0, Hcu. reflexivity. }
    unfold usage_index. apply In_sorted_unique, in_map_iff.
    exists (c, c). split; [reflexivity |].
    exact (entry_key_of_row _ _ _ Hr0 Hc0' Hm0).
  - intros -> Hin. apply usage_index_is_dated in Hin. lia.
Qed.



(* ===================================================================== *)
(** * The worked scenarios *)
(* ===================================================================== *)

(** Identity: [user_id] alone, [deleted_account_id] alone, and both. *)
Example scenario_identity :
  map (fun r => (final_user_id r, deleted_account_id (cash r)))
      (unify_identity
         [request 1 (Some 42) None jan_15;
          request 2 None (Some 77) jan_15;
          request 3 (Some 42) (Some 77) jan_15])
  = [(Some 42, None); (Some 77, Some 77); (Some 42, None)].
Proof. reflexivity. Qed.

(** Fees: the fee without a cash request is dropped, the fee naming a
    request that does not exist stays in the cleaned table and joins no
    request, the linked fee is joined. *)
Example scenario_fees_cleaned :
  drop_missing_cash_request_id [unlinked_fee; orphan_fee; linked_fee]
  = [orphan_fee; linked_fee]
  /\ map (fun r => option_map fee_id (snd r))
         (merged_df (map add_eda_columns (unify_identity [request_100]))
                    [orphan_fee; linked_fee])
     = [Some 3].
Proof. split; reflexivity. Qed.

(** ARPU: 14,365 over 1,539 users is 9.33. *)
Example scenario_arpu : (round_dec 2 (14365 / 1539) == 933 # 100)%Q.
Proof. reflexivity. Qed.

(** Retention, without fees: cohort 2020-01 keeps in 2020-03 the one
    request of its entry month. *)
Example scenario_retention :
  option_map (loc (ym 2020 3))
    (loc (ym 2020 1)
         (retention_matrix (cohort_usage_matrix (cohort_table scenario_cash []))))
  = Some (Some (1000 # 1000)%Q).
Proof. reflexivity. Qed.

(* ===================================================================== *)
(** * Counting and summing by group *)
(* ===================================================================== *)

Lemma sorted_unique_NoDup (l : list Z) : NoDup (sorted_unique l).
Proof. apply strictly_sorted_NoDup, sorted_unique_sorted. Qed.

Lemma existsb_Zeqb (x : Z) (l : list Z) :
  existsb (Z.eqb x) l = true <-> In x l.
Proof.
  rewrite existsb_exists. split.
  - intros [y [Hy E]]. apply Z.eqb_eq in E. subst y. exact Hy.
  - intros H. exists x. split; [exact H | apply Z.eqb_refl].
Qed.

(** The sizes of the groups of a [groupby] add up to the number of rows
    whose key is not null. *)
Lemma count_by_key_cols {A : Type} (key : A -> option Z) (l : list A)
    (cols : list Z) :
  NoDup cols ->
  (forall r c, In r l -> key r = Some c -> In c cols) ->
  sumZ (map (fun c =>
               Z.of_nat
                 (List.length (filter (fun r => key_eqb (key r) (Some c)) l)))
            cols)
  = Z.of_nat (List.length (filter (fun r => notnull (key r)) l)).
Proof.
  intros Hnd. induction l as [| r l IH]; intros Hin.
  - simpl. apply sumZ_zero. reflexivity.
  - assert (Hin' : forall r' c, In r' l -> key r' = Some c -> In c cols)
      by (intros r' c Hr; apply Hin; right; exact Hr).
    specialize (IH Hin').
    destruct (key r) as [k |] eqn:Ek.
    + transitivity
        (sumZ (map (fun c =>
                      (if k =? c then 1 else 0)
                      + Z.of_nat
                          (List.length
                             (filter (fun r => key_eqb (key r) (Some c)) l)))
                   cols)).
      * f_equal. apply map_ext. intros c. cbn [filter]. rewrite Ek.
        cbn [key_eqb]. destruct (k =? c); simpl List.length; lia.
      * rewrite sumZ_add, IH, (@sumZ_indicator k cols Hnd).
        -- cbn [filter]. rewrite Ek. unfold notnull, isnull. cbn [negb].
           simpl List.length. lia.
        -- apply (Hin r k); [left; reflexivity | exact Ek].
    + cbn [filter]. rewrite Ek. unfold notnull at 1, isnull at 1.
      cbn [negb key_eqb]. exact IH.
Qed.

Lemma count_by_key {A : Type} (key : A -> option Z) (l : list A) :
  sumZ (map (fun c =>
               Z.of_nat
                 (List.length (filter (fun r => key_eqb (key r) (Some c)) l)))
            (sorted_unique (dropna (map key l))))
  = Z.of_nat (List.length (filter (fun r => notnull (key r)) l)).
Proof.
  apply count_by_key_cols.
  - apply sorted_unique_NoDup.
  - intros r c Hr Hk. apply In_sorted_unique, In_dropna.
    rewrite <- Hk. apply in_map. exact Hr.
Qed.

Lemma sumQ_add (f g : Z -> Q) (cols : list Z) :
  (sumQ (map (fun c => f c + g c) cols)
   == sumQ (map f cols) + sumQ (map g cols))%Q.
Proof.
  induction cols as [| c cols IH]; simpl.
  - reflexivity.
  - rewrite IH. ring.
Qed.

Lemma sumQ_ext (f g : Z -> Q) (cols : list Z) :
  (forall c, In c cols -> (f c == g c)%Q) ->
  (sumQ (map f cols) == sumQ (map g cols))%Q.
Proof.
  induction cols as [| c cols IH]; intros H; simpl.
  - reflexivity.
  - rewrite (H c (or_introl eq_refl)), IH; [reflexivity |].
    intros c' Hc'. apply H. right. exact Hc'.
Qed.

Lemma sumQ_zero (f : Z -> Q) (cols : list Z) :
  (forall c, In c cols -> (f c == 0)%Q) -> (sumQ (map f cols) == 0)%Q.
Proof.
  induction cols as [| c cols IH]; intros H; simpl.
  - reflexivity.
  - rewrite (H c (or_introl eq_refl)), IH; [ring |].
    intros c' Hc'. apply H. right. exact Hc'.
Qed.

Lemma sumQ_indicator (x : Z) (a : Q) (cols : list Z) :
  NoDup cols -> In x cols ->
  (sumQ (map (fun c => if x =? c then a else 0) cols) == a)%Q.
Proof.
  induction cols as [| c cols IH]; intros Hnd Hin; [destruct Hin |].
  inversion Hnd as [| c' cols' Hnot Hnd']; subst.
  simpl. destruct Hin as [E | Hin].
  - subst c. rewrite Z.eqb_refl.
    rewrite sumQ_zero; [ring |].
    intros c Hc. destruct (x =? c) eqn:E; [| reflexivity].
    apply Z.eqb_eq in E. subst c. contradiction.
  - destruct (x =? c) eqn:E.
    + apply Z.eqb_eq in E. subst c. contradiction.
    + rewrite (IH Hnd' Hin). ring.
Qed.

(** The sums of the groups of a [groupby] add up to the sum over the
    rows whose key is not null. *)
Lemma nansum_by_key_cols {A : Type} (key : A -> option Z)
    (val : A -> option Q) (l : list A) (cols : list Z) :
  NoDup cols ->
  (forall r c, In r l -> key r = Some c -> In c cols) ->
  (sumQ (map (fun c =>
                nansum (map val
                            (filter (fun r => key_eqb (key r) (Some c)) l)))
             cols)
   == nansum (map val (filter (fun r => notnull (key r)) l)))%Q.
Proof.
  intros Hnd. induction l as [| r l IH]; intros Hin.
  - simpl. apply sumQ_zero. reflexivity.
  - assert (Hin' : forall r' c, In r' l -> key r' = Some c -> In c cols)
      by (intros r' c Hr; apply Hin; right; exact Hr).
    specialize (IH Hin').
    destruct (key r) as [k |] eqn:Ek.
    + assert (Hk : In k cols) by (apply (Hin r k); [left; reflexivity | exact Ek]).
      cbn [filter]. rewrite Ek. unfold notnull at 1, isnull at 1. cbn [negb].
      destruct (val r) as [a |] eqn:Ea.
      * rewrite (sumQ_ext
                   (fun c =>
                      nansum (map val
                                  (if key_eqb (Some k) (Some c)
                                   then r :: filter
                                          (fun r0 => key_eqb (key r0) (Some c)) l
                                   else filter
                                          (fun r0 => key_eqb (key r0) (Some c)) l)))
                   (fun c =>
                      (if k =? c then a else 0)
                      + nansum (map val
                                    (filter
                                       (fun r0 => key_eqb (key r0) (Some c)) l)))%Q).
        -- rewrite sumQ_add, IH, (@sumQ_indicator k a cols Hnd Hk).
           cbn [map]. rewrite Ea. unfold nansum. cbn [dropna fold_right].
           reflexivity.
        -- intros c _. cbn [key_eqb]. destruct (k =? c).
           ++ cbn [map]. rewrite Ea. unfold nansum. cbn [dropna fold_right].
              reflexivity.
           ++ ring.
      * rewrite (sumQ_ext
                   (fun c =>
                      nansum (map val
                                  (if key_eqb (Some k) (Some c)
                                   then r :: filter
                                          (fun r0 => key_eqb (key r0) (Some c)) l
                                   else filter
                                          (fun r0 => key_eqb (key r0) (Some c)) l)))
                   (fun c =>
                      nansum (map val
                                  (filter
                                     (fun r0 => key_eqb (key r0) (Some c)) l)))).
        -- rewrite IH. cbn [map]. rewrite Ea. unfold nansum.
           cbn [dropna]. reflexivity.
        -- intros c _. destruct (key_eqb (Some k) (Some c)); [| reflexivity].
           cbn [map]. rewrite Ea. unfold nansum. cbn [dropna]. reflexivity.
    + cbn [filter]. rewrite Ek. unfold notnull at 1, isnull at 1. cbn [negb].
      rewrite <- IH. apply sumQ_ext. intros c _. cbn [key_eqb]. reflexivity.
Qed.

Lemma nansum_by_key {A : Type} (key : A -> option Z) (val : A -> option Q)
    (l : list A) :
  (sumQ (map (fun c =>
                nansum (map val
                            (filter (fun r => key_eqb (key r) (Some c)) l)))
             (sorted_unique (dropna (map key l))))
   == nansum (map val (filter (fun r => notnull (key r)) l)))%Q.
Proof.
  apply nansum_by_key_cols.
  - apply sorted_unique_NoDup.
  - intros r c Hr Hk. apply In_sorted_unique, In_dropna.
    rewrite <- Hk. apply in_map. exact Hr.
Qed.

(** A key that is new makes the sorted distinct keys one longer. *)
Lemma insert_unique_new (x : Z) (l : list Z) :
  ~ In x l -> List.length (insert_unique x l) = S (List.length l).
Proof.
  induction l as [| y l IH]; intros Hnot; simpl.
  - reflexivity.
  - destruct (x ?= y) eqn:E.
    + apply Z.compare_eq in E. subst y. exfalso. apply Hnot. left. reflexivity.
    + reflexivity.
    + simpl. rewrite IH; [reflexivity |].
      intros H. apply Hnot. right. exact H.
Qed.

Lemma sorted_unique_cons_new (x : Z) (l : list Z) :
  ~ In x l ->
  List.length (sorted_unique (x :: l)) = S (List.length (sorted_unique l)).
Proof.
  intros H. change (sorted_unique (x :: l)) with (insert_unique x (sorted_unique l)).
  apply insert_unique_new.
  intros Hin. apply H. exact (proj1 (In_sorted_unique x l) Hin).
Qed.

Lemma sorted_unique_cons_old (x : Z) (l : list Z) :
  In x l -> sorted_unique (x :: l) = sorted_unique l.
Proof.
  intros H. apply sorted_unique_ext. intros z. simpl. split.
  - intros [E | Hz]; [subst z; exact H | exact Hz].
  - intros Hz. right. exact Hz.
Qed.

Lemma sorted_unique_NoDup_length (l : list Z) :
  NoDup l -> List.length (sorted_unique l) = List.length l.
Proof.
  induction 1 as [| x l Hnot Hnd IH].
  - reflexivity.
  - rewrite sorted_unique_cons_new by exact Hnot. simpl. rewrite IH.
    reflexivity.
Qed.

Lemma sorted_unique_length_le (l : list Z) :
  (List.length (sorted_unique l) <= List.length l)%nat.
Proof.
  induction l as [| x l IH]; [apply Nat.le_refl |].
  destruct (in_dec Z.eq_dec x l) as [Hin | Hnot].
  - rewrite sorted_unique_cons_old by exact Hin. simpl. lia.
  - rewrite sorted_unique_cons_new by exact Hnot. simpl. lia.
Qed.

Lemma dropna_map_Some {A B : Type} (f : A -> B) (l : list A) :
  dropna (map (fun a => Some (f a)) l) = map f l.
Proof.
  induction l as [| a l IH]; simpl; [reflexivity | rewrite IH; reflexivity].
Qed.

(* ===================================================================== *)
(** * Script 1: duplicates *)
(* ===================================================================== *)

Lemma length_filter_cons {A : Type} (p : A -> bool) (x : A) (l : list A) :
  List.length (filter p (x :: l))
  = ((if p x then 1 else 0) + List.length (filter p l))%nat.
Proof. cbn [filter]. destruct (p x); reflexivity. Qed.

Lemma count_true_cons (b : bool) (l : list bool) :
  count_true (b :: l) = ((if b then 1 else 0) + count_true l)%nat.
Proof. unfold count_true. destruct b; reflexivity. Qed.

(** Marked keys and distinct keys, with the keys already seen. *)
Lemma duplicated_from_count (seen l : list Z) :
  (count_true (duplicated_from Z.eqb seen l)
   + List.length (sorted_unique (seen ++ l))
   = List.length l + List.length (sorted_unique seen))%nat.
Proof.
  revert seen. induction l as [| x l IH]; intros seen.
  - rewrite app_nil_r. reflexivity.
  - cbn [duplicated_from]. rewrite count_true_cons.
    specialize (IH (x :: seen)).
    assert (E : sorted_unique (seen ++ x :: l)
                = sorted_unique ((x :: seen) ++ l)).
    { apply sorted_unique_ext. intros z. simpl.
      rewrite !in_app_iff. simpl. tauto. }
    rewrite E. destruct (existsb (Z.eqb x) seen) eqn:Ex.
    + apply existsb_Zeqb in Ex.
      rewrite (@sorted_unique_cons_old x seen Ex) in IH. cbv iota.
      change (List.length (x :: l)) with (S (List.length l)). lia.
    + assert (Hnot : ~ In x seen).
      { intros H. apply existsb_Zeqb in H. congruence. }
      rewrite (@sorted_unique_cons_new x seen Hnot) in IH. cbv iota.
      change (List.length (x :: l)) with (S (List.length l)). lia.
Qed.

Lemma duplicated_from_none (seen l : list Z) :
  count_true (duplicated_from Z.eqb seen l) = 0%nat <->
  NoDup l /\ (forall x, In x l -> ~ In x seen).
Proof.
  revert seen. induction l as [| x l IH]; intros seen.
  - simpl. split; [intros _ | reflexivity].
    split; [constructor | intros x []].
  - cbn [duplicated_from]. rewrite count_true_cons.
    destruct (existsb (Z.eqb x) seen) eqn:Ex.
    + apply existsb_Zeqb in Ex. cbv iota. split; [discriminate |].
      intros [_ H]. exfalso. apply (H x); [left; reflexivity | exact Ex].
    + assert (Hnot : ~ In x seen).
      { intros H. apply existsb_Zeqb in H. congruence. }
      cbv iota. simpl Nat.add. rewrite IH. split.
      * intros [Hnd Hd]. split.
        -- constructor; [| exact Hnd].
           intros Hx. apply (Hd x Hx). left. reflexivity.
        -- intros y [<- | Hy]; [exact Hnot |].
           intros Hs. apply (Hd y Hy). right. exact Hs.
      * intros [Hnd Hd]. inversion Hnd as [| x' l' Hx Hnd']; subst. split.
        -- exact Hnd'.
        -- intros y Hy [<- | Hs]; [contradiction |].
           apply (Hd y); [right; exact Hy | exact Hs].
Qed.

(** X1.  [check_duplicates], key column: the number of marked rows is the
    number of rows less the number of distinct keys, and it is 0 exactly
    when no key is repeated. *)
Theorem id_dupes_counts_repeated_keys {Row : Type}
    (row_eqb : Row -> Row -> bool) (key : Row -> Z) (df : list Row) :
  id_dupes (check_duplicates row_eqb (Some key) df)
  = Some (List.length df - nunique (map (fun r => Some (key r)) df))%nat
  /\ (nunique (map (fun r => Some (key r)) df) <= List.length df)%nat
  /\ (id_dupes (check_duplicates row_eqb (Some key) df) = Some 0%nat
      <-> NoDup (map key df)).
Proof.
  unfold check_duplicates, duplicated, nunique. cbn [id_dupes].
  rewrite dropna_map_Some.
  pose proof (duplicated_from_count [] (map key df)) as Hc.
  pose proof (sorted_unique_length_le (map key df)) as Hle.
  rewrite length_map in Hc, Hle.
  cbn [app] in Hc. change (sorted_unique []) with (@nil Z) in Hc.
  simpl List.length in Hc.
  split; [| split].
  - f_equal. lia.
  - exact Hle.
  - split.
    + intros H. injection H as H.
      apply duplicated_from_none in H. exact (proj1 H).
    + intros H. f_equal. apply duplicated_from_none.
      split; [exact H | intros x _ []].
Qed.

Lemma duplicated_from_key {Row : Type} (row_eqb : Row -> Row -> bool)
    (key : Row -> Z) (seen l : list Row) :
  (forall x y, row_eqb x y = true -> key x = key y) ->
  (count_true (duplicated_from row_eqb seen l)
   <= count_true (duplicated_from Z.eqb (map key seen) (map key l)))%nat.
Proof.
  intros Hkey. revert seen. induction l as [| x l IH]; intros seen.
  - apply Nat.le_refl.
  - cbn [duplicated_from map]. rewrite !count_true_cons.
    specialize (IH (x :: seen)). cbn [map] in IH.
    destruct (existsb (row_eqb x) seen) eqn:Ex.
    + apply existsb_exists in Ex. destruct Ex as [y [Hy Exy]].
      assert (E : existsb (Z.eqb (key x)) (map key seen) = true).
      { apply existsb_Zeqb. rewrite (Hkey x y Exy). apply in_map. exact Hy. }
      rewrite E. cbv iota. lia.
    + destruct (existsb (Z.eqb (key x)) (map key seen)); cbv iota; lia.
Qed.

(** X2.  [check_duplicates]: a row that repeats a whole earlier row repeats
    its key, so there are at most as many fully duplicated rows as
    duplicated keys; a table without duplicated keys has no duplicated
    row. *)
Theorem full_duplicates_repeat_their_key {Row : Type}
    (row_eqb : Row -> Row -> bool) (key : Row -> Z) (df : list Row) :
  (forall x y, row_eqb x y = true -> key x = key y) ->
  exists n,
    id_dupes (check_duplicates row_eqb (Some key) df) = Some n
    /\ (total_dupes (check_duplicates row_eqb (Some key) df) <= n)%nat
    /\ (NoDup (map key df) ->
        total_dupes (check_duplicates row_eqb (Some key) df) = 0%nat).
Proof.
  intros Hkey. unfold check_duplicates, duplicated.
  cbn [id_dupes total_dupes].
  pose proof (@duplicated_from_key Row row_eqb key [] df Hkey) as Hle.
  cbn [map] in Hle.
  eexists. split; [reflexivity |]. split; [exact Hle |].
  intros Hnd.
  assert (H0 : count_true (duplicated_from Z.eqb [] (map key df)) = 0%nat).
  { apply duplicated_from_none. split; [exact Hnd | intros x _ []]. }
  lia.
Qed.

Lemma cash_request_eqb_id (x y : CashRequest) :
  cash_request_eqb x y = true -> id x = id y.
Proof.
  unfold cash_request_eqb. intros H.
  repeat (apply andb_prop in H; destruct H as [H _]).
  apply Z.eqb_eq. exact H.
Qed.

(** X2 on a table in which request 21 is entered twice. *)
Lemma full_duplicates_repeat_their_key_witness :
  exists n,
    id_dupes (check_duplicates cash_request_eqb (Some id) repeated_requests)
    = Some n
    /\ (total_dupes
          (check_duplicates cash_request_eqb (Some id) repeated_requests)
        <= n)%nat
    /\ (NoDup (map id repeated_requests) ->
        total_dupes
          (check_duplicates cash_request_eqb (Some id) repeated_requests)
        = 0%nat).
Proof.
  exact (@full_duplicates_repeat_their_key CashRequest cash_request_eqb id
           repeated_requests cash_request_eqb_id).
Defined.

(** The ids of the cash table on their way through scripts 1 and 2. *)
Lemma unify_identity_ids (cash_df : list CashRequest) :
  map cash_request_id_of (map add_eda_columns (unify_identity cash_df))
  = map id cash_df.
Proof.
  unfold unify_identity. rewrite !map_map. apply map_ext. intros r.
  unfold cash_request_id_of, add_eda_columns, add_final_user_id,
    nullify_deleted_account_id.
  cbn [clean cash]. destruct (both_present r); reflexivity.
Qed.

(** The request ids of the merged table are those of the cash table. *)
Lemma merged_df_ids (cash_df : list EdaCash) (fees_df : list Fee) :
  total_cash_requests (merged_df cash_df fees_df)
  = List.length (sorted_unique (map cash_request_id_of cash_df)).
Proof.
  unfold total_cash_requests, nunique. rewrite dropna_map_Some.
  f_equal. apply sorted_unique_ext. intros z. rewrite !in_map_iff. split.
  - intros [r [E Hr]]. exists (fst r). split; [exact E |].
    apply In_left_merge in Hr. exact (proj1 Hr).
  - intros [c [E Hc]].
    destruct (left_merge_keeps
                (fun c f =>
                   key_eqb (Some (cash_request_id_of c)) (cash_request_id f))
                c cash_df fees_df Hc) as [o Ho].
    exists (c, o). split; [exact E | exact Ho].
Qed.

(** X3.  In[14] of script 1 and In[17] of script 2: when the duplicate check
    finds no duplicated id in the cash table, the number of cash
    requests counted after the merge is the number of rows of the cash
    table, whatever the fees are. *)
Theorem unique_ids_one_request_per_row (cash_df : list CashRequest)
    (fees_df : list Fee) :
  id_dupes (check_duplicates cash_request_eqb (Some id) cash_df)
  = Some 0%nat ->
  total_cash_requests
    (merged_df (map add_eda_columns (unify_identity cash_df)) fees_df)
  = List.length cash_df.
Proof.
  intros H. unfold check_duplicates, duplicated in H. cbn [id_dupes] in H.
  injection H as H. apply duplicated_from_none in H. destruct H as [Hnd _].
  rewrite merged_df_ids, unify_identity_ids.
  rewrite (@sorted_unique_NoDup_length (map id cash_df) Hnd). apply length_map.
Qed.

(** X3 on the scenario of the specification: three requests, four fees. *)
Lemma unique_ids_one_request_per_row_witness :
  id_dupes (check_duplicates cash_request_eqb (Some id) scenario_requests)
  = Some 0%nat
  /\ total_cash_requests
       (merged_df (map add_eda_columns (unify_identity scenario_requests))
                  scenario_fees)
     = 3%nat.
Proof.
  split; [reflexivity |].
  exact (@unique_ids_one_request_per_row scenario_requests scenario_fees
           eq_refl).
Defined.

(* ===================================================================== *)
(** * Script 1: the identity columns *)
(* ===================================================================== *)

(** X4.  In[17] and In[19]: every row falls in exactly one of the four
    counts; nulling [deleted_account_id] on the rows that have both ids
    leaves no such row, moves them to the rows with [user_id] only, and
    changes neither the other two counts nor the number of rows. *)
Theorem identity_counts_partition (cash_df : list CashRequest) :
  let before := identity_counts cash_df in
  let after := identity_counts (map nullify_deleted_account_id cash_df) in
  (n_both_present before + n_both_missing before
   + n_user_only before + n_deleted_only before = total_rows before)%nat
  /\ total_rows after = total_rows before
  /\ n_both_present after = 0%nat
  /\ n_user_only after = (n_user_only before + n_both_present before)%nat
  /\ n_both_missing after = n_both_missing before
  /\ n_deleted_only after = n_deleted_only before.
Proof.
  unfold identity_counts.
  cbn [total_rows n_both_present n_both_missing n_user_only n_deleted_only].
  induction cash_df as [| r cash_df IH].
  - repeat split.
  - destruct IH as [H1 [H2 [H3 [H4 [H5 H6]]]]].
    cbn [map]. rewrite !length_filter_cons. cbn [List.length].
    destruct r as [i a s tr c [u |] [d |] rs];
      cbv [nullify_deleted_account_id both_present both_missing user_only
           deleted_only notnull isnull negb andb user_id deleted_account_id]
        in *;
      repeat split; lia.
Qed.

Lemma missing_final_ids_both_missing (cash_df : list CashRequest) :
  missing_final_ids (unify_identity cash_df)
  = n_both_missing (identity_counts cash_df).
Proof.
  unfold missing_final_ids, unify_identity, identity_counts.
  cbn [n_both_missing].
  induction cash_df as [| r cash_df IH]; [reflexivity |].
  cbn [map]. rewrite !length_filter_cons, IH. f_equal.
  destruct r as [i a s tr c [u |] [d |] rs]; reflexivity.
Qed.

(** What script 1 prints, in order, and what it saves.  The dates are
    parsed before anything is counted. *)
Lemma cleaning_script_output (cash_df : list CashRequest)
    (fees_df : list Fee) :
  let parsed := unify_identity (map parse_dates cash_df) in
  Cleaning.script (Some cash_df) (Some fees_df)
  = Finished
      [RowsWithBothIds
         (List.length (filter both_present (map parse_dates cash_df)));
       MissingFinalIds (missing_final_ids parsed);
       (if (0 <? missing_final_ids parsed)%nat
        then SampleMissingFinalIds
               (firstn 5 (filter (fun r => isnull (final_user_id r)) parsed))
        else AllFinalIdsValid);
       UnmatchedCashRequestIds
         (nunique (map cash_request_id (unmatched_ids parsed fees_df)))
         (List.length (unmatched_ids parsed fees_df));
       (match unmatched_ids parsed fees_df with
        | [] => NoUnmatchedCashRequestIds
        | _ => SampleUnmatched (firstn 5 (unmatched_ids parsed fees_df))
        end);
       DroppedMissingCashRequestId
         (List.length fees_df
          - List.length (drop_missing_cash_request_id fees_df))]
      {| clean_cash_requests := map clean_cash_row parsed;
         clean_fees :=
           map clean_fee_categoricals
               (drop_missing_cash_request_id fees_df) |}.
Proof.
  cbv zeta. unfold Cleaning.script, read_csv, safe_print, ret, bind.
  destruct (0 <? missing_final_ids
                   (unify_identity (map parse_dates cash_df)))%nat;
    destruct (unmatched_ids (unify_identity (map parse_dates cash_df))
                            fees_df);
    reflexivity.
Qed.

(** X5.  In[21]: the rows reported as missing a [final_user_id] are the rows
    of the raw table that have neither [user_id] nor
    [deleted_account_id], as counted in In[17]; script 1 prints that all
    rows are valid exactly when that count is 0, and a sample of the
    rows otherwise. *)
Theorem missing_final_ids_are_rows_without_identity
    (cash_df : list CashRequest) (fees_df : list Fee) :
  missing_final_ids (unify_identity cash_df)
  = n_both_missing (identity_counts cash_df)
  /\ exists out cleaned,
       Cleaning.script (Some cash_df) (Some fees_df) = Finished out cleaned
       /\ In (MissingFinalIds (n_both_missing (identity_counts cash_df))) out
       /\ (In AllFinalIdsValid out
           <-> n_both_missing (identity_counts cash_df) = 0%nat)
       /\ ((exists sample, In (SampleMissingFinalIds sample) out)
           <-> (0 < n_both_missing (identity_counts cash_df))%nat).
Proof.
  split; [apply missing_final_ids_both_missing |].
  rewrite <- missing_final_ids_both_missing.
  rewrite <- (missing_final_ids_parse_dates cash_df).
  pose proof (cleaning_script_output cash_df fees_df) as Hout.
  cbv zeta in Hout. rewrite Hout. clear Hout.
  set (parsed := unify_identity (map parse_dates cash_df)).
  eexists. eexists.
  split; [reflexivity |].
  split; [right; left; reflexivity |].
  destruct (0 <? missing_final_ids parsed)%nat eqn:E;
    [apply Nat.ltb_lt in E | apply Nat.ltb_ge in E].
  - split; split.
    + intros H.
      destruct (unmatched_ids parsed fees_df);
        repeat (destruct H as [H | H]; [discriminate H |]); destruct H.
    + intros H. lia.
    + intros _. exact E.
    + intros _. eexists. right. right. left. reflexivity.
  - split; split.
    + intros _. lia.
    + intros _. right. right. left. reflexivity.
    + intros [sample H].
      destruct (unmatched_ids parsed fees_df);
        repeat (destruct H as [H | H]; [discriminate H |]); destruct H.
    + intros H. lia.
Qed.

(* ===================================================================== *)
(** * Script 1: the categorical columns *)
(* ===================================================================== *)

Lemma lower_char_idem (c : ascii) : lower_char (lower_char c) = lower_char c.
Proof. destruct c as [[] [] [] [] [] [] [] []]; reflexivity. Qed.

Lemma is_space_lower_char (c : ascii) : is_space (lower_char c) = is_space c.
Proof. destruct c as [[] [] [] [] [] [] [] []]; reflexivity. Qed.

Lemma lower_idem (s : string) : lower (lower s) = lower s.
Proof.
  induction s as [| c s IH]; simpl; [reflexivity |].
  rewrite lower_char_idem, IH. reflexivity.
Qed.

Lemma lower_lstrip (s : string) : lower (lstrip s) = lstrip (lower s).
Proof.
  induction s as [| c s IH]; simpl; [reflexivity |].
  rewrite is_space_lower_char. destruct (is_space c); [exact IH | reflexivity].
Qed.

Lemma rstrip_cons (c : ascii) (s : string) :
  rstrip (String c s)
  = match rstrip s with
    | EmptyString => if is_space c then EmptyString else String c EmptyString
    | rest => String c rest
    end.
Proof. reflexivity. Qed.

Lemma lower_rstrip (s : string) : lower (rstrip s) = rstrip (lower s).
Proof.
  induction s as [| c s IH]; [reflexivity |].
  cbn [lower]. rewrite !rstrip_cons, <- IH.
  destruct (rstrip s) as [| c' rest]; cbn [lower].
  - rewrite is_space_lower_char. destruct (is_space c); reflexivity.
  - reflexivity.
Qed.

Lemma lower_strip (s : string) : lower (strip s) = strip (lower s).
Proof. unfold strip. rewrite lower_lstrip, lower_rstrip. reflexivity. Qed.

Lemma lstrip_idem (s : string) : lstrip (lstrip s) = lstrip s.
Proof.
  induction s as [| c s IH]; simpl; [reflexivity |].
  destruct (is_space c) eqn:E; [exact IH |]. simpl. rewrite E. reflexivity.
Qed.

Lemma rstrip_idem (s : string) : rstrip (rstrip s) = rstrip s.
Proof.
  induction s as [| c s IH]; [reflexivity |].
  rewrite rstrip_cons. destruct (rstrip s) as [| c' rest] eqn:E.
  - destruct (is_space c) eqn:Ec; [reflexivity |].
    rewrite rstrip_cons. cbn [rstrip]. rewrite Ec. reflexivity.
  - rewrite rstrip_cons, IH. reflexivity.
Qed.

(** Stripping the left end of a text that has no white space at its
    right end leaves none there. *)
Lemma rstrip_lstrip (t : string) : rstrip t = t -> rstrip (lstrip t) = lstrip t.
Proof.
  induction t as [| c t IH]; intros H; [reflexivity |].
  cbn [lstrip]. destruct (is_space c) eqn:Ec; [| exact H].
  apply IH. rewrite rstrip_cons in H.
  destruct (rstrip t) as [| c' rest] eqn:E.
  - rewrite Ec in H. discriminate H.
  - injection H as H. exact H.
Qed.

Lemma strip_idem (s : string) : strip (strip s) = strip s.
Proof.
  unfold strip.
  rewrite (@rstrip_lstrip (rstrip s) (rstrip_idem s)). apply lstrip_idem.
Qed.

Lemma clean_categorical_column_Some (v : option string) (t : string) :
  clean_categorical_column v = Some t ->
  t = strip (lower (astype_str v)) /\ String.eqb t "nan" = false.
Proof.
  unfold clean_categorical_column.
  destruct (String.eqb (strip (lower (astype_str v))) "nan") eqn:E;
    [discriminate |].
  intros H. injection H as <-. split; [reflexivity | exact E].
Qed.

Lemma clean_categorical_column_fixed (t : string) :
  lower t = t -> strip t = t -> String.eqb t "nan" = false ->
  clean_categorical_column (Some t) = Some t.
Proof.
  intros Hl Hs Hn. unfold clean_categorical_column. cbn [astype_str].
  rewrite Hl, Hs, Hn. reflexivity.
Qed.

Lemma clean_categorical_column_idem (v : option string) :
  clean_categorical_column (clean_categorical_column v)
  = clean_categorical_column v.
Proof.
  destruct (clean_categorical_column v) as [t |] eqn:E; [| reflexivity].
  apply clean_categorical_column_Some in E. destruct E as [-> Hn].
  apply clean_categorical_column_fixed.
  - rewrite lower_strip, lower_idem. reflexivity.
  - apply strip_idem.
  - exact Hn.
Qed.

(** X6.  [clean_categorical_column]: a missing value stays missing; a value
    that is kept is in lower case, has no white space at either end and
    is not the text ['nan']; a value is lost exactly when it reads
    ['nan'] once lowered and stripped; cleaning a cleaned value changes
    nothing. *)
Theorem clean_categorical_column_normal_form (v : option string) :
  clean_categorical_column None = None
  /\ (forall t,
        clean_categorical_column v = Some t ->
        lower t = t /\ strip t = t /\ t <> "nan"%string)
  /\ (clean_categorical_column v = None
      <-> strip (lower (astype_str v)) = "nan"%string)
  /\ clean_categorical_column (clean_categorical_column v)
     = clean_categorical_column v.
Proof.
  split; [reflexivity |]. split; [| split].
  - intros t H. apply clean_categorical_column_Some in H.
    destruct H as [-> Hn]. split; [| split].
    + rewrite lower_strip, lower_idem. reflexivity.
    + apply strip_idem.
    + intros E. rewrite E in Hn. discriminate Hn.
  - unfold clean_categorical_column.
    destruct (String.eqb (strip (lower (astype_str v))) "nan") eqn:E.
    + apply String.eqb_eq in E. split; [intros _; exact E | reflexivity].
    + split; [discriminate |]. intros H. rewrite H in E. discriminate E.
  - apply clean_categorical_column_idem.
Qed.

Lemma clean_cash_categoricals_unify (r : CashRequest) :
  add_final_user_id (nullify_deleted_account_id (clean_cash_categoricals r))
  = {| cash :=
         clean_cash_categoricals
           (cash (add_final_user_id (nullify_deleted_account_id r)));
       final_user_id :=
         final_user_id (add_final_user_id (nullify_deleted_account_id r)) |}.
Proof. destruct r as [i a s tr c [u |] [d |] rs]; reflexivity. Qed.

(** X7.  In[26] on the cash table: the cleaning of the categorical columns
    can run before or after the identity columns are unified, it
    changes neither an id, a date, an amount nor a [final_user_id],
    never turns a request without [recovery_status] into one with it,
    and running it twice is running it once. *)
Theorem categorical_cleaning_keeps_identities (cash_df : list CashRequest) :
  unify_identity (map clean_cash_categoricals cash_df)
  = map (fun r =>
           {| cash := clean_cash_categoricals (cash r);
              final_user_id := final_user_id r |})
        (unify_identity cash_df)
  /\ missing_final_ids (unify_identity (map clean_cash_categoricals cash_df))
     = missing_final_ids (unify_identity cash_df)
  /\ map clean_cash_categoricals (map clean_cash_categoricals cash_df)
     = map clean_cash_categoricals cash_df
  /\ Forall2
       (fun raw out =>
          id out = id raw
          /\ created_at out = created_at raw
          /\ amount out = amount raw
          /\ user_id out = user_id raw
          /\ deleted_account_id out = deleted_account_id raw
          /\ (recovery_status raw = None -> recovery_status out = None))
       cash_df (map clean_cash_categoricals cash_df).
Proof.
  assert (E : unify_identity (map clean_cash_categoricals cash_df)
              = map (fun r =>
                       {| cash := clean_cash_categoricals (cash r);
                          final_user_id := final_user_id r |})
                    (unify_identity cash_df)).
  { unfold unify_identity. rewrite !map_map. apply map_ext. intros r.
    apply clean_cash_categoricals_unify. }
  split; [exact E |]. split; [| split].
  - rewrite E. unfold missing_final_ids.
    rewrite filter_map_commute, length_map. reflexivity.
  - rewrite map_map. apply map_ext. intros r.
    unfold clean_cash_categoricals.
    cbn [id amount status transfer_type created_at user_id
         deleted_account_id recovery_status].
    rewrite !clean_categorical_column_idem. reflexivity.
  - clear E. induction cash_df as [| r cash_df IH]; cbn [map];
      constructor; [| exact IH].
    unfold clean_cash_categoricals.
    cbn [id amount status transfer_type created_at user_id
         deleted_account_id recovery_status].
    repeat split. intros H. rewrite H. reflexivity.
Qed.

(* ===================================================================== *)
(** * Script 1: the monetary check and the revenue of script 3 *)
(* ===================================================================== *)

(** The fee of a row of the cohort-tagged table is a row of the fee
    table. *)
Lemma cohort_table_fee (cash_df : list CleanCash) (fees_df : list Fee)
    (r : CohortRow) (f : Fee) :
  In r (cohort_table cash_df fees_df) -> snd (fst r) = Some f ->
  In f fees_df
  /\ cash_request_id f = Some (cash_request_id_of (fst (fst r))).
Proof.
  intros Hr Hf. unfold cohort_table, merged_cash_fee_cohort in Hr.
  apply In_left_merge in Hr. destruct Hr as [Hm _].
  unfold merged_df in Hm. apply In_left_merge in Hm.
  destruct Hm as [_ Hm]. rewrite Hf in Hm. destruct Hm as [Hin Hon].
  split; [exact Hin |]. apply key_eqb_Some_l in Hon. exact Hon.
Qed.

Lemma non_positive_false (a : Q) :
  non_positive (Some a) = false -> (0 < a)%Q.
Proof.
  cbn [non_positive]. intros H. apply Qnot_le_lt. intros Hle.
  apply Qle_bool_iff in Hle. congruence.
Qed.

Lemma revenue_nonneg_of_positive_amounts (df : list CohortRow) :
  Forall (fun r =>
            match row_total_amount r with
            | Some a => (0 < a)%Q
            | None => True
            end)
         (accepted_fees df) ->
  Forall (fun x => (0 <= x)%Q) (map snd (cohort_revenue df)).
Proof.
  intros Hpos. rewrite cohort_revenue_rows, map_map. cbn [snd].
  apply Forall_forall. intros x Hx. apply in_map_iff in Hx.
  destruct Hx as [c [<- _]]. apply nansum_nonneg.
  apply Forall_forall. intros o Ho. apply in_map_iff in Ho.
  destruct Ho as [r [<- Hr]]. unfold rows_of_cohort in Hr.
  apply filter_In in Hr. destruct Hr as [Hr _].
  rewrite Forall_forall in Hpos. exact (Hpos r Hr).
Qed.

(** X8.  In[27] of script 1 and In[19], In[21] of script 3: when the check of
    the monetary columns finds no fee with a zero or negative
    [total_amount], no cohort has a negative revenue and the cumulative
    revenue never decreases from one cohort to the next. *)
Theorem positive_fees_give_growing_revenue (cash_df : list CleanCash)
    (fees_df : list Fee) :
  invalid_fees fees_df = [] ->
  Forall (fun cv => (0 <= snd cv)%Q)
         (out_cohort_revenue (pipeline_metrics cash_df fees_df))
  /\ Sorted Qle
       (map cumulative_revenue
            (out_revenue_df (pipeline_metrics cash_df fees_df))).
Proof.
  intros Hvalid. unfold pipeline_metrics, metrics.
  cbn [out_cohort_revenue out_revenue_df].
  set (df := cohort_table cash_df fees_df).
  assert (Hpos : Forall (fun r =>
                           match row_total_amount r with
                           | Some a => (0 < a)%Q
                           | None => True
                           end)
                        (accepted_fees df)).
  { apply Forall_forall. intros r Hr. unfold accepted_fees in Hr.
    apply filter_In in Hr. destruct Hr as [Hr _].
    unfold row_total_amount. destruct (snd (fst r)) as [f |] eqn:Ef;
      [| exact I].
    destruct (total_amount f) as [a |] eqn:Ea; [| exact I].
    destruct (cohort_table_fee cash_df fees_df r Hr Ef) as [Hf _].
    apply non_positive_false. rewrite <- Ea.
    destruct (non_positive (total_amount f)) eqn:En; [| reflexivity].
    assert (Hin : In f (invalid_fees fees_df)).
    { apply filter_In. split; [exact Hf | exact En]. }
    rewrite Hvalid in Hin. destruct Hin. }
  pose proof (revenue_nonneg_of_positive_amounts df Hpos) as Hnn.
  split.
  - apply Forall_forall. intros cv Hcv. rewrite Forall_forall in Hnn.
    apply Hnn. apply in_map. exact Hcv.
  - rewrite (proj2 (revenue_df_columns df)). unfold cumsum.
    apply cumsum_from_non_decreasing, Hnn.
Qed.

(** X8 on the scenario of the specification. *)
Lemma positive_fees_give_growing_revenue_witness :
  invalid_fees scenario_fees = []
  /\ Sorted Qle
       (map cumulative_revenue
            (out_revenue_df (pipeline_metrics scenario_cash scenario_fees))).
Proof.
  split; [reflexivity |].
  exact (proj2 (@positive_fees_give_growing_revenue scenario_cash
                  scenario_fees eq_refl)).
Defined.

(* ===================================================================== *)
(** * Script 1: the order of the columns *)
(* ===================================================================== *)

Lemma has_column_In (cols : list string) (c : string) :
  has_column cols c = true <-> In c cols.
Proof.
  unfold has_column. rewrite existsb_exists. split.
  - intros [y [Hy E]]. apply String.eqb_eq in E. subst y. exact Hy.
  - intros H. exists c. split; [exact H | apply String.eqb_refl].
Qed.

Lemma select_columns_Some (cols wanted : list string) :
  (forall c, In c wanted -> In c cols) ->
  select_columns cols wanted = Some wanted.
Proof.
  intros H. unfold select_columns.
  replace (forallb (has_column cols) wanted) with true; [reflexivity |].
  symmetry. apply forallb_forall. intros c Hc. apply has_column_In, H, Hc.
Qed.

Lemma select_columns_None (cols wanted : list string) (c : string) :
  In c wanted -> ~ In c cols -> select_columns cols wanted = None.
Proof.
  intros Hc Hnot. unfold select_columns.
  destruct (forallb (has_column cols) wanted) eqn:E; [| reflexivity].
  exfalso. apply Hnot. apply has_column_In.
  rewrite forallb_forall in E. exact (E c Hc).
Qed.

(** X9.  In[28]: when the table has every primary column, the reordered
    table has the primary columns first, in the order given, then the
    other columns in the order they had, and it has every column of the
    table once: no column is lost or doubled.  When a primary column is
    not in the table, the selection raises. *)
Theorem reorder_columns_keeps_every_column (primary cols : list string) :
  NoDup primary -> NoDup cols ->
  ((forall c, In c primary -> In c cols) ->
   exists reordered,
     reorder_columns primary cols = Some reordered
     /\ firstn (List.length primary) reordered = primary
     /\ skipn (List.length primary) reordered
        = filter (fun c => negb (has_column primary c)) cols
     /\ Permutation cols reordered)
  /\ (forall c, In c primary -> ~ In c cols ->
      reorder_columns primary cols = None).
Proof.
  intros Hp Hc. unfold reorder_columns. split.
  - intros Hincl. eexists. split; [| split; [| split]].
    + apply select_columns_Some. intros c Hin.
      apply in_app_iff in Hin. destruct Hin as [Hin | Hin].
      * apply Hincl, Hin.
      * apply filter_In in Hin. exact (proj1 Hin).
    + rewrite firstn_app, Nat.sub_diag, firstn_all. cbn [firstn].
      apply app_nil_r.
    + rewrite skipn_app, Nat.sub_diag, skipn_all. reflexivity.
    + apply NoDup_Permutation; [exact Hc | |].
      * apply NoDup_app; [exact Hp | |].
        -- apply NoDup_filter, Hc.
        -- intros c Hin Hin'. apply filter_In in Hin'.
           destruct Hin' as [_ Hneg].
           apply has_column_In in Hin. rewrite Hin in Hneg.
           discriminate Hneg.
      * intros c. rewrite in_app_iff, filter_In. split.
        -- intros Hin. destruct (has_column primary c) eqn:E.
           ++ left. apply has_column_In, E.
           ++ right. split; [exact Hin | reflexivity].
        -- intros [Hin | [Hin _]]; [apply Hincl, Hin | exact Hin].
  - intros c Hin Hnot. apply (@select_columns_None cols _ c).
    + apply in_app_iff. left. exact Hin.
    + exact Hnot.
Qed.

(** X9 on the columns of the cash table. *)
Lemma reorder_columns_keeps_every_column_witness :
  exists reordered,
    reorder_columns cash_primary_cols raw_cash_columns = Some reordered
    /\ firstn (List.length cash_primary_cols) reordered = cash_primary_cols
    /\ skipn (List.length cash_primary_cols) reordered
       = filter (fun c => negb (has_column cash_primary_cols c))
                raw_cash_columns
    /\ Permutation raw_cash_columns reordered.
Proof.
  assert (Hp : NoDup cash_primary_cols).
  { unfold cash_primary_cols.
    repeat (constructor;
            [simpl; intros H;
             repeat (destruct H as [H | H]; [discriminate H |]); exact H |]).
    constructor. }
  assert (Hc : NoDup raw_cash_columns).
  { unfold raw_cash_columns.
    repeat (constructor;
            [simpl; intros H;
             repeat (destruct H as [H | H]; [discriminate H |]); exact H |]).
    constructor. }
  apply (proj1 (@reorder_columns_keeps_every_column cash_primary_cols
                  raw_cash_columns Hp Hc)).
  intros c Hin. apply has_column_In.
  unfold cash_primary_cols in Hin. simpl in Hin.
  repeat (destruct Hin as [<- | Hin]; [reflexivity |]). destruct Hin.
Defined.

(* ===================================================================== *)
(** * Script 2: the monthly summary *)
(* ===================================================================== *)

Lemma filter_true {A : Type} (p : A -> bool) (l : list A) :
  (forall x, In x l -> p x = true) -> filter p l = l.
Proof.
  induction l as [| x l IH]; intros H; simpl; [reflexivity |].
  rewrite (H x (or_introl eq_refl)), IH; [reflexivity |].
  intros y Hy. apply H. right. exact Hy.
Qed.

(** The one partner of a key in a table that has one row per key. *)
Lemma filter_keyed {R : Type} (g : Z -> R) (kr : R -> Z) (keys : list Z)
    (k : Z) :
  (forall z, kr (g z) = z) -> NoDup keys -> In k keys ->
  filter (fun r => k =? kr r) (map g keys) = [g k].
Proof.
  intros Hk. induction keys as [| z keys IH]; intros Hnd Hin;
    [destruct Hin |].
  inversion Hnd as [| z' keys' Hnot Hnd']; subst.
  cbn [map filter]. rewrite Hk. destruct (k =? z) eqn:E.
  - apply Z.eqb_eq in E. subst z. f_equal.
    apply filter_nil. intros r Hr. apply in_map_iff in Hr.
    destruct Hr as [z [<- Hz]]. rewrite Hk. apply Z.eqb_neq.
    intros ->. contradiction.
  - apply IH; [exact Hnd' |]. destruct Hin as [-> | Hin]; [| exact Hin].
    rewrite Z.eqb_refl in E. discriminate E.
Qed.

(** The inner join of two tables that have one row for each of the same
    keys pairs the rows key by key. *)
Lemma inner_merge_same_keys {L R : Type} (f : Z -> L) (g : Z -> R)
    (kl : L -> Z) (kr : R -> Z) (keys : list Z) :
  (forall z, kl (f z) = z) -> (forall z, kr (g z) = z) -> NoDup keys ->
  inner_merge (fun l r => kl l =? kr r) (map f keys) (map g keys)
  = map (fun k => (f k, g k)) keys.
Proof.
  intros Hl Hr Hnd. unfold inner_merge.
  rewrite flat_map_concat_map, map_map.
  assert (E : map (fun k =>
                     map (fun r => (f k, r))
                         (filter (fun r => kl (f k) =? kr r) (map g keys)))
                  keys
              = map (fun k => [(f k, g k)]) keys).
  { apply map_ext_in. intros k Hin. rewrite Hl.
    rewrite (@filter_keyed R g kr keys k Hr Hnd Hin). reflexivity. }
  rewrite E. clear E. induction keys as [| k keys IH]; [reflexivity |].
  cbn [map List.concat app]. f_equal. apply IH.
  inversion Hnd; assumption.
Qed.

Lemma monthly_summary_rows (cash_df : list CleanCash) :
  monthly_summary cash_df
  = map (fun m =>
           {| summary_month := m;
              cash_requests :=
                Z.of_nat (List.length (rows_of_month m cash_df));
              summary_amount :=
                nansum (map (fun r => amount (cash r))
                            (rows_of_month m cash_df)) |})
        (months_of cash_df).
Proof.
  unfold monthly_summary, monthly_requests, monthly_amount, months_of.
  rewrite (@inner_merge_same_keys _ _
             (fun m => (m, Z.of_nat (List.length (rows_of_month m cash_df))))
             (fun m => (m, nansum (map (fun r => amount (cash r))
                                       (rows_of_month m cash_df))))
             fst fst (sorted_unique (dropna (map month_of cash_df))));
    [| reflexivity | reflexivity | apply sorted_unique_NoDup].
  rewrite map_map. cbn [fst snd].
  apply sort_values_sorted. rewrite map_map. cbn [summary_month].
  rewrite map_id. apply strictly_sorted_Sorted_le, sorted_unique_sorted.
Qed.

(** X10.  In[8]: the monthly summary has one row for each month in which
    a dated request was created, months ascending; every row counts at
    least one request.  A request without a date is in no month: the
    counts add up to the number of dated rows of the cash table, which is
    the number of its rows exactly when every row is dated, and the
    amounts add up to the sum of the column [amount] over the dated
    rows. *)
Theorem monthly_summary_totals (cash_df : list CleanCash) :
  let dated := filter (fun r => notnull (month_of r)) cash_df in
  map summary_month (monthly_summary cash_df) = months_of cash_df
  /\ StronglySorted Z.lt (map summary_month (monthly_summary cash_df))
  /\ Forall (fun row => 0 < cash_requests row) (monthly_summary cash_df)
  /\ sumZ (map cash_requests (monthly_summary cash_df))
     = Z.of_nat (List.length dated)
  /\ (sumZ (map cash_requests (monthly_summary cash_df))
      = Z.of_nat (List.length cash_df)
      <-> forallb (fun r => notnull (month_of r)) cash_df = true)
  /\ (sumQ (map summary_amount (monthly_summary cash_df))
      == nansum (map (fun r => amount (cash r)) dated))%Q.
Proof.
  cbv zeta. rewrite monthly_summary_rows.
  assert (Hm : map summary_month
                   (map (fun m =>
                           {| summary_month := m;
                              cash_requests :=
                                Z.of_nat (List.length (rows_of_month m cash_df));
                              summary_amount :=
                                nansum (map (fun r => amount (cash r))
                                            (rows_of_month m cash_df)) |})
                        (months_of cash_df))
               = months_of cash_df).
  { rewrite map_map. cbn [summary_month]. apply map_id. }
  assert (Hcount : sumZ (map cash_requests
                     (map (fun m =>
                           {| summary_month := m;
                              cash_requests :=
                                Z.of_nat (List.length (rows_of_month m cash_df));
                              summary_amount :=
                                nansum (map (fun r => amount (cash r))
                                            (rows_of_month m cash_df)) |})
                        (months_of cash_df)))
                   = Z.of_nat (List.length
                        (filter (fun r => notnull (month_of r)) cash_df))).
  { rewrite map_map. cbn [cash_requests].
    exact (count_by_key month_of cash_df). }
  split; [exact Hm |]. split; [rewrite Hm; apply sorted_unique_sorted |].
  split; [| split; [exact Hcount | split]].
  - apply Forall_forall. intros row Hrow. apply in_map_iff in Hrow.
    destruct Hrow as [m [<- Hin]]. cbn [cash_requests].
    apply In_sorted_unique, In_dropna, in_map_iff in Hin.
    destruct Hin as [r [E Hr]].
    assert (Hr' : In r (rows_of_month m cash_df)).
    { apply filter_In. split; [exact Hr | apply key_eqb_Some, E]. }
    destruct (rows_of_month m cash_df); [destruct Hr' |].
    simpl List.length. lia.
  - rewrite Hcount. split.
    + intros H. apply Nat2Z.inj in H.
      apply forallb_forall. intros r Hr.
      destruct (notnull (month_of r)) eqn:E; [reflexivity | exfalso].
      clear Hm Hcount. induction cash_df as [| x l IH]; [destruct Hr |].
      cbn [filter List.length] in H.
      pose proof (filter_length_le (fun r => notnull (month_of r)) l) as Hle.
      destruct (notnull (month_of x)) eqn:Ex; cbn [List.length] in H.
      * destruct Hr as [-> | Hr]; [congruence |].
        apply IH; [lia | exact Hr].
      * lia.
    + intros H. rewrite filter_true; [reflexivity |].
      exact (proj1 (forallb_forall _ _) H).
  - rewrite map_map. cbn [summary_amount].
    exact (nansum_by_key month_of (fun r => amount (cash r)) cash_df).
Qed.

(* ===================================================================== *)
(** * Script 2: what the left join does with the fees *)
(* ===================================================================== *)

Lemma filter_filter_implied {A : Type} (p q : A -> bool) (l : list A) :
  (forall x, In x l -> p x = true -> q x = true) ->
  filter p (filter q l) = filter p l.
Proof.
  induction l as [| x l IH]; intros H; [reflexivity |].
  assert (IH' : filter p (filter q l) = filter p l)
    by (apply IH; intros y Hy; apply H; right; exact Hy).
  cbn [filter]. destruct (q x) eqn:Eq.
  - cbn [filter]. rewrite IH'. reflexivity.
  - destruct (p x) eqn:Ep; [| exact IH'].
    rewrite (H x (or_introl eq_refl) Ep) in Eq. discriminate Eq.
Qed.

Lemma flat_map_ext_In {A B : Type} (f g : A -> list B) (l : list A) :
  (forall a, In a l -> f a = g a) -> flat_map f l = flat_map g l.
Proof.
  induction l as [| a l IH]; intros H; [reflexivity |].
  cbn [flat_map]. rewrite (H a (or_introl eq_refl)), IH; [reflexivity |].
  intros b Hb. apply H. right. exact Hb.
Qed.

(** Right rows that pair with no left row can be dropped before a left
    merge. *)
Lemma left_merge_filter_right {L R : Type} (on : L -> R -> bool)
    (p : R -> bool) (left : list L) (right : list R) :
  (forall l r, In l left -> In r right -> on l r = true -> p r = true) ->
  left_merge on left (filter p right) = left_merge on left right.
Proof.
  intros H. unfold left_merge. apply flat_map_ext_In. intros l Hl.
  rewrite filter_filter_implied; [reflexivity |].
  intros r Hr. apply H; assumption.
Qed.

Lemma is_linked_existsb (cash_df : list EdaCash) (f : Fee) :
  is_linked cash_df f
  = existsb
      (fun c => key_eqb (Some (cash_request_id_of c)) (cash_request_id f))
      cash_df.
Proof.
  unfold is_linked, isin. destruct (cash_request_id f) as [x |].
  - induction cash_df as [| c cash_df IH]; [reflexivity |].
    cbn [map existsb key_eqb]. rewrite IH, (Z.eqb_sym x). reflexivity.
  - induction cash_df as [| c cash_df IH]; [reflexivity |].
    cbn [existsb key_eqb]. exact IH.
Qed.

Lemma is_linked_of_match (cash_df : list EdaCash) (c : EdaCash) (f : Fee) :
  In c cash_df ->
  key_eqb (Some (cash_request_id_of c)) (cash_request_id f) = true ->
  is_linked cash_df f = true.
Proof.
  intros Hc Hon. rewrite is_linked_existsb. apply existsb_exists.
  exists c. split; assumption.
Qed.

(** The fees of the rows of a left merge, left row by left row. *)
Lemma merged_fees_flat_map (cash_df : list EdaCash) (fees_df : list Fee) :
  merged_fees (merged_df cash_df fees_df)
  = flat_map
      (fun c =>
         filter
           (fun f => key_eqb (Some (cash_request_id_of c)) (cash_request_id f))
           fees_df)
      cash_df.
Proof.
  unfold merged_fees, merged_df, left_merge.
  induction cash_df as [| c cash_df IH]; [reflexivity |].
  cbn [flat_map]. rewrite map_app.
  assert (Happ : forall (a b : list (option Fee)),
             dropna (a ++ b) = dropna a ++ dropna b).
  { intros a b. induction a as [| [x |] a IHa]; simpl;
      [reflexivity | rewrite IHa; reflexivity | exact IHa]. }
  rewrite Happ, IH. f_equal.
  destruct (filter
              (fun f =>
                 key_eqb (Some (cash_request_id_of c)) (cash_request_id f))
              fees_df) as [| f ms]; [reflexivity |].
  rewrite map_map. cbn [snd].
  rewrite (dropna_map_Some (fun x : Fee => x) (f :: ms)). apply map_id.
Qed.

Lemma filter_or_perm {A : Type} (p q : A -> bool) (l : list A) :
  (forall x, In x l -> p x = true -> q x = false) ->
  Permutation (filter p l ++ filter q l) (filter (fun x => p x || q x) l).
Proof.
  induction l as [| x l IH]; intros H; [constructor |].
  assert (IH' : Permutation (filter p l ++ filter q l)
                            (filter (fun x => p x || q x) l))
    by (apply IH; intros y Hy; apply H; right; exact Hy).
  cbn [filter]. destruct (p x) eqn:Ep.
  - rewrite (H x (or_introl eq_refl) Ep). cbn [orb app].
    apply perm_skip. exact IH'.
  - destruct (q x) eqn:Eq; cbn [orb]; [| exact IH'].
    apply Permutation_sym. apply Permutation_cons_app.
    apply Permutation_sym. exact IH'.
Qed.

(** With distinct request ids a fee pairs with one request at most. *)
Lemma linked_fees_perm (cash_df : list EdaCash) (fees_df : list Fee) :
  NoDup (map cash_request_id_of cash_df) ->
  Permutation
    (flat_map
       (fun c =>
          filter
            (fun f =>
               key_eqb (Some (cash_request_id_of c)) (cash_request_id f))
            fees_df)
       cash_df)
    (filter (is_linked cash_df) fees_df).
Proof.
  induction cash_df as [| c cash_df IH]; intros Hnd.
  - cbn [flat_map]. rewrite filter_nil; [constructor |].
    intros f _. rewrite is_linked_existsb. reflexivity.
  - inversion Hnd as [| i ids Hnot Hnd']; subst. cbn [flat_map].
    apply Permutation_trans
      with (filter
              (fun f =>
                 key_eqb (Some (cash_request_id_of c)) (cash_request_id f))
              fees_df
            ++ filter (is_linked cash_df) fees_df).
    + apply Permutation_app_head. apply IH. exact Hnd'.
    + rewrite (@filter_ext _ (is_linked (c :: cash_df))
                 (fun f =>
                    key_eqb (Some (cash_request_id_of c)) (cash_request_id f)
                    || is_linked cash_df f)).
      * apply filter_or_perm. intros f _ Hon.
        destruct (is_linked cash_df f) eqn:El; [| reflexivity].
        exfalso. apply Hnot. rewrite is_linked_existsb in El.
        apply existsb_exists in El. destruct El as [c' [Hc' Hon']].
        apply key_eqb_Some_l in Hon. apply key_eqb_Some_l in Hon'.
        rewrite Hon in Hon'. injection Hon' as E. rewrite E.
        apply in_map. exact Hc'.
      * intros f. rewrite !is_linked_existsb. reflexivity.
Qed.

Lemma existsb_filter {A : Type} (p : A -> bool) (l : list A) :
  existsb p l = match filter p l with [] => false | _ => true end.
Proof.
  induction l as [| x l IH]; [reflexivity |].
  cbn [existsb filter]. destruct (p x); [reflexivity | exact IH].
Qed.

Lemma left_merge_rows {L R : Type} (on : L -> R -> bool) (left : list L)
    (right : list R) :
  List.length (left_merge on left right)
  = (List.length
       (filter (fun l => negb (existsb (on l) right)) left)
     + List.length (flat_map (fun l => filter (on l) right) left))%nat.
Proof.
  unfold left_merge. induction left as [| l left IH]; [reflexivity |].
  cbn [flat_map]. rewrite !length_app, IH, length_filter_cons.
  rewrite (existsb_filter (on l) right). destruct (filter (on l) right) as [| r ms].
  - cbn [negb List.length]. lia.
  - cbn [negb]. rewrite length_map. lia.
Qed.

(** X11.  In[17]: a fee reaches the merged table exactly when its
    [cash_request_id] is the id of a cash request.  The fees that name
    no request, and those without a [cash_request_id], can be taken out
    of the fee table without changing the merged table, nor any table
    the pipeline computes from it. *)
Theorem unlinked_fees_play_no_part (cash_df : list CleanCash)
    (fees_df : list Fee) :
  let eda_cash := map add_eda_columns cash_df in
  (forall f, In f (merged_fees (merged_df eda_cash fees_df))
             <-> In f fees_df /\ is_linked eda_cash f = true)
  /\ merged_df eda_cash (filter (is_linked eda_cash) fees_df)
     = merged_df eda_cash fees_df
  /\ merged_df eda_cash (drop_missing_cash_request_id fees_df)
     = merged_df eda_cash fees_df
  /\ pipeline_metrics cash_df (filter (is_linked eda_cash) fees_df)
     = pipeline_metrics cash_df fees_df.
Proof.
  intros eda_cash.
  assert (E1 : merged_df eda_cash (filter (is_linked eda_cash) fees_df)
               = merged_df eda_cash fees_df).
  { unfold merged_df. apply left_merge_filter_right.
    intros c f Hc _ Hon. exact (is_linked_of_match eda_cash c f Hc Hon). }
  split; [| split; [exact E1 | split]].
  - intros f. rewrite merged_fees_flat_map, in_flat_map. split.
    + intros [c [Hc Hf]]. apply filter_In in Hf. destruct Hf as [Hf Hon].
      split; [exact Hf | exact (is_linked_of_match eda_cash c f Hc Hon)].
    + intros [Hf Hl]. rewrite is_linked_existsb in Hl.
      apply existsb_exists in Hl. destruct Hl as [c [Hc Hon]].
      exists c. split; [exact Hc |]. apply filter_In. split; assumption.
  - unfold merged_df, drop_missing_cash_request_id.
    apply left_merge_filter_right.
    intros c f _ _ Hon. apply key_eqb_Some_l in Hon. rewrite Hon.
    reflexivity.
  - unfold pipeline_metrics, cohort_table. fold eda_cash. rewrite E1.
    reflexivity.
Qed.

(** X12.  In[17], on a cash table without duplicated ids: every fee that names
    a request is carried by exactly one row of the merged table, and the
    merged table has one row for each such fee and one for each request
    without a fee. *)
Theorem linked_fees_appear_once (cash_df : list EdaCash)
    (fees_df : list Fee) :
  NoDup (map cash_request_id_of cash_df) ->
  Permutation (merged_fees (merged_df cash_df fees_df))
              (filter (is_linked cash_df) fees_df)
  /\ List.length (merged_df cash_df fees_df)
     = (List.length (filter (fun c => negb (has_fee fees_df c)) cash_df)
        + List.length (filter (is_linked cash_df) fees_df))%nat.
Proof.
  intros Hnd.
  pose proof (linked_fees_perm cash_df fees_df Hnd) as Hperm.
  split.
  - rewrite merged_fees_flat_map. exact Hperm.
  - unfold merged_df. rewrite left_merge_rows.
    rewrite (Permutation_length Hperm). reflexivity.
Qed.

(** X12 on the scenario of the specification, to which a fee that names
    no request and a fee without request are added. *)
Lemma linked_fees_appear_once_witness :
  NoDup (map cash_request_id_of (map add_eda_columns scenario_cash))
  /\ List.length (merged_df (map add_eda_columns scenario_cash)
                            (orphan_fee :: unlinked_fee :: scenario_fees))
     = 4%nat.
Proof.
  assert (Hnd : NoDup (map cash_request_id_of
                           (map add_eda_columns scenario_cash))).
  { repeat (constructor;
            [simpl; intros H;
             repeat (destruct H as [H | H]; [discriminate H |]); exact H |]).
    constructor. }
  split; [exact Hnd |].
  exact (proj2 (@linked_fees_appear_once
                  (map add_eda_columns scenario_cash)
                  (orphan_fee :: unlinked_fee :: scenario_fees) Hnd)).
Defined.

(** X13.  In[17]: the count of requests with at least one fee is the number of
    distinct ids of the requests that have a fee whose [type] is filled
    in (a request whose fees all lack a [type] is not counted), and it
    is at most the count of all requests. *)
Theorem cash_requests_with_fees_counts_typed_fees (cash_df : list EdaCash)
    (fees_df : list Fee) :
  cash_requests_with_fees (merged_df cash_df fees_df)
  = List.length
      (sorted_unique
         (map cash_request_id_of (filter (has_typed_fee fees_df) cash_df)))
  /\ (cash_requests_with_fees (merged_df cash_df fees_df)
      <= total_cash_requests (merged_df cash_df fees_df))%nat.
Proof.
  assert (E : cash_requests_with_fees (merged_df cash_df fees_df)
              = List.length
                  (sorted_unique
                     (map cash_request_id_of
                          (filter (has_typed_fee fees_df) cash_df)))).
  { unfold cash_requests_with_fees, nunique. rewrite dropna_map_Some.
    f_equal. apply sorted_unique_ext. intros z. rewrite !in_map_iff. split.
    - intros [r [Ez Hr]]. apply filter_In in Hr. destruct Hr as [Hr Ht].
      unfold merged_df in Hr. apply In_left_merge in Hr.
      destruct Hr as [Hc Hm]. exists (fst r). split; [exact Ez |].
      apply filter_In. split; [exact Hc |].
      unfold merged_fee_type in Ht. destruct (snd r) as [f |];
        [| discriminate Ht].
      destruct Hm as [Hf Hon]. apply existsb_exists. exists f.
      split; [exact Hf |]. rewrite Hon, Ht. reflexivity.
    - intros [c [Ez Hc]]. apply filter_In in Hc. destruct Hc as [Hc Ht].
      apply existsb_exists in Ht. destruct Ht as [f [Hf Ht]].
      apply andb_prop in Ht. destruct Ht as [Hon Ht].
      exists (c, Some f). split; [exact Ez |]. apply filter_In. split.
      + unfold merged_df. apply In_left_merge. cbn [fst snd]. auto.
      + exact Ht. }
  split; [exact E |]. rewrite E, merged_df_ids.
  apply NoDup_incl_length; [apply sorted_unique_NoDup |].
  intros z Hz. apply (proj2 (In_sorted_unique z _)).
  apply (proj1 (In_sorted_unique z _)) in Hz.
  apply in_map_iff in Hz. destruct Hz as [c [Ez Hc]].
  apply filter_In in Hc. rewrite <- Ez. apply in_map. exact (proj1 Hc).
Qed.

(* ===================================================================== *)
(** * Script 2: monthly active users *)
(* ===================================================================== *)

(** Rows with distinct keys keep distinct keys when some are dropped. *)
Lemma distinct_keys_filter {Row Key : Type} (key : Row -> Key)
    (keep : Row -> bool) (rows : list Row)
    (Hkeys : NoDup (map key rows)) :
  NoDup (map key (filter keep rows)).
Proof.
  revert Hkeys. induction rows as [| r rows IH]; intros Hkeys;
    [constructor |].
  cbn [map] in Hkeys. inversion Hkeys as [| k ks Hnew Hrest]; subst.
  cbn [filter]. destruct (keep r); [| exact (IH Hrest)].
  cbn [map]. constructor; [| exact (IH Hrest)].
  intros Hin. apply Hnew. apply in_map_iff in Hin.
  destruct Hin as [r' [E Hr']]. apply filter_In in Hr'.
  rewrite <- E. apply in_map. exact (proj1 Hr').
Qed.

Lemma dropna_length_le {A : Type} (l : list (option A)) :
  (List.length (dropna l) <= List.length l)%nat.
Proof.
  induction l as [| [a |] l IH]; simpl; lia.
Qed.

Lemma nunique_le_length (l : list (option Z)) :
  (nunique l <= List.length l)%nat.
Proof.
  unfold nunique.
  pose proof (sorted_unique_length_le (dropna l)).
  pose proof (dropna_length_le l). lia.
Qed.

(** The first request of a user of the table: when the row of the user
    in [user_first_request] carries a month, the user has a request of
    that month. *)
Lemma cohort_has_a_request (cash_df : list EdaCash) (row : UserFirstRequest)
    (m : Period) :
  In row (user_first_request cash_df) ->
  cohort_year_month row = Some m -> m <> NaT_text ->
  cohort_month row = Some m
  /\ exists c,
       In c cash_df
       /\ cash_final_user_id c = Some (ufr_final_user_id row)
       /\ activity_month c = Some m.
Proof.
  intros Hrow Hm Hne. apply In_user_first_request in Hrow.
  destruct Hrow as [u [Hu ->]].
  unfold first_request_row in *.
  cbn [cohort_year_month cohort_month ufr_final_user_id] in *.
  destruct (series_min (dropna (map request_date (requests_of u cash_df))))
    as [first |] eqn:Hmin;
    [| cbn [period_text] in Hm; congruence].
  cbn [period_text option_map] in *. injection Hm as <-.
  split; [reflexivity |].
  apply series_min_is_first_request_date in Hmin.
  destruct Hmin as [[c [Hc [Hcu Hct]]] _].
  exists c. split; [exact Hc |]. split; [exact Hcu |].
  unfold activity_month. rewrite Hct. reflexivity.
Qed.

(** A month of activity is never written ['NaT']. *)
Lemma activity_month_is_dated (c : EdaCash) (m : Period) :
  activity_month c = Some m -> m < NaT_text.
Proof.
  unfold activity_month, request_date.
  destruct (to_datetime (cash_created_at c)) as [t |] eqn:E; [| discriminate].
  cbn [option_map]. intros H. injection H as <-.
  exact (month_is_not_NaT_text _ E).
Qed.

(** A user without a cohort month is a user whose cohort is written
    ['NaT']. *)
Lemma user_row_cohort_text (cash_df : list EdaCash) (row : UserFirstRequest) :
  In row (user_first_request cash_df) ->
  cohort_year_month row = Some (period_text (first_request_date row))
  /\ cohort_month row = option_map to_period_M (first_request_date row)
  /\ (cohort_month row = None <-> cohort_year_month row = Some NaT_text).
Proof.
  intros Hrow. apply In_user_first_request in Hrow.
  destruct Hrow as [u [Hu ->]].
  unfold first_request_row.
  cbn [cohort_year_month cohort_month first_request_date].
  split; [reflexivity |]. split; [reflexivity |].
  destruct (series_min (dropna (map request_date (requests_of u cash_df))))
    as [first |] eqn:Hmin; cbn [period_text option_map].
  - apply series_min_is_first_request_date in Hmin.
    pose proof (first_request_in_bounds Hmin) as Hb.
    split; [discriminate |]. intros H. injection H as H. lia.
  - split; reflexivity.
Qed.

(** X14.  In[20] and In[21]: the monthly active users are counted for each
    month that has a dated request; the users whose cohort is a month
    were all active in that month, so a month has at least as many
    active users as new users, and it has at most as many active users
    as requests.  The cohort month of a user, when the user has one, is
    a month of the table of active users; a user without a dated request
    has no cohort month, and its cohort, written ['NaT'], is no month of
    the table. *)
Theorem new_users_are_active_users (cash_df : list EdaCash) :
  map fst (monthly_active_users cash_df)
  = sorted_unique (dropna (map activity_month cash_df))
  /\ Forall
       (fun ma =>
          users_in_cohort (fst ma) (user_first_request cash_df)
          <= Z.of_nat (snd ma)
          /\ (snd ma
              <= List.length
                   (filter (fun c => key_eqb (activity_month c)
                                             (Some (fst ma)))
                           cash_df))%nat)
       (monthly_active_users cash_df)
  /\ Forall
       (fun row =>
          match cohort_month row with
          | Some m =>
              cohort_year_month row = Some m
              /\ In m (map fst (monthly_active_users cash_df))
          | None =>
              cohort_year_month row = Some NaT_text
              /\ ~ In NaT_text (map fst (monthly_active_users cash_df))
          end)
       (user_first_request cash_df).
Proof.
  assert (Hidx : map fst (monthly_active_users cash_df)
                 = sorted_unique (dropna (map activity_month cash_df))).
  { unfold monthly_active_users. rewrite map_map. cbn [fst]. apply map_id. }
  assert (Hdated : forall m, In m (map fst (monthly_active_users cash_df)) ->
                             m < NaT_text).
  { intros m Hm. rewrite Hidx in Hm.
    apply In_sorted_unique, In_dropna, in_map_iff in Hm.
    destruct Hm as [c [Hc _]]. exact (activity_month_is_dated _ Hc). }
  split; [exact Hidx |]. split.
  - apply Forall_forall. intros ma Hma.
    assert (Hlt : fst ma < NaT_text)
      by (apply Hdated, in_map; exact Hma).
    unfold monthly_active_users in Hma.
    apply in_map_iff in Hma. destruct Hma as [m [<- _]]. cbn [fst snd] in *.
    split; [| rewrite <- (length_map cash_final_user_id);
              apply nunique_le_length].
    unfold users_in_cohort, nunique. apply inj_le.
    rewrite <- (length_map ufr_final_user_id).
    apply NoDup_incl_length.
    + apply distinct_keys_filter, user_first_request_keys.
    + intros u Hu. apply in_map_iff in Hu. destruct Hu as [row [<- Hrow]].
      apply filter_In in Hrow. destruct Hrow as [Hrow Hc].
      apply key_eqb_Some in Hc.
      assert (Hne : m <> NaT_text) by lia.
      destruct (cohort_has_a_request cash_df row Hrow Hc Hne)
        as [_ [c [Hin [Hcu Hcm]]]].
      apply (proj2 (In_sorted_unique _ _)). apply In_dropna.
      rewrite <- Hcu. apply in_map. apply filter_In.
      split; [exact Hin | apply key_eqb_Some, Hcm].
  - apply Forall_forall. intros row Hrow.
    destruct (user_row_cohort_text cash_df row Hrow) as [Htext [Hmonth Hiff]].
    destruct (cohort_month row) as [m |] eqn:Em.
    + destruct (first_request_date row) as [first |];
        [| discriminate Hmonth].
      cbn [option_map period_text] in *. injection Hmonth as Hmonth.
      subst m. split; [exact Htext |].
      assert (Hne : to_period_M first <> NaT_text).
      { intros E. rewrite E in Htext. apply (proj2 Hiff) in Htext.
        discriminate Htext. }
      destruct (cohort_has_a_request cash_df row Hrow Htext Hne)
        as [_ [c [Hin [_ Hcm]]]].
      rewrite Hidx. apply (proj2 (In_sorted_unique _ _)).
      apply In_dropna. rewrite <- Hcm. apply in_map. exact Hin.
    + split; [apply Hiff; reflexivity |].
      intros Hin. apply Hdated in Hin. lia.
Qed.

(* ===================================================================== *)
(** * Script 2: incidents per month *)
(* ===================================================================== *)

Lemma in_trend_group_incident (m : Period) (r : CleanCash) :
  in_trend_group m "incident" (add_eda_columns r)
  = key_eqb (month_of r) (Some m) && notnull (recovery_status (cash r)).
Proof.
  unfold in_trend_group, add_eda_columns.
  cbn [year_month incident_flag].
  destruct (notnull (recovery_status (cash r))); reflexivity.
Qed.

Lemma in_trend_group_other (m : Period) (r : CleanCash) :
  in_trend_group m "no_incident" (add_eda_columns r)
  = key_eqb (month_of r) (Some m) && isnull (recovery_status (cash r)).
Proof.
  unfold in_trend_group, add_eda_columns, notnull.
  cbn [year_month incident_flag].
  destruct (isnull (recovery_status (cash r))); reflexivity.
Qed.

Lemma trend_group_incident (m : Period) (cash_df : list CleanCash) :
  Z.of_nat
    (List.length
       (filter (in_trend_group m "incident") (map add_eda_columns cash_df)))
  = incidents_in m cash_df.
Proof.
  unfold incidents_in. rewrite filter_map_commute, length_map.
  f_equal. f_equal. apply filter_ext. intros r.
  apply in_trend_group_incident.
Qed.

Lemma trend_group_other (m : Period) (cash_df : list CleanCash) :
  Z.of_nat
    (List.length
       (filter (in_trend_group m "no_incident")
               (map add_eda_columns cash_df)))
  = others_in m cash_df.
Proof.
  unfold others_in. rewrite filter_map_commute, length_map.
  f_equal. f_equal. apply filter_ext. intros r.
  apply in_trend_group_other.
Qed.

Lemma group_row {A : Type} (l : list A) (m : Period) (flag : string) :
  match l with
  | [] => []
  | e :: l' => [(m, flag, Z.of_nat (List.length (e :: l')))]
  end
  = if 0 <? Z.of_nat (List.length l)
    then [(m, flag, Z.of_nat (List.length l))]
    else [].
Proof.
  destruct l as [| a l]; [reflexivity |].
  destruct (0 <? Z.of_nat (List.length (a :: l))) eqn:E; [reflexivity |].
  apply Z.ltb_ge in E. simpl List.length in E. lia.
Qed.

(** The long table of In[11], month by month. *)
Lemma incident_trend_rows (cash_df : list CleanCash) :
  incident_trend (map add_eda_columns cash_df)
  = trend_rows (fun m => incidents_in m cash_df)
               (fun m => others_in m cash_df) (months_of cash_df).
Proof.
  unfold incident_trend, months_of, trend_rows.
  assert (E : map year_month (map add_eda_columns cash_df)
              = map month_of cash_df).
  { rewrite map_map. reflexivity. }
  rewrite E. apply flat_map_ext. intros m.
  unfold incident_labels. cbn [flat_map]. rewrite app_nil_r.
  rewrite !group_row, trend_group_incident, trend_group_other.
  reflexivity.
Qed.

Lemma trend_cell_cons (m : Period) (flag : string) (m' : Period)
    (flag' : string) (v : Z) (rest : list (Period * string * Z)) :
  trend_cell m flag ((m', flag', v) :: rest)
  = if (m' =? m) && String.eqb flag' flag then Some v
    else trend_cell m flag rest.
Proof. reflexivity. Qed.

Lemma trend_cell_incident (f g : Period -> Z) (m : Period)
    (months : list Period) :
  trend_cell m "incident" (trend_rows f g months)
  = if existsb (Z.eqb m) months && (0 <? f m) then Some (f m) else None.
Proof.
  induction months as [| m' months IH]; [reflexivity |].
  unfold trend_rows in *. cbn [flat_map existsb]. rewrite (Z.eqb_sym m m').
  destruct (m' =? m) eqn:Em.
  - apply Z.eqb_eq in Em. subst m'.
    destruct (0 <? f m) eqn:Ef; cbn [app orb andb].
    + rewrite trend_cell_cons, Z.eqb_refl. reflexivity.
    + destruct (0 <? g m); cbn [app].
      * rewrite trend_cell_cons, Z.eqb_refl. cbn [andb].
        change (String.eqb "no_incident" "incident") with false.
        cbv iota. rewrite IH, andb_false_r. reflexivity.
      * rewrite IH, andb_false_r. reflexivity.
  - cbn [orb].
    destruct (0 <? f m'); destruct (0 <? g m'); cbn [app];
      rewrite ?trend_cell_cons, ?Em; cbn [andb]; exact IH.
Qed.

Lemma trend_cell_other (f g : Period -> Z) (m : Period)
    (months : list Period) :
  trend_cell m "no_incident" (trend_rows f g months)
  = if existsb (Z.eqb m) months && (0 <? g m) then Some (g m) else None.
Proof.
  induction months as [| m' months IH]; [reflexivity |].
  unfold trend_rows in *. cbn [flat_map existsb]. rewrite (Z.eqb_sym m m').
  destruct (m' =? m) eqn:Em.
  - apply Z.eqb_eq in Em. subst m'.
    destruct (0 <? g m) eqn:Eg; cbn [orb andb].
    + destruct (0 <? f m); cbn [app];
        rewrite ?trend_cell_cons, ?Z.eqb_refl; cbn [andb];
        try change (String.eqb "incident" "no_incident") with false;
        cbv iota; rewrite ?trend_cell_cons, ?Z.eqb_refl; reflexivity.
    + destruct (0 <? f m); cbn [app];
        rewrite ?trend_cell_cons, ?Z.eqb_refl; cbn [andb];
        try change (String.eqb "incident" "no_incident") with false;
        cbv iota; rewrite IH, andb_false_r; reflexivity.
  - cbn [orb].
    destruct (0 <? f m'); destruct (0 <? g m'); cbn [app];
      rewrite ?trend_cell_cons, ?Em; cbn [andb]; exact IH.
Qed.

Lemma trend_has_incident (f g : Period -> Z) (months : list Period) :
  existsb (fun t => String.eqb (snd (fst t)) "incident") (trend_rows f g months)
  = existsb (fun m => 0 <? f m) months.
Proof.
  induction months as [| m months IH]; [reflexivity |].
  unfold trend_rows in *. cbn [flat_map existsb]. rewrite !existsb_app, IH.
  destruct (0 <? f m); destruct (0 <? g m); reflexivity.
Qed.

Lemma trend_has_other (f g : Period -> Z) (months : list Period) :
  existsb (fun t => String.eqb (snd (fst t)) "no_incident") (trend_rows f g months)
  = existsb (fun m => 0 <? g m) months.
Proof.
  induction months as [| m months IH]; [reflexivity |].
  unfold trend_rows in *. cbn [flat_map existsb]. rewrite !existsb_app, IH.
  destruct (0 <? f m); destruct (0 <? g m); reflexivity.
Qed.

Lemma trend_months (f g : Period -> Z) (months : list Period) :
  StronglySorted Z.lt months ->
  (forall m, In m months -> 0 < f m \/ 0 < g m) ->
  trend_index (trend_rows f g months) = months.
Proof.
  intros Hsorted Hrows. unfold trend_index.
  apply strictly_sorted_ext;
    [apply sorted_unique_sorted | exact Hsorted |].
  intros m. rewrite In_sorted_unique, in_map_iff. split.
  - intros [t [<- Ht]]. unfold trend_rows in Ht. apply in_flat_map in Ht.
    destruct Ht as [m' [Hm' Ht]]. apply in_app_iff in Ht.
    destruct Ht as [Ht | Ht].
    + destruct (0 <? f m'); [| destruct Ht].
      destruct Ht as [<- | []]. exact Hm'.
    + destruct (0 <? g m'); [| destruct Ht].
      destruct Ht as [<- | []]. exact Hm'.
  - intros Hm. destruct (Hrows m Hm) as [Hf | Hg].
    + exists (m, "incident"%string, f m). split; [reflexivity |].
      unfold trend_rows. apply in_flat_map. exists m. split; [exact Hm |].
      apply in_app_iff. left. apply Z.ltb_lt in Hf. rewrite Hf.
      left. reflexivity.
    + exists (m, "no_incident"%string, g m). split; [reflexivity |].
      unfold trend_rows. apply in_flat_map. exists m. split; [exact Hm |].
      apply in_app_iff. right. apply Z.ltb_lt in Hg. rewrite Hg.
      left. reflexivity.
Qed.

(** The two columns of the pivot, read by name. *)
Lemma pivot_columns (f g : Period -> Z) (months : list Period) :
  column "incident" (incident_pivot (trend_rows f g months))
  = (if existsb (fun m => 0 <? f m) months
     then Some (map (fun m =>
                       (m, match trend_cell m "incident" (trend_rows f g months) with
                           | Some n => inject_Z n
                           | None => 0%Q
                           end))
                    (trend_index (trend_rows f g months)))
     else None)
  /\ column "no_incident" (incident_pivot (trend_rows f g months))
     = (if existsb (fun m => 0 <? g m) months
        then Some (map (fun m =>
                          (m, match trend_cell m "no_incident" (trend_rows f g months)
                              with
                              | Some n => inject_Z n
                              | None => 0%Q
                              end))
                       (trend_index (trend_rows f g months)))
        else None).
Proof.
  unfold incident_pivot, incident_labels. cbn [filter].
  rewrite (trend_has_incident f g), (trend_has_other f g).
  destruct (existsb (fun m => 0 <? f m) months);
    destruct (existsb (fun m => 0 <? g m) months);
    split; reflexivity.
Qed.


Lemma combine_map {A B C : Type} (a : A -> B) (b : A -> C) (l : list A) :
  combine (map a l) (map b l) = map (fun x => (a x, b x)) l.
Proof.
  induction l as [| x l IH]; [reflexivity |].
  cbn [map combine]. rewrite IH. reflexivity.
Qed.

Lemma incidents_in_nonneg (m : Period) (cash_df : list CleanCash) :
  0 <= incidents_in m cash_df.
Proof. unfold incidents_in. lia. Qed.

Lemma others_in_nonneg (m : Period) (cash_df : list CleanCash) :
  0 <= others_in m cash_df.
Proof. unfold others_in. lia. Qed.

(** The incidents and the other requests of a month are its requests. *)
Lemma month_split (m : Period) (cash_df : list CleanCash) :
  incidents_in m cash_df + others_in m cash_df
  = Z.of_nat (List.length (rows_of_month m cash_df)).
Proof.
  unfold incidents_in, others_in, rows_of_month.
  induction cash_df as [| r cash_df IH]; [reflexivity |].
  rewrite !length_filter_cons.
  destruct (key_eqb (month_of r) (Some m));
    destruct (recovery_status (cash r));
    cbn [notnull isnull andb negb]; lia.
Qed.

Lemma month_has_rows (m : Period) (cash_df : list CleanCash) :
  In m (months_of cash_df) ->
  0 < Z.of_nat (List.length (rows_of_month m cash_df)).
Proof.
  intros Hin. apply (proj1 (In_sorted_unique _ _)) in Hin.
  apply In_dropna, in_map_iff in Hin. destruct Hin as [r [E Hr]].
  assert (Hr' : In r (rows_of_month m cash_df)).
  { apply filter_In. split; [exact Hr | apply key_eqb_Some, E]. }
  destruct (rows_of_month m cash_df); [destruct Hr' |].
  simpl List.length. lia.
Qed.

Lemma has_incident_iff (cash_df : list CleanCash) :
  existsb (fun m => 0 <? incidents_in m cash_df) (months_of cash_df) = true
  <-> exists r, In r cash_df /\ month_of r <> None
                /\ recovery_status (cash r) <> None.
Proof.
  rewrite existsb_exists. split.
  - intros [m [_ Hm]]. apply Z.ltb_lt in Hm. unfold incidents_in in Hm.
    destruct (filter (fun r => key_eqb (month_of r) (Some m)
                               && notnull (recovery_status (cash r)))
                     cash_df) as [| r rows] eqn:E;
      [simpl in Hm; lia |].
    assert (Hr : In r (r :: rows)) by (left; reflexivity).
    rewrite <- E in Hr. apply filter_In in Hr. destruct Hr as [Hr Hp].
    apply andb_prop in Hp. destruct Hp as [Hmonth Hp].
    apply key_eqb_Some in Hmonth.
    exists r. split; [exact Hr |]. split; [congruence |].
    intros Hnone. rewrite Hnone in Hp. discriminate Hp.
  - intros [r [Hr [Hdated Hrs]]].
    destruct (month_of r) as [m |] eqn:Em; [| contradiction].
    exists m. split.
    + apply (proj2 (In_sorted_unique _ _)). apply In_dropna.
      rewrite <- Em. apply in_map. exact Hr.
    + apply Z.ltb_lt. unfold incidents_in.
      assert (Hin : In r (filter (fun r0 => key_eqb (month_of r0) (Some m)
                                  && notnull (recovery_status (cash r0)))
                                 cash_df)).
      { apply filter_In. split; [exact Hr |]. rewrite Em.
        cbn [key_eqb]. rewrite Z.eqb_refl.
        destruct (recovery_status (cash r)); [reflexivity | contradiction]. }
      destruct (filter (fun r0 => key_eqb (month_of r0) (Some m)
                                  && notnull (recovery_status (cash r0)))
                       cash_df); [destruct Hin |].
      simpl List.length. lia.
Qed.

Lemma has_other_iff (cash_df : list CleanCash) :
  existsb (fun m => 0 <? others_in m cash_df) (months_of cash_df) = true
  <-> exists r, In r cash_df /\ month_of r <> None
                /\ recovery_status (cash r) = None.
Proof.
  rewrite existsb_exists. split.
  - intros [m [_ Hm]]. apply Z.ltb_lt in Hm. unfold others_in in Hm.
    destruct (filter (fun r => key_eqb (month_of r) (Some m)
                               && isnull (recovery_status (cash r)))
                     cash_df) as [| r rows] eqn:E;
      [simpl in Hm; lia |].
    assert (Hr : In r (r :: rows)) by (left; reflexivity).
    rewrite <- E in Hr. apply filter_In in Hr. destruct Hr as [Hr Hp].
    apply andb_prop in Hp. destruct Hp as [Hmonth Hp].
    apply key_eqb_Some in Hmonth.
    exists r. split; [exact Hr |]. split; [congruence |].
    destruct (recovery_status (cash r)); [discriminate Hp | reflexivity].
  - intros [r [Hr [Hdated Hrs]]].
    destruct (month_of r) as [m |] eqn:Em; [| contradiction].
    exists m. split.
    + apply (proj2 (In_sorted_unique _ _)). apply In_dropna.
      rewrite <- Em. apply in_map. exact Hr.
    + apply Z.ltb_lt. unfold others_in.
      assert (Hin : In r (filter (fun r0 => key_eqb (month_of r0) (Some m)
                                  && isnull (recovery_status (cash r0)))
                                 cash_df)).
      { apply filter_In. split; [exact Hr |]. rewrite Em.
        cbn [key_eqb]. rewrite Z.eqb_refl, Hrs. reflexivity. }
      destruct (filter (fun r0 => key_eqb (month_of r0) (Some m)
                                  && isnull (recovery_status (cash r0)))
                       cash_df); [destruct Hin |].
      simpl List.length. lia.
Qed.

Lemma get_loc_Some (p : Period) (index : list Period) (i : nat) :
  get_loc p index = Some i -> nth_error index i = Some p.
Proof.
  revert i. induction index as [| q index IH]; intros i H;
    [discriminate H |].
  cbn [get_loc] in H. destruct (q =? p) eqn:E.
  - injection H as <-. apply Z.eqb_eq in E. subst q. reflexivity.
  - destruct (get_loc p index) as [j |]; [| discriminate H].
    injection H as <-. cbn [nth_error]. apply IH. reflexivity.
Qed.

Lemma get_loc_None (p : Period) (index : list Period) :
  get_loc p index = None <-> ~ In p index.
Proof.
  induction index as [| q index IH]; [simpl; tauto |].
  cbn [get_loc]. destruct (q =? p) eqn:E.
  - apply Z.eqb_eq in E. subst q. split; [discriminate |].
    intros H. exfalso. apply H. left. reflexivity.
  - apply Z.eqb_neq in E. destruct (get_loc p index) as [j |].
    + split; [discriminate |]. intros H. exfalso.
      assert (Hn : ~ In p index) by (intros Hp; apply H; right; exact Hp).
      apply IH in Hn. discriminate Hn.
    + split; [| reflexivity]. intros _ [Hq | Hp]; [contradiction |].
      exact (proj1 IH eq_refl Hp).
Qed.

Lemma partial_month_lines_Some (months index : list Period) :
  (forall p, In p months -> In p index) ->
  exists lines,
    partial_month_lines months index = Some lines
    /\ Forall2 (fun p i => nth_error index i = Some p) months lines.
Proof.
  induction months as [| p months IH]; intros H.
  - exists []. split; [reflexivity | constructor].
  - destruct IH as [lines [E Hl]];
      [intros q Hq; apply H; right; exact Hq |].
    cbn [partial_month_lines].
    destruct (get_loc p index) as [i |] eqn:Ei.
    + exists (i :: lines). rewrite E. split; [reflexivity |].
      constructor; [apply get_loc_Some, Ei | exact Hl].
    + exfalso. apply get_loc_None in Ei. apply Ei, H. left. reflexivity.
Qed.

Lemma partial_month_lines_None (months index : list Period) (p : Period) :
  In p months -> ~ In p index -> partial_month_lines months index = None.
Proof.
  induction months as [| q months IH]; intros Hin Hnot; [destruct Hin |].
  cbn [partial_month_lines].
  destruct (get_loc q index) as [i |] eqn:Ei; [| reflexivity].
  destruct Hin as [-> | Hin].
  - apply get_loc_None in Hnot. congruence.
  - rewrite (IH Hin Hnot). reflexivity.
Qed.

Lemma In_months_of (m : Period) (cash_df : list CleanCash) :
  In m (months_of cash_df)
  <-> exists r, In r cash_df /\ month_of r = Some m.
Proof.
  unfold months_of. rewrite In_sorted_unique, In_dropna, in_map_iff. split.
  - intros [r [E Hr]]. exists r. auto.
  - intros [r [Hr E]]. exists r. auto.
Qed.

(** The cell In[11], read with the counts of each month. *)
Lemma incident_cell_steps (cash_df : list CleanCash) :
  let trend := incident_trend (map add_eda_columns cash_df) in
  trend_index trend = months_of cash_df
  /\ incident_table (incident_pivot trend)
     = if existsb (fun m => 0 <? incidents_in m cash_df) (months_of cash_df)
          && existsb (fun m => 0 <? others_in m cash_df) (months_of cash_df)
       then Some
              (map (fun m =>
                      {| incident_month := m;
                         incident := inject_Z (incidents_in m cash_df);
                         no_incident := inject_Z (others_in m cash_df);
                         incident_ratio :=
                           (inject_Z (incidents_in m cash_df)
                            / (inject_Z (incidents_in m cash_df)
                               + inject_Z (others_in m cash_df))
                            * inject_Z 100)%Q |})
                   (months_of cash_df))
       else None.
Proof.
  intros trend. unfold trend. rewrite incident_trend_rows.
  assert (Hidx : trend_index
                   (trend_rows (fun m => incidents_in m cash_df)
                               (fun m => others_in m cash_df)
                               (months_of cash_df))
                 = months_of cash_df).
  { apply (trend_months (fun m => incidents_in m cash_df)
                        (fun m => others_in m cash_df));
      [apply sorted_unique_sorted |].
    intros m Hm. pose proof (month_has_rows m cash_df Hm) as Hrows.
    rewrite <- month_split in Hrows.
    pose proof (incidents_in_nonneg m cash_df).
    pose proof (others_in_nonneg m cash_df). lia. }
  split; [exact Hidx |].
  unfold incident_table.
  destruct (pivot_columns (fun m => incidents_in m cash_df)
                          (fun m => others_in m cash_df)
                          (months_of cash_df)) as [Hi Ho].
  rewrite Hi, Ho, Hidx.
  destruct (existsb (fun m => 0 <? incidents_in m cash_df)
                    (months_of cash_df)); [| reflexivity].
  destruct (existsb (fun m => 0 <? others_in m cash_df)
                    (months_of cash_df)); [| reflexivity].
  cbn [andb]. f_equal. rewrite combine_map, map_map.
  apply map_ext_in. intros m Hm. cbn [fst snd].
  rewrite (trend_cell_incident (fun m => incidents_in m cash_df)
                              (fun m => others_in m cash_df)),
          (trend_cell_other (fun m => incidents_in m cash_df)
                            (fun m => others_in m cash_df)).
  assert (Em : existsb (Z.eqb m) (months_of cash_df) = true)
    by (apply existsb_Zeqb, Hm).
  rewrite Em. cbn [andb].
  pose proof (incidents_in_nonneg m cash_df) as Hi0.
  pose proof (others_in_nonneg m cash_df) as Ho0.
  assert (Ei : (if 0 <? incidents_in m cash_df
                then inject_Z (incidents_in m cash_df) else 0%Q)
               = inject_Z (incidents_in m cash_df)).
  { destruct (0 <? incidents_in m cash_df) eqn:E; [reflexivity |].
    apply Z.ltb_ge in E.
    replace (incidents_in m cash_df) with 0 by lia. reflexivity. }
  assert (Eo : (if 0 <? others_in m cash_df
                then inject_Z (others_in m cash_df) else 0%Q)
               = inject_Z (others_in m cash_df)).
  { destruct (0 <? others_in m cash_df) eqn:E; [reflexivity |].
    apply Z.ltb_ge in E.
    replace (others_in m cash_df) with 0 by lia. reflexivity. }
  destruct (0 <? incidents_in m cash_df);
    destruct (0 <? others_in m cash_df);
    rewrite <- ?Ei, <- ?Eo; reflexivity.
Qed.

Lemma incident_ratio_bounds (a b : Z) :
  0 <= a -> 0 <= b -> 0 < a + b ->
  (0 <= inject_Z a / (inject_Z a + inject_Z b) * inject_Z 100)%Q
  /\ (inject_Z a / (inject_Z a + inject_Z b) * inject_Z 100
      <= inject_Z 100)%Q.
Proof.
  intros Ha Hb Hab.
  assert (Hs : (0 < inject_Z a + inject_Z b)%Q).
  { rewrite <- inject_Z_plus. change 0%Q with (inject_Z 0).
    rewrite <- Zlt_Qlt. exact Hab. }
  assert (H0 : (0 <= inject_Z a / (inject_Z a + inject_Z b))%Q).
  { apply Qle_shift_div_l; [exact Hs |]. rewrite Qmult_0_l.
    change 0%Q with (inject_Z 0). rewrite <- Zle_Qle. exact Ha. }
  assert (H1 : (inject_Z a / (inject_Z a + inject_Z b) <= 1)%Q).
  { apply Qle_shift_div_r; [exact Hs |]. rewrite Qmult_1_l.
    rewrite <- inject_Z_plus, <- Zle_Qle. lia. }
  split.
  - apply Qmult_le_0_compat; [exact H0 | discriminate].
  - apply Qle_trans with (1 * inject_Z 100)%Q.
    + apply Qmult_le_compat_r; [exact H1 | discriminate].
    + rewrite Qmult_1_l. apply Qle_refl.
Qed.

(** X15.  In[11]: the table of the cell and the look-ups of its marker
    positions all succeed exactly when the cash table has a dated request
    with a [recovery_status], a dated request without one, a request
    created in November 2019 and one created in November 2020.  A request
    without a date is in no group of the cell.  Without a dated
    incident, or without a dated request that is none, the pivot lacks a
    column the ratio reads; without one of the two months,
    [index.get_loc] fails: that look-up has no guard, the one of January
    2020 has. *)
Theorem incident_cell_completes_iff (cash_df : list CleanCash) :
  (exists cell, incident_cell cash_df = Some cell)
  <-> ((exists r, In r cash_df /\ month_of r <> None
                  /\ recovery_status (cash r) <> None)
       /\ (exists r, In r cash_df /\ month_of r <> None
                     /\ recovery_status (cash r) = None)
       /\ (exists r, In r cash_df /\ month_of r = Some (ym 2019 11))
       /\ (exists r, In r cash_df /\ month_of r = Some (ym 2020 11))).
Proof.
  unfold incident_cell.
  destruct (incident_cell_steps cash_df) as [Hidx Htab].
  rewrite Htab, Hidx.
  rewrite <- has_incident_iff, <- has_other_iff, <- !In_months_of.
  destruct (existsb (fun m => 0 <? incidents_in m cash_df)
                    (months_of cash_df));
    [| split; [intros [cell H]; discriminate H
              | intros [H _]; discriminate H]].
  destruct (existsb (fun m => 0 <? others_in m cash_df)
                    (months_of cash_df));
    [| split; [intros [cell H]; discriminate H
              | intros [_ [H _]]; discriminate H]].
  cbn [andb]. split.
  - intros [cell H].
    split; [reflexivity |]. split; [reflexivity |].
    destruct (in_dec Z.eq_dec (ym 2019 11) (months_of cash_df)) as [H1 | H1].
    + split; [exact H1 |].
      destruct (in_dec Z.eq_dec (ym 2020 11) (months_of cash_df))
        as [H2 | H2]; [exact H2 |].
      rewrite (@partial_month_lines_None incident_partial_months
                 (months_of cash_df) (ym 2020 11)) in H;
        [discriminate H | right; left; reflexivity | exact H2].
    + rewrite (@partial_month_lines_None incident_partial_months
                 (months_of cash_df) (ym 2019 11)) in H;
        [discriminate H | left; reflexivity | exact H1].
  - intros [_ [_ [H1 H2]]].
    destruct (@partial_month_lines_Some incident_partial_months
                (months_of cash_df)) as [lines [E _]].
    + intros p [<- | [<- | []]]; assumption.
    + rewrite E. eexists. reflexivity.
Qed.

(** X16.  In[11], when the table and the look-ups succeed: the table has one
    row for each month with a dated request, months ascending; the two
    counts of a month are its requests with and without a
    [recovery_status], they add up to the requests of the month, which
    are at least one, so
    the ratio never divides by zero and lies between 0 and 100; the
    dashed lines stand at the positions of the two partial months, and
    the line of January 2020 at its position when the table has that
    month. *)
Theorem incident_cell_table (cash_df : list CleanCash) (cell : IncidentCell) :
  incident_cell cash_df = Some cell ->
  cell_table cell
  = map (fun m =>
           {| incident_month := m;
              incident := inject_Z (incidents_in m cash_df);
              no_incident := inject_Z (others_in m cash_df);
              incident_ratio :=
                (inject_Z (incidents_in m cash_df)
                 / (inject_Z (incidents_in m cash_df)
                    + inject_Z (others_in m cash_df))
                 * inject_Z 100)%Q |})
        (months_of cash_df)
  /\ StronglySorted Z.lt (months_of cash_df)
  /\ Forall
       (fun m =>
          incidents_in m cash_df + others_in m cash_df
          = Z.of_nat (List.length (rows_of_month m cash_df))
          /\ 0 < incidents_in m cash_df + others_in m cash_df)
       (months_of cash_df)
  /\ Forall
       (fun row =>
          (0 <= incident_ratio row)%Q
          /\ (incident_ratio row <= inject_Z 100)%Q)
       (cell_table cell)
  /\ Forall2 (fun p i => nth_error (months_of cash_df) i = Some p)
             incident_partial_months (cell_partial_lines cell)
  /\ match cell_jan_line cell with
     | Some i => nth_error (months_of cash_df) i = Some (ym 2020 1)
     | None => ~ In (ym 2020 1) (months_of cash_df)
     end.
Proof.
  unfold incident_cell.
  destruct (incident_cell_steps cash_df) as [Hidx Htab].
  rewrite Htab, Hidx.
  destruct (existsb (fun m => 0 <? incidents_in m cash_df)
                    (months_of cash_df)
            && existsb (fun m => 0 <? others_in m cash_df)
                       (months_of cash_df)); [| discriminate].
  destruct (partial_month_lines incident_partial_months (months_of cash_df))
    as [lines |] eqn:El; [| discriminate].
  intros H. injection H as <-.
  cbn [cell_table cell_partial_lines cell_jan_line].
  assert (Hsplit : Forall
            (fun m =>
               incidents_in m cash_df + others_in m cash_df
               = Z.of_nat (List.length (rows_of_month m cash_df))
               /\ 0 < incidents_in m cash_df + others_in m cash_df)
            (months_of cash_df)).
  { apply Forall_forall. intros m Hm. split; [apply month_split |].
    rewrite month_split. apply month_has_rows, Hm. }
  split; [reflexivity |].
  split; [apply sorted_unique_sorted |].
  split; [exact Hsplit |]. split; [| split].
  - apply Forall_forall. intros row Hrow. apply in_map_iff in Hrow.
    destruct Hrow as [m [<- Hm]]. cbn [incident_ratio].
    rewrite Forall_forall in Hsplit. destruct (Hsplit m Hm) as [_ Hpos].
    apply incident_ratio_bounds;
      [apply incidents_in_nonneg | apply others_in_nonneg | exact Hpos].
  - destruct (in_dec Z.eq_dec (ym 2019 11) (months_of cash_df)) as [H1 | H1];
      [| rewrite (@partial_month_lines_None incident_partial_months
                    (months_of cash_df) (ym 2019 11)) in El;
         [discriminate El | left; reflexivity | exact H1]].
    destruct (in_dec Z.eq_dec (ym 2020 11) (months_of cash_df)) as [H2 | H2];
      [| rewrite (@partial_month_lines_None incident_partial_months
                    (months_of cash_df) (ym 2020 11)) in El;
         [discriminate El | right; left; reflexivity | exact H2]].
    destruct (@partial_month_lines_Some incident_partial_months
                (months_of cash_df)) as [lines' [E Hl]].
    + intros p [<- | [<- | []]]; assumption.
    + rewrite E in El. injection El as <-. exact Hl.
  - unfold jan_2020_line.
    destruct (existsb (Z.eqb (ym 2020 1)) (months_of cash_df)) eqn:Ej.
    + destruct (get_loc (ym 2020 1) (months_of cash_df)) as [i |] eqn:Eg.
      * apply get_loc_Some, Eg.
      * apply get_loc_None, Eg.
    + intros Hin. apply existsb_Zeqb in Hin. congruence.
Qed.

(** X16 on a table that runs from November 2019 to November 2020. *)
Lemma incident_cell_table_witness :
  exists cell,
    incident_cell full_year_cash = Some cell
    /\ Forall
         (fun row =>
            (0 <= incident_ratio row)%Q
            /\ (incident_ratio row <= inject_Z 100)%Q)
         (cell_table cell)
    /\ cell_partial_lines cell = [0%nat; 2%nat]
    /\ cell_jan_line cell = Some 1%nat.
Proof.
  eexists. split; [reflexivity |].
  split; [| split; reflexivity].
  exact (proj1 (proj2 (proj2 (proj2
           (@incident_cell_table full_year_cash _ eq_refl))))).
Defined.

(** The scenario of the specification has no incident and no request
    in November 2019. *)
Example scenario_incident_cell : incident_cell scenario_cash = None.
Proof. reflexivity. Qed.

(* ===================================================================== *)
(** * Script 3: the validation of the cohort assignment *)
(* ===================================================================== *)

(** The two cohort columns of a user the cash table knows: the text is
    always there, the month only when the user has a dated request. *)
Lemma known_user_has_cohort (cash_df : list EdaCash) (u : Z) :
  cohort_year_month (first_request_row cash_df u) <> None
  /\ (cohort_month (first_request_row cash_df u) = None
      <-> cohort_year_month (first_request_row cash_df u) = Some NaT_text)
  /\ (cohort_month (first_request_row cash_df u) = None
      <-> ~ has_dated_request u cash_df).
Proof.
  unfold first_request_row. cbn [cohort_year_month cohort_month].
  split; [discriminate |].
  destruct (series_min (dropna (map request_date (requests_of u cash_df))))
    as [first |] eqn:Hmin; cbn [period_text option_map].
  - apply series_min_is_first_request_date in Hmin.
    pose proof (first_request_in_bounds Hmin) as Hb.
    split; split; try discriminate.
    + intros H. injection H as H. lia.
    + intros H. exfalso. apply H.
      destruct Hmin as [[c [Hc [Hu Ht]]] _]. exists c, first. auto.
  - split; split; try reflexivity.
    intros _ [c [t [Hc [Hu Ht]]]].
    assert (Hin : In t (dropna (map request_date (requests_of u cash_df))))
      by (apply In_dated_requests; eauto).
    apply series_min_None in Hmin. rewrite Hmin in Hin. destruct Hin.
Qed.

(** X17.  In[9]: in the table the pipeline builds, a row has no
    [cohort_year_month] exactly when its request has no [final_user_id];
    it has no [cohort_month] exactly when its request has no
    [final_user_id] or its user has no dated request, the cohort of such
    a user being written ['NaT'].  The count of rows without a cohort is
    the count of the rows without identity plus that of the rows of the
    cohort ['NaT']; it is 0 exactly when script 1 found no request with a
    missing [final_user_id] and every user has a dated request. *)
Theorem missing_cohort_rows_are_anonymous (cash_df : list CleanCash)
    (fees_df : list Fee) :
  Forall (fun r =>
            (row_cohort_year_month r = None <-> row_final_user_id r = None)
            /\ (row_cohort_month r = None
                <-> row_final_user_id r = None
                    \/ row_cohort_year_month r = Some NaT_text)
            /\ (row_cohort_year_month r = Some NaT_text
                <-> exists u,
                      row_final_user_id r = Some u
                      /\ ~ has_dated_request u (map add_eda_columns cash_df)))
         (cohort_table cash_df fees_df)
  /\ missing_cohort_rows (cohort_table cash_df fees_df)
     = (List.length
          (filter (fun r => isnull (row_final_user_id r))
                  (cohort_table cash_df fees_df))
        + List.length
            (filter (fun r => key_eqb (row_cohort_year_month r)
                                      (Some NaT_text))
                    (cohort_table cash_df fees_df)))%nat
  /\ (missing_cohort_rows (cohort_table cash_df fees_df) = 0%nat
      <-> missing_final_ids cash_df = 0%nat
          /\ forall u, In (Some u) (map final_user_id cash_df) ->
                       has_dated_request u (map add_eda_columns cash_df)).
Proof.
  set (eda := map add_eda_columns cash_df).
  assert (Hrows : forall r,
             In r (cohort_table cash_df fees_df) ->
             (row_cohort_year_month r = None <-> row_final_user_id r = None)
             /\ (row_cohort_month r = None
                 <-> row_final_user_id r = None
                     \/ row_cohort_year_month r = Some NaT_text)
             /\ (row_cohort_year_month r = Some NaT_text
                 <-> exists u,
                       row_final_user_id r = Some u
                       /\ ~ has_dated_request u eda)).
  { intros r Hr.
    destruct (row_final_user_id r) as [u |] eqn:Eu.
    - pose proof (cohort_table_columns cash_df fees_df r Hr Eu) as Hsnd.
      destruct (known_user_has_cohort eda u) as [Hsome [Htext Hdated]].
      unfold row_cohort_month, row_cohort_year_month.
      rewrite Hsnd. fold eda. split; [| split].
      + split; [intros H; contradiction | discriminate].
      + rewrite Htext. split; [auto |]. intros [H | H]; [discriminate | exact H].
      + rewrite <- Htext, Hdated. split.
        * intros H. exists u. auto.
        * intros [u' [E H]]. injection E as ->. exact H.
    - unfold cohort_table in Hr.
      destruct (null_user_has_no_cohort _ _ r Hr Eu) as [Hm Hym].
      rewrite Hm, Hym. split; [| split].
      + split; reflexivity.
      + split; auto.
      + split; [discriminate |]. intros [u [E _]]. discriminate E. }
  assert (Hcount : missing_cohort_rows (cohort_table cash_df fees_df)
                   = (List.length
                        (filter (fun r => isnull (row_final_user_id r))
                                (cohort_table cash_df fees_df))
                      + List.length
                          (filter (fun r => key_eqb (row_cohort_year_month r)
                                                    (Some NaT_text))
                                  (cohort_table cash_df fees_df)))%nat).
  { unfold missing_cohort_rows.
    assert (G : forall l : list CohortRow,
               (forall r, In r l -> In r (cohort_table cash_df fees_df)) ->
               List.length (filter (fun r => isnull (row_cohort_month r)) l)
               = (List.length
                    (filter (fun r => isnull (row_final_user_id r)) l)
                  + List.length
                      (filter (fun r => key_eqb (row_cohort_year_month r)
                                                (Some NaT_text)) l))%nat).
    { induction l as [| r l IH]; intros Hl; [reflexivity |].
      rewrite !length_filter_cons, IH
        by (intros x Hx; apply Hl; right; exact Hx).
      destruct (Hrows r (Hl r (or_introl eq_refl))) as [H1 [H2 _]].
      destruct (row_final_user_id r) as [u |] eqn:Eu.
      - destruct (row_cohort_year_month r) as [c |] eqn:Ec;
          [| discriminate (proj1 H1 eq_refl)].
        cbn [isnull key_eqb].
        destruct (Z.eqb_spec c NaT_text) as [-> | Hne].
        + rewrite (proj2 H2 (or_intror eq_refl)). cbn [isnull]. lia.
        + destruct (row_cohort_month r) as [m |]; cbn [isnull]; [lia |].
          destruct (proj1 H2 eq_refl) as [H | H]; [discriminate H |].
          injection H as H. contradiction.
      - rewrite (proj2 H1 eq_refl), (proj2 H2 (or_introl eq_refl)).
        cbn [isnull key_eqb]. lia. }
    apply G. auto. }
  split; [apply Forall_forall; exact Hrows |].
  split; [exact Hcount |].
  rewrite Hcount. unfold missing_final_ids.
  rewrite Nat.eq_add_0, !length_zero_iff_nil. split.
  - intros [H Hnat]. split.
    + apply filter_nil. intros c Hc.
      assert (Hin : In (add_eda_columns c) eda) by (apply in_map; exact Hc).
      destruct (cohort_table_keeps cash_df fees_df _ Hin) as [r [Hr Er]].
      destruct (isnull (final_user_id c)) eqn:En; [| reflexivity].
      assert (Hf : In r (filter (fun r => isnull (row_final_user_id r))
                                (cohort_table cash_df fees_df))).
      { apply filter_In. split; [exact Hr |].
        unfold row_final_user_id. rewrite Er. exact En. }
      rewrite H in Hf. destruct Hf.
    + intros u Hu. apply in_map_iff in Hu. destruct Hu as [c [Hu Hc]].
      assert (Hin : In (add_eda_columns c) eda) by (apply in_map; exact Hc).
      destruct (cohort_table_keeps cash_df fees_df _ Hin) as [r [Hr Er]].
      assert (Eu : row_final_user_id r = Some u).
      { unfold row_final_user_id. rewrite Er. exact Hu. }
      pose proof (cohort_table_columns cash_df fees_df r Hr Eu) as Hsnd.
      fold eda in Hsnd.
      destruct (first_request_date (first_request_row eda u))
        as [first |] eqn:Ef.
      * assert (Hfirst : is_first_request_date first u eda)
          by (apply series_min_is_first_request_date; exact Ef).
        destruct Hfirst as [[c0 [Hc0 [Hu0 Ht0]]] _]. exists c0, first. auto.
      * exfalso.
        assert (Hf : In r (filter (fun r => key_eqb (row_cohort_year_month r)
                                                    (Some NaT_text))
                                  (cohort_table cash_df fees_df))).
        { apply filter_In. split; [exact Hr |].
          unfold row_cohort_year_month. rewrite Hsnd.
          unfold first_request_row in *.
          cbn [cohort_year_month first_request_date] in *. rewrite Ef.
          cbn [period_text key_eqb]. apply Z.eqb_refl. }
        rewrite Hnat in Hf. destruct Hf.
  - intros [H Hall]. split.
    + apply filter_nil. intros r Hr.
      pose proof (cohort_table_request cash_df fees_df r Hr) as Hreq.
      apply in_map_iff in Hreq. destruct Hreq as [c [Ec Hc]].
      unfold row_final_user_id. rewrite <- Ec.
      destruct (isnull (cash_final_user_id (add_eda_columns c))) eqn:En;
        [| reflexivity].
      assert (Hf : In c (filter (fun r => isnull (final_user_id r)) cash_df)).
      { apply filter_In. split; [exact Hc | exact En]. }
      rewrite H in Hf. destruct Hf.
    + apply filter_nil. intros r Hr.
      destruct (key_eqb (row_cohort_year_month r) (Some NaT_text)) eqn:E;
        [| reflexivity].
      apply key_eqb_Some in E.
      destruct (Hrows r Hr) as [_ [_ H3]].
      destruct (proj1 H3 E) as [u [Eu Hno]].
      exfalso. apply Hno. apply Hall.
      pose proof (cohort_table_request cash_df fees_df r Hr) as Hreq.
      apply in_map_iff in Hreq. destruct Hreq as [c [Ec Hc]].
      apply in_map_iff. exists c. split; [| exact Hc].
      unfold row_final_user_id in Eu. rewrite <- Ec in Eu. exact Eu.
Qed.

(* ===================================================================== *)
(** * Script 3: the shape of the usage matrix *)
(* ===================================================================== *)

Lemma group_size_nonneg (keys : list (Period * Period)) (c m : Period) :
  0 <= group_size keys c m.
Proof. unfold group_size. lia. Qed.

(** X18.  In[12]: in the table the pipeline builds, the usage matrix has
    one row for each cohort and the same columns, the months of
    activity, in every row, both ascending; every cohort month is one
    of the columns; no cell is negative, and every cell of a month
    before the cohort month is 0. *)
Theorem usage_matrix_is_triangular (cash_df : list CleanCash)
    (fees_df : list Fee) :
  let df := cohort_table cash_df fees_df in
  map fst (cohort_usage_matrix df) = usage_index df
  /\ StronglySorted Z.lt (usage_index df)
  /\ StronglySorted Z.lt (usage_columns df)
  /\ (forall c, In c (usage_index df) -> In c (usage_columns df))
  /\ Forall
       (fun row =>
          map fst (snd row) = usage_columns df
          /\ Forall (fun kv =>
                       0 <= snd kv /\ (fst kv < fst row -> snd kv = 0))
                    (snd row))
       (cohort_usage_matrix df).
Proof.
  intros df. rewrite cohort_usage_matrix_cells.
  split; [rewrite map_map; cbn [fst]; apply map_id |].
  split; [apply sorted_unique_sorted |].
  split; [apply sorted_unique_sorted |]. split.
  - intros c Hc. pose proof (cohort_has_entry_month cash_df fees_df c Hc) as H.
    unfold usage_columns. apply (proj2 (In_sorted_unique _ _)).
    apply in_map_iff. exists (c, c). split; [reflexivity | exact H].
  - apply Forall_forall. intros row Hrow. apply in_map_iff in Hrow.
    destruct Hrow as [c [<- Hc]]. cbn [fst snd]. split.
    + rewrite map_map. cbn [fst]. apply map_id.
    + apply Forall_forall. intros kv Hkv. apply in_map_iff in Hkv.
      destruct Hkv as [m [<- Hm]]. cbn [fst snd].
      split; [apply group_size_nonneg |].
      intros Hlt. apply group_size_absent. intros Hin.
      pose proof (activity_not_before_cohort cash_df fees_df c m Hin). lia.
Qed.

(* ===================================================================== *)
(** * Script 3: the incident rate *)
(* ===================================================================== *)

Lemma round_half_even_between (lo hi : Z) (q : Q) :
  (inject_Z lo <= q)%Q -> (q <= inject_Z hi)%Q ->
  lo <= round_half_even q <= hi.
Proof.
  intros Hlo Hhi.
  pose proof (Qfloor_resp_le _ _ Hlo) as Hf1. rewrite Qfloor_Z in Hf1.
  pose proof (Qfloor_resp_le _ _ Hhi) as Hf2. rewrite Qfloor_Z in Hf2.
  assert (Hstep : Qfloor q = hi ->
                  ((q - inject_Z (Qfloor q) ?= 1 # 2)%Q = Lt)).
  { intros E. apply Qlt_alt. rewrite E.
    apply Qle_lt_trans with 0%Q; [| reflexivity].
    apply (Qplus_le_l _ _ (inject_Z hi)). ring_simplify. exact Hhi. }
  unfold round_half_even.
  destruct ((q - inject_Z (Qfloor q) ?= 1 # 2)%Q) eqn:E.
  - destruct (Z.even (Qfloor q)); [lia |].
    destruct (Z.eq_dec (Qfloor q) hi) as [Eh | Eh];
      [discriminate (Hstep Eh) | lia].
  - lia.
  - destruct (Z.eq_dec (Qfloor q) hi) as [Eh | Eh];
      [discriminate (Hstep Eh) | lia].
Qed.

(** A ratio between 0 and 1 stays there when rounded. *)
Lemma round_dec_unit (k : nat) (q : Q) :
  (0 <= q)%Q -> (q <= 1)%Q ->
  (0 <= round_dec k q)%Q /\ (round_dec k q <= 1)%Q.
Proof.
  intros H0 H1. unfold round_dec.
  assert (Hp : 0 < 10 ^ Z.of_nat k) by (apply Z.pow_pos_nonneg; lia).
  assert (HpQ : (0 < inject_Z (10 ^ Z.of_nat k))%Q).
  { change 0%Q with (inject_Z 0). rewrite <- Zlt_Qlt. exact Hp. }
  destruct (@round_half_even_between 0 (10 ^ Z.of_nat k)
              (q * inject_Z (10 ^ Z.of_nat k))%Q) as [Hlo Hhi].
  - change (inject_Z 0) with 0%Q.
    apply Qmult_le_0_compat; [exact H0 | apply Qlt_le_weak, HpQ].
  - apply Qle_trans with (1 * inject_Z (10 ^ Z.of_nat k))%Q.
    + apply Qmult_le_compat_r; [exact H1 | apply Qlt_le_weak, HpQ].
    + rewrite Qmult_1_l. apply Qle_refl.
  - split.
    + apply Qle_shift_div_l; [exact HpQ |]. rewrite Qmult_0_l.
      change 0%Q with (inject_Z 0). rewrite <- Zle_Qle. exact Hlo.
    + apply Qle_shift_div_r; [exact HpQ |]. rewrite Qmult_1_l.
      rewrite <- Zle_Qle. exact Hhi.
Qed.

Lemma loc_cells_absent {A : Type} (f : Z -> A) (c : Z) (cols : list Z) :
  ~ In c cols -> loc c (map (fun m => (m, f m)) cols) = None.
Proof.
  induction cols as [| m cols IH]; intros H; [reflexivity |].
  cbn [map loc]. destruct (m =? c) eqn:E.
  - apply Z.eqb_eq in E. subst m. exfalso. apply H. left. reflexivity.
  - apply IH. intros Hin. apply H. right. exact Hin.
Qed.

Lemma length_filter_filter_le {A : Type} (p q : A -> bool) (l : list A) :
  (List.length (filter p (filter q l)) <= List.length (filter p l))%nat.
Proof.
  induction l as [| x l IH]; [apply Nat.le_refl |].
  cbn [filter]. destruct (q x); cbn [filter]; destruct (p x);
    simpl List.length; lia.
Qed.

(** The incidents of a cohort, as [incident_df] reads them. *)
Lemma incident_requests_count (df : list CohortRow) (c : Period) :
  fillna0 (loc c (incident_counts df))
  = Z.of_nat
      (List.length
         (filter (fun r => key_eqb (row_cohort_year_month r) (Some c))
                 (filter (fun r => String.eqb (row_incident_flag r) "incident")
                         df))).
Proof.
  unfold incident_counts, size_by_cohort.
  set (incidents :=
         filter (fun r => String.eqb (row_incident_flag r) "incident") df).
  destruct (in_dec Z.eq_dec c
              (sorted_unique (dropna (map row_cohort_year_month incidents))))
    as [Hin | Hnot].
  - rewrite (loc_cells
               (fun c0 =>
                  Z.of_nat
                    (List.length
                       (filter
                          (fun r => key_eqb (row_cohort_year_month r) (Some c0))
                          incidents)))
               c _ Hin).
    reflexivity.
  - rewrite (loc_cells_absent
               (fun c0 =>
                  Z.of_nat
                    (List.length
                       (filter
                          (fun r => key_eqb (row_cohort_year_month r) (Some c0))
                          incidents)))
               c _ Hnot).
    cbn [fillna0]. rewrite filter_nil; [reflexivity |].
    intros r Hr.
    destruct (key_eqb (row_cohort_year_month r) (Some c)) eqn:E;
      [| reflexivity].
    exfalso. apply Hnot. apply (proj2 (In_sorted_unique _ _)).
    apply In_dropna. apply key_eqb_Some in E. rewrite <- E.
    apply in_map. exact Hr.
Qed.

(** X19.  In[17]: the incident table has one row for each cohort of the
    table; a cohort has at least one request, its incidents are its
    rows flagged ['incident'], which are at most its requests, so the
    rate divides by a positive number and lies between 0 and 1. *)
Theorem incident_rate_is_a_share (df : list CohortRow) :
  map incident_cohort (incident_df df)
  = sorted_unique (dropna (map row_cohort_year_month df))
  /\ Forall
       (fun i =>
          0 < total_requests i
          /\ incident_requests i
             = Z.of_nat
                 (List.length
                    (filter
                       (fun r =>
                          key_eqb (row_cohort_year_month r)
                                  (Some (incident_cohort i)))
                       (filter
                          (fun r =>
                             String.eqb (row_incident_flag r) "incident")
                          df)))
          /\ 0 <= incident_requests i <= total_requests i
          /\ incident_rate i
             = round_dec 4 (inject_Z (incident_requests i)
                            / inject_Z (total_requests i))%Q
          /\ (0 <= incident_rate i)%Q /\ (incident_rate i <= 1)%Q)
       (incident_df df).
Proof.
  unfold incident_df, total_counts. split.
  - unfold size_by_cohort. rewrite !map_map. cbn [incident_cohort fst].
    apply map_id.
  - apply Forall_forall. intros i Hi. apply in_map_iff in Hi.
    destruct Hi as [[c n] [<- Hcn]].
    cbn [incident_cohort total_requests incident_requests incident_rate
         fst snd].
    unfold size_by_cohort in Hcn. apply in_map_iff in Hcn.
    destruct Hcn as [c' [E Hc]]. injection E as -> <-.
    rewrite incident_requests_count.
    set (rows := filter (fun r => key_eqb (row_cohort_year_month r) (Some c))
                        df).
    assert (Hpos : 0 < Z.of_nat (List.length rows)).
    { apply (proj1 (In_sorted_unique _ _)) in Hc. apply In_dropna in Hc.
      apply in_map_iff in Hc. destruct Hc as [r [Er Hr]].
      assert (Hin : In r rows).
      { apply filter_In. split; [exact Hr |]. apply key_eqb_Some, Er. }
      destruct rows; [destruct Hin |]. simpl List.length. lia. }
    pose proof (length_filter_filter_le
                  (fun r => key_eqb (row_cohort_year_month r) (Some c))
                  (fun r => String.eqb (row_incident_flag r) "incident")
                  df) as Hle.
    fold rows in Hle.
    split; [exact Hpos |]. split; [reflexivity |].
    split; [lia |]. split; [reflexivity |].
    assert (HnQ : (0 < inject_Z (Z.of_nat (List.length rows)))%Q).
    { change 0%Q with (inject_Z 0). rewrite <- Zlt_Qlt. exact Hpos. }
    apply round_dec_unit.
    + apply Qle_shift_div_l; [exact HnQ |]. rewrite Qmult_0_l.
      change 0%Q with (inject_Z 0). rewrite <- Zle_Qle. lia.
    + apply Qle_shift_div_r; [exact HnQ |]. rewrite Qmult_1_l.
      rewrite <- Zle_Qle. lia.
Qed.

(* ===================================================================== *)
(** * Script 3: revenue and users, cohort by cohort *)
(* ===================================================================== *)

Lemma last_cumsum_from (acc : Q) (l : list Q) (d : Q) :
  l <> [] -> (last (cumsum_from acc l) d == acc + sumQ l)%Q.
Proof.
  revert acc. induction l as [| x l IH]; intros acc H; [contradiction |].
  destruct l as [| y l].
  - cbn [cumsum_from last sumQ fold_right]. ring.
  - assert (Hne : y :: l <> []) by discriminate.
    pose proof (IH (acc + x)%Q Hne) as Hrec.
    cbn [cumsum_from] in Hrec |- *. cbn [last] in Hrec |- *.
    rewrite Hrec. cbn [sumQ fold_right]. ring.
Qed.

(** X20.  In[19] and In[21]: the revenues of the cohorts add up to the sum of
    [total_amount] over the rows with an accepted fee and a cohort (an
    accepted fee of a request without cohort is in no cohort's
    revenue), and the last value of the cumulative revenue is that
    total. *)
Theorem cohort_revenue_adds_up (df : list CohortRow) :
  (sumQ (map snd (cohort_revenue df))
   == nansum
        (map row_total_amount
             (filter (fun r => notnull (row_cohort_year_month r))
                     (accepted_fees df))))%Q
  /\ (last (map cumulative_revenue (revenue_df (cohort_revenue df))) 0%Q
      == sumQ (map snd (cohort_revenue df)))%Q.
Proof.
  split.
  - rewrite cohort_revenue_rows, map_map. cbn [snd].
    unfold rows_of_cohort.
    apply (nansum_by_key row_cohort_year_month row_total_amount
                         (accepted_fees df)).
  - rewrite (proj2 (revenue_df_columns df)). unfold cumsum.
    destruct (map snd (cohort_revenue df)) as [| x l] eqn:E.
    + reflexivity.
    + rewrite last_cumsum_from by discriminate. ring.
Qed.

Lemma user_row_has_cohort (cash_df : list EdaCash) (row : UserFirstRequest) :
  In row (user_first_request cash_df) ->
  notnull (cohort_year_month row) = true.
Proof.
  intros Hrow.
  rewrite (proj1 (user_row_cohort_text cash_df row Hrow)). reflexivity.
Qed.

(** X21.  In[20] of script 2 and In[22] of script 3: [user_first_request] has
    one row for each distinct [final_user_id] of the cash table.  Every
    row has a cohort text: the month of the user's first request, or the
    text of a missing date when no request of the user is dated, which
    is when the row has no [cohort_month].  The user counts of the
    cohorts, the group of the users without a date included, add up to
    the number of users; a cohort of the count table has at least one
    user; the group of the users without a date is in the count table
    exactly when there is such a user. *)
Theorem every_user_is_counted_once (cash_df : list EdaCash) :
  List.length (user_first_request cash_df)
  = nunique (map cash_final_user_id cash_df)
  /\ Forall (fun row =>
               cohort_year_month row
               = Some (period_text (first_request_date row))
               /\ (cohort_month row = None
                   <-> cohort_year_month row = Some NaT_text)
               /\ (cohort_month row = None
                   <-> ~ has_dated_request (ufr_final_user_id row) cash_df))
            (user_first_request cash_df)
  /\ sumZ (map snd (cohort_user_counts (user_first_request cash_df)))
     = Z.of_nat (List.length (user_first_request cash_df))
  /\ Forall (fun cn => 0 < snd cn)
            (cohort_user_counts (user_first_request cash_df))
  /\ (In NaT_text (map fst (cohort_user_counts (user_first_request cash_df)))
      <-> exists u, In (Some u) (map cash_final_user_id cash_df)
                    /\ ~ has_dated_request u cash_df).
Proof.
  split; [unfold user_first_request, nunique; apply length_map |].
  split; [| split; [| split]].
  - apply Forall_forall. intros row Hrow.
    destruct (user_row_cohort_text cash_df row Hrow) as [Htext [_ Hnat]].
    split; [exact Htext |]. split; [exact Hnat |].
    apply In_user_first_request in Hrow. destruct Hrow as [u [_ ->]].
    cbn [ufr_final_user_id first_request_row].
    exact (proj2 (proj2 (known_user_has_cohort cash_df u))).
  - unfold cohort_user_counts. rewrite map_map. cbn [snd].
    rewrite (count_by_key cohort_year_month (user_first_request cash_df)).
    rewrite filter_true; [reflexivity |].
    intros row Hrow. apply user_row_has_cohort with cash_df. exact Hrow.
  - apply Forall_forall. intros cn Hcn. unfold cohort_user_counts in Hcn.
    apply in_map_iff in Hcn. destruct Hcn as [c [<- Hc]]. cbn [snd].
    apply (proj1 (In_sorted_unique _ _)) in Hc. apply In_dropna in Hc.
    apply in_map_iff in Hc. destruct Hc as [row [E Hrow]].
    assert (Hin : In row (filter (fun u => key_eqb (cohort_year_month u)
                                                   (Some c))
                                 (user_first_request cash_df))).
    { apply filter_In. split; [exact Hrow | apply key_eqb_Some, E]. }
    destruct (filter (fun u => key_eqb (cohort_year_month u) (Some c))
                     (user_first_request cash_df)); [destruct Hin |].
    simpl List.length. lia.
  - unfold cohort_user_counts. rewrite map_map. cbn [fst]. rewrite map_id.
    split.
    + intros Hc. apply (proj1 (In_sorted_unique _ _)) in Hc.
      apply In_dropna in Hc. apply in_map_iff in Hc.
      destruct Hc as [row [E Hrow]].
      apply In_user_first_request in Hrow. destruct Hrow as [u [Hu ->]].
      exists u. split; [exact Hu |].
      destruct (known_user_has_cohort cash_df u) as [_ [H2 H3]].
      apply (proj1 H3), (proj2 H2), E.
    + intros [u [Hu Hnone]].
      apply (proj2 (In_sorted_unique _ _)). apply In_dropna.
      apply in_map_iff. exists (first_request_row cash_df u).
      split.
      * rewrite (first_request_row_undated Hnone). reflexivity.
      * apply In_user_first_request. exists u. split; [exact Hu | reflexivity].
Qed.

(** The user count the ARPU table finds for a cohort that earns
    revenue. *)
Lemma revenue_cohort_user_count (cash_df : list CleanCash)
    (fees_df : list Fee) (c : Period) :
  In c (map fst (cohort_revenue (cohort_table cash_df fees_df))) ->
  find (fun cn : Z * Z => c =? fst cn)
       (cohort_user_counts (user_first_request (map add_eda_columns cash_df)))
  = Some (c, users_in_cohort c
               (user_first_request (map add_eda_columns cash_df)))
  /\ 0 < users_in_cohort c (user_first_request (map add_eda_columns cash_df)).
Proof.
  intros Hc.
  destruct (revenue_cohort_is_known cash_df fees_df c Hc)
    as [Hknown [Husers _]].
  split; [| exact Husers].
  unfold cohort_user_counts.
  rewrite (find_keyed
             (fun c0 =>
                (c0, Z.of_nat
                       (List.length
                          (filter
                             (fun u => key_eqb (cohort_year_month u) (Some c0))
                             (user_first_request
                                (map add_eda_columns cash_df))))))
             (fun cn : Z * Z => fst cn)) by reflexivity.
  destruct (in_dec Z.eq_dec c _) as [_ | Hnot]; [reflexivity |].
  contradiction.
Qed.

(** X22.  In[22]: in the tables the pipeline builds, every row of the ARPU
    table, the partial cohorts and the cohort of the users without a
    dated request included, has a user count, which is the number of
    users of the cohort and is at least 1: the ARPU is never missing and
    never divides by zero. *)
Theorem arpu_is_defined_for_every_cohort (cash_df : list CleanCash)
    (fees_df : list Fee) :
  map (fun a => (arpu_cohort a, arpu_cohort_revenue a))
      (out_arpu_df (pipeline_metrics cash_df fees_df))
  = out_cohort_revenue (pipeline_metrics cash_df fees_df)
  /\ Forall
       (fun a =>
          exists n,
            user_count a = Some n
            /\ n = users_in_cohort (arpu_cohort a)
                     (user_first_request (map add_eda_columns cash_df))
            /\ 0 < n
            /\ arpu a
               = Some (round_dec 2 (arpu_cohort_revenue a / inject_Z n)%Q))
       (out_arpu_df (pipeline_metrics cash_df fees_df)).
Proof.
  unfold pipeline_metrics. cbn [metrics out_arpu_df out_cohort_revenue].
  rewrite arpu_df_rows. split.
  - rewrite map_map. cbn [arpu_cohort arpu_cohort_revenue].
    rewrite <- (map_id (cohort_revenue (cohort_table cash_df fees_df))) at 2.
    apply map_ext. intros [c v]. reflexivity.
  - apply Forall_forall. intros a Ha. apply in_map_iff in Ha.
    destruct Ha as [[c v] [<- Hcv]].
    cbn [arpu_cohort arpu_cohort_revenue user_count arpu fst snd].
    assert (Hc : In c (map fst (cohort_revenue (cohort_table cash_df fees_df))))
      by (apply in_map_iff; exists (c, v); auto).
    destruct (revenue_cohort_user_count cash_df fees_df c Hc) as [Hfind Hpos].
    rewrite Hfind. cbn [option_map snd].
    eexists. repeat split. exact Hpos.
Qed.

(* ===================================================================== *)
(** * Script 3: the filtered retention matrix and the active months *)
(* ===================================================================== *)

Lemma loc_filter {A : Type} (p : Z -> bool) (c : Z) (s : list (Z * A)) :
  p c = true -> loc c (filter (fun kv => p (fst kv)) s) = loc c s.
Proof.
  intros Hc. induction s as [| [k v] s IH]; [reflexivity |].
  cbn [filter fst]. destruct (p k) eqn:Ek.
  - cbn [loc]. destruct (k =? c); [reflexivity | exact IH].
  - cbn [loc]. destruct (k =? c) eqn:E; [| exact IH].
    apply Z.eqb_eq in E. subst k. congruence.
Qed.

Lemma smap_filter {A B : Type} (f : A -> B) (p : Z -> bool)
    (s : list (Z * A)) :
  filter (fun kv => p (fst kv)) (smap f s)
  = smap f (filter (fun kv => p (fst kv)) s).
Proof. unfold smap. rewrite filter_map_commute. reflexivity. Qed.

(** The rows of the two retention matrices of the pipeline. *)
Lemma retention_matrix_rows (cash_df : list CleanCash) (fees_df : list Fee) :
  let df := cohort_table cash_df fees_df in
  retention_matrix (cohort_usage_matrix df)
  = map (fun c =>
           (c, divide_and_round
                 (inject_Z (group_size (group_keys df) c c))
                 (smap inject_Z
                    (map (fun m => (m, group_size (group_keys df) c m))
                         (usage_columns df)))))
        (usage_index df).
Proof.
  intros df. unfold retention_matrix, astype_float.
  rewrite cohort_usage_matrix_cells, !map_map. cbn [fst snd].
  apply map_ext_in. intros c Hc. apply f_equal.
  destruct (entry_month_cell cash_df fees_df c Hc) as [_ [_ Hfirst]].
  unfold normalize_by_first_nonzero. fold df in Hfirst. rewrite Hfirst.
  reflexivity.
Qed.

Lemma filtered_retention_rows (cash_df : list CleanCash)
    (fees_df : list Fee) :
  let df := cohort_table cash_df fees_df in
  filtered_retention_matrix (cohort_usage_matrix df)
  = map (fun c =>
           (c, divide_and_round
                 (inject_Z (group_size (group_keys df) c c))
                 (smap inject_Z
                    (filter (fun kv => negb (is_partial (fst kv)))
                       (map (fun m => (m, group_size (group_keys df) c m))
                            (usage_columns df))))))
        (filter (fun c => negb (is_partial c)) (usage_index df)).
Proof.
  intros df. rewrite filtered_retention_matrix_rows.
  apply map_ext_in. intros c Hc. apply f_equal.
  apply filter_In in Hc. destruct Hc as [Hc Hnp].
  destruct (entry_month_cell cash_df fees_df c Hc) as [Hloc [Hpos _]].
  fold df in Hloc, Hpos.
  unfold normalize_by_entry_month.
  rewrite loc_smap, (loc_filter (fun m => negb (is_partial m)) c _ Hnp), Hloc.
  cbn [option_map]. rewrite Qpositive_inject_Z.
  apply Z.ltb_lt in Hpos. rewrite Hpos. reflexivity.
Qed.

(** X23.  In[13] and In[15]: in the tables the pipeline builds, the filtered
    retention matrix is the retention matrix without the rows and the
    columns of the two partial months: computing it again from the
    filtered usage matrix yields the same rates, since a cohort that is
    kept is divided by its own entry month in both.  No label of the
    filtered matrix is a partial month, and the cell of a cohort in its
    own month is 1. *)
Theorem filtered_retention_is_a_slice (cash_df : list CleanCash)
    (fees_df : list Fee) :
  let usage := cohort_usage_matrix (cohort_table cash_df fees_df) in
  filtered_usage usage = drop_partial usage
  /\ filtered_retention_matrix usage = drop_partial (retention_matrix usage)
  /\ Forall
       (fun row =>
          is_partial (fst row) = false
          /\ Forall (fun kv => is_partial (fst kv) = false) (snd row)
          /\ exists v, loc (fst row) (snd row) = Some v /\ (v == 1)%Q)
       (filtered_retention_matrix usage).
Proof.
  intros usage. unfold usage. split; [reflexivity |].
  rewrite filtered_retention_rows. split.
  - unfold drop_partial. rewrite retention_matrix_rows.
    rewrite filter_map_commute, map_map. cbn [fst snd].
    apply map_ext. intros c. apply f_equal.
    unfold divide_and_round.
    rewrite !(smap_filter _ (fun m => negb (is_partial m))). reflexivity.
  - apply Forall_forall. intros row Hrow. apply in_map_iff in Hrow.
    destruct Hrow as [c [<- Hc]]. cbn [fst snd].
    apply filter_In in Hc. destruct Hc as [Hc Hnp].
    destruct (entry_month_cell cash_df fees_df c Hc) as [Hloc [Hpos _]].
    split; [apply negb_true_iff, Hnp |]. split.
    + apply Forall_forall. intros kv Hkv. unfold divide_and_round in Hkv.
      rewrite <- !(smap_filter _ (fun m => negb (is_partial m))) in Hkv.
      apply filter_In in Hkv. apply negb_true_iff. exact (proj2 Hkv).
    + unfold divide_and_round.
      rewrite !loc_smap,
        (loc_filter (fun m => negb (is_partial m)) c _ Hnp), Hloc.
      cbn [option_map]. eexists. split; [reflexivity |].
      apply round_dec_3_self, Hpos.
Qed.

(** Rounding to the nearest integer, for a ratio of two integers. *)
Lemma round_half_even_div (a : Z) (b : positive) :
  round_half_even (inject_Z a / inject_Z (Z.pos b))
  = match (2 * (a mod Z.pos b) ?= Z.pos b) with
    | Lt => a / Z.pos b
    | Gt => a / Z.pos b + 1
    | Eq => if Z.even (a / Z.pos b) then a / Z.pos b else a / Z.pos b + 1
    end.
Proof.
  rewrite (@round_half_even_comp _ (a # b)) by (symmetry; apply Qmake_Qdiv).
  unfold round_half_even.
  change (Qfloor (a # b)) with (a / Z.pos b).
  assert (E : ((a # b) - inject_Z (a / Z.pos b) ?= 1 # 2)%Q
              = (2 * (a mod Z.pos b) ?= Z.pos b)).
  { unfold Qcompare, Qminus, Qplus, Qopp, inject_Z. cbn [Qnum Qden].
    rewrite Z.mod_eq by discriminate.
    rewrite Pos.mul_1_r. f_equal; lia. }
  rewrite E. reflexivity.
Qed.

(** A retention cell is positive when the requests of the month exceed
    a 2000th of those of the entry month. *)
Lemma retention_cell_positive (u d : Z) :
  0 <= u -> 0 < d ->
  Qpositive (round_dec 3 (inject_Z u / inject_Z d)) = (d <? 2000 * u).
Proof.
  intros Hu Hd. unfold round_dec. change (10 ^ Z.of_nat 3) with 1000.
  destruct d as [| p | p]; try lia.
  rewrite (@round_half_even_comp _ (inject_Z (1000 * u) / inject_Z (Z.pos p)))
    by (rewrite inject_Z_mult; field; discriminate).
  rewrite round_half_even_div.
  set (z := match (2 * ((1000 * u) mod Z.pos p) ?= Z.pos p) with
            | Lt => 1000 * u / Z.pos p
            | Gt => 1000 * u / Z.pos p + 1
            | Eq => if Z.even (1000 * u / Z.pos p)
                    then 1000 * u / Z.pos p
                    else 1000 * u / Z.pos p + 1
            end).
  assert (Hz : (0 <? z) = (Z.pos p <? 2000 * u)).
  { pose proof (Z.div_mod (1000 * u) (Z.pos p) ltac:(discriminate)) as Hdm.
    pose proof (Z.mod_pos_bound (1000 * u) (Z.pos p) ltac:(lia)) as Hm.
    assert (Hq : 0 <= 1000 * u / Z.pos p) by (apply Z.div_pos; lia).
    unfold z.
    destruct (2 * ((1000 * u) mod Z.pos p) ?= Z.pos p) eqn:E.
    - apply Z.compare_eq in E.
      destruct (Z.even (1000 * u / Z.pos p)) eqn:Ev.
      + destruct (Z.ltb_spec 0 (1000 * u / Z.pos p));
          destruct (Z.ltb_spec (Z.pos p) (2000 * u)); try reflexivity; nia.
      + assert (1000 * u / Z.pos p <> 0)
          by (intros E0; rewrite E0 in Ev; discriminate Ev).
        destruct (Z.ltb_spec 0 (1000 * u / Z.pos p + 1));
          destruct (Z.ltb_spec (Z.pos p) (2000 * u)); try reflexivity; nia.
    - rewrite Z.compare_lt_iff in E.
      destruct (Z.ltb_spec 0 (1000 * u / Z.pos p));
        destruct (Z.ltb_spec (Z.pos p) (2000 * u)); try reflexivity; nia.
    - rewrite Z.compare_gt_iff in E.
      destruct (Z.ltb_spec 0 (1000 * u / Z.pos p + 1));
        destruct (Z.ltb_spec (Z.pos p) (2000 * u)); try reflexivity; nia. }
  rewrite <- Hz. unfold Qpositive, Qle_bool, Qdiv, Qmult, Qinv, inject_Z.
  cbn [Qnum Qden]. rewrite Z.ltb_antisym. f_equal.
  f_equal; lia.
Qed.

Lemma filter_filter_and {A : Type} (p q : A -> bool) (l : list A) :
  filter p (filter q l) = filter (fun x => q x && p x) l.
Proof.
  induction l as [| x l IH]; [reflexivity |].
  cbn [filter]. destruct (q x); cbn [filter andb];
    [destruct (p x); rewrite IH; reflexivity | exact IH].
Qed.

(** The active months of a cohort that is kept, counted on the usage
    matrix. *)
Lemma active_months_of_cohort (cash_df : list CleanCash)
    (fees_df : list Fee) (c : Period) :
  let df := cohort_table cash_df fees_df in
  In c (usage_index df) ->
  active_months
    (divide_and_round
       (inject_Z (group_size (group_keys df) c c))
       (smap inject_Z
          (filter (fun kv => negb (is_partial (fst kv)))
             (map (fun m => (m, group_size (group_keys df) c m))
                  (usage_columns df)))))
  = Z.of_nat
      (List.length
         (filter
            (fun m =>
               negb (is_partial m)
               && (group_size (group_keys df) c c
                   <? 2000 * group_size (group_keys df) c m))
            (usage_columns df))).
Proof.
  intros df Hc.
  destruct (entry_month_cell cash_df fees_df c Hc) as [_ [Hpos _]].
  fold df in Hpos.
  unfold active_months, values, divide_and_round, smap.
  rewrite (filter_map_commute
             (fun m => (m, group_size (group_keys df) c m))
             (fun kv => negb (is_partial (fst kv)))).
  rewrite !map_map. cbn [fst snd].
  rewrite filter_map_commute, length_map, filter_filter_and.
  f_equal. f_equal. apply filter_ext. intros m. f_equal.
  apply retention_cell_positive; [apply group_size_nonneg | exact Hpos].
Qed.

Lemma avg_retention_months_pipeline (cash_df : list CleanCash)
    (fees_df : list Fee) :
  let df := cohort_table cash_df fees_df in
  avg_retention_months (filtered_retention_matrix (cohort_usage_matrix df))
  = map (fun c =>
           (c, Z.of_nat
                 (List.length
                    (filter
                       (fun m =>
                          negb (is_partial m)
                          && (group_size (group_keys df) c c
                              <? 2000 * group_size (group_keys df) c m))
                       (usage_columns df)))))
        (filter (fun c => negb (is_partial c)) (usage_index df)).
Proof.
  intros df. unfold df. rewrite filtered_retention_rows.
  unfold avg_retention_months. rewrite map_map. cbn [fst snd].
  apply map_ext_in. intros c Hc. apply f_equal.
  apply filter_In in Hc. destruct Hc as [Hc _].
  exact (active_months_of_cohort cash_df fees_df c Hc).
Qed.

(** X24.  In[23]: in the tables the pipeline builds, the months a cohort is
    counted as active are the months, partial months apart, whose
    requests exceed a 2000th of the requests of the entry month (a rate
    of 0.0005 or less rounds to 0.000): a month without a request is
    never active, and a month with requests is not either when the
    entry month has 2000 times as many. *)
Theorem active_months_count_rates_above_rounding (cash_df : list CleanCash)
    (fees_df : list Fee) :
  let df := cohort_table cash_df fees_df in
  avg_retention_months (filtered_retention_matrix (cohort_usage_matrix df))
  = map (fun c =>
           (c, Z.of_nat
                 (List.length
                    (filter
                       (fun m =>
                          negb (is_partial m)
                          && (group_size (group_keys df) c c
                              <? 2000 * group_size (group_keys df) c m))
                       (usage_columns df)))))
        (filter (fun c => negb (is_partial c)) (usage_index df)).
Proof. exact (avg_retention_months_pipeline cash_df fees_df). Qed.

(* ===================================================================== *)
(** * Script 3: the last rounding of the CLV *)
(* ===================================================================== *)

Lemma round_half_even_inject_Z (n : Z) : round_half_even (inject_Z n) = n.
Proof.
  unfold round_half_even. rewrite Qfloor_Z.
  assert (E : ((inject_Z n - inject_Z n ?= 1 # 2)%Q) = Lt).
  { apply Qlt_alt. apply Qle_lt_trans with 0%Q; [| reflexivity].
    apply (Qplus_le_l _ _ (inject_Z n)). ring_simplify. apply Qle_refl. }
  rewrite E. reflexivity.
Qed.

(** A value with 2 decimal places, multiplied by an integer, has 2
    decimal places: rounding it to 2 places changes nothing. *)
Lemma round_dec_2_of_multiple (x : Q) (k : Z) :
  (round_dec 2 (round_dec 2 x * inject_Z k) == round_dec 2 x * inject_Z k)%Q.
Proof.
  unfold round_dec. change (10 ^ Z.of_nat 2) with 100.
  set (z := round_half_even (x * inject_Z 100)).
  rewrite (@round_half_even_comp _ (inject_Z (z * k)))
    by (rewrite inject_Z_mult; field).
  rewrite round_half_even_inject_Z, inject_Z_mult. field.
Qed.

(** The rows of the CLV table of the pipeline, read on the revenue
    table and the usage matrix. *)
Lemma clv_rows_pipeline (cash_df : list CleanCash) (fees_df : list Fee)
    (r : ClvRow) :
  let df := cohort_table cash_df fees_df in
  In r (out_clv_df (pipeline_metrics cash_df fees_df)) ->
  exists v,
    In (clv_cohort r, v) (cohort_revenue df)
    /\ is_partial (clv_cohort r) = false
    /\ arpu (clv_arpu r)
       = Some (round_dec 2
                 (v / inject_Z
                        (users_in_cohort (clv_cohort r)
                           (user_first_request
                              (map add_eda_columns cash_df))))%Q)
    /\ (clv_cohort r <> NaT_text ->
        In (clv_cohort r) (usage_index df)
        /\ clv_avg_retention_months r
           = Some (Z.of_nat
                     (List.length
                        (filter
                           (fun m =>
                              negb (is_partial m)
                              && (group_size (group_keys df)
                                             (clv_cohort r) (clv_cohort r)
                                  <? 2000 * group_size (group_keys df)
                                                       (clv_cohort r) m))
                           (usage_columns df)))))
    /\ (clv_cohort r = NaT_text -> clv_avg_retention_months r = None)
    /\ clv r = clv_value (arpu (clv_arpu r)) (clv_avg_retention_months r).
Proof.
  intros df. unfold pipeline_metrics.
  cbn [metrics out_clv_df]. fold df.
  rewrite clv_df_rows, arpu_df_rows. intros Hr.
  apply filter_In in Hr. destruct Hr as [Hr Hpartial].
  apply negb_true_iff in Hpartial.
  rewrite map_map in Hr. apply in_map_iff in Hr.
  destruct Hr as [[c v] [<- Hcv]].
  unfold clv_cohort in *.
  cbn [clv_arpu arpu_cohort arpu fst snd clv clv_avg_retention_months]
    in Hpartial |- *.
  assert (Hc : In c (map fst (cohort_revenue df)))
    by (apply in_map_iff; exists (c, v); auto).
  destruct (revenue_cohort_is_known cash_df fees_df c Hc)
    as [_ [_ [Hindex Hnat]]].
  destruct (revenue_cohort_user_count cash_df fees_df c Hc) as [Hfind _].
  fold df in Hindex, Hnat.
  exists v. rewrite Hfind. cbn [option_map snd].
  pose proof (avg_retention_months_pipeline cash_df fees_df) as Hmonths.
  fold df in Hmonths. rewrite Hmonths.
  rewrite (find_keyed
             (fun c0 =>
                (c0, Z.of_nat
                       (List.length
                          (filter
                             (fun m =>
                                negb (is_partial m)
                                && (group_size (group_keys df) c0 c0
                                    <? 2000 * group_size (group_keys df) c0 m))
                             (usage_columns df)))))
             (fun m : Z * Z => fst m)) by reflexivity.
  split; [exact Hcv |]. split; [exact Hpartial |].
  split; [reflexivity |].
  destruct (in_dec Z.eq_dec c _) as [Hin | Hnot]; cbn [option_map snd].
  - apply filter_In in Hin. destruct Hin as [Hin _].
    split; [intros _; split; [exact Hin | reflexivity] |].
    split; [| reflexivity].
    intros Hn. destruct (Hnat Hn Hin).
  - split; [| split; reflexivity].
    intros Hne. exfalso. apply Hnot. apply filter_In.
    split; [exact (Hindex Hne) |]. rewrite Hpartial. reflexivity.
Qed.

(** X25.  In[23]: in the tables the pipeline builds, every row of the CLV
    table has an ARPU.  The cohort of a month is active in its own
    month, so it has between 1 active month and as many as the matrix
    has columns; the ARPU has 2 decimal places already, so the CLV is
    the ARPU times the number of active months and its final rounding
    changes nothing.  The cohort ['NaT'] of the users without a dated
    request has no row in the retention matrix: its number of active
    months and its CLV are missing. *)
Theorem clv_is_an_exact_product (cash_df : list CleanCash)
    (fees_df : list Fee) :
  Forall
    (fun r =>
       exists a,
         arpu (clv_arpu r) = Some a
         /\ (clv_cohort r <> NaT_text ->
             exists k v,
               clv_avg_retention_months r = Some k
               /\ 1 <= k
               /\ k <= Z.of_nat
                         (List.length
                            (filter (fun m => negb (is_partial m))
                                    (usage_columns
                                       (cohort_table cash_df fees_df))))
               /\ clv r = Some v
               /\ (v == a * inject_Z k)%Q)
         /\ (clv_cohort r = NaT_text ->
             clv_avg_retention_months r = None /\ clv r = None))
    (out_clv_df (pipeline_metrics cash_df fees_df)).
Proof.
  apply Forall_forall. intros r Hr.
  destruct (clv_rows_pipeline cash_df fees_df r Hr)
    as [v [_ [Hnp [Ha [Hmonth [Hnat Hclv]]]]]].
  set (df := cohort_table cash_df fees_df) in *.
  set (c := clv_cohort r) in *.
  eexists. split; [exact Ha |]. split.
  - intros Hne. destruct (Hmonth Hne) as [Hc Hk].
    destruct (entry_month_cell cash_df fees_df c Hc) as [_ [Hpos _]].
    fold df in Hpos.
    eexists. eexists.
    split; [exact Hk |].
    rewrite Hclv, Ha, Hk. cbn [clv_value].
    split; [| split; [| split; [reflexivity |]]].
    + assert (Hin : In c (filter
                            (fun m =>
                               negb (is_partial m)
                               && (group_size (group_keys df) c c
                                   <? 2000 * group_size (group_keys df) c m))
                            (usage_columns df))).
      { apply filter_In. split.
        - unfold usage_columns. apply (proj2 (In_sorted_unique _ _)).
          apply in_map_iff. exists (c, c). split; [reflexivity |].
          exact (cohort_has_entry_month cash_df fees_df c Hc).
        - rewrite Hnp. cbn [negb andb]. apply Z.ltb_lt. lia. }
      destruct (filter
                  (fun m =>
                     negb (is_partial m)
                     && (group_size (group_keys df) c c
                         <? 2000 * group_size (group_keys df) c m))
                  (usage_columns df)); [destruct Hin |].
      simpl List.length. lia.
    + apply inj_le. rewrite <- filter_filter_and.
      apply filter_length_le.
    + apply round_dec_2_of_multiple.
  - intros Hn. rewrite Hclv, (Hnat Hn), Ha. split; reflexivity.
Qed.

(* ===================================================================== *)
(** * Script 3: what a cell of the usage matrix counts *)
(* ===================================================================== *)

(** A left merge on a key that is unique on the right keeps the left
    rows as they are. *)
Lemma left_merge_fst {L R : Type} (on : L -> R -> bool) (left : list L)
    (right : list R) :
  (forall l, In l left -> (List.length (filter (on l) right) <= 1)%nat) ->
  map fst (left_merge on left right) = left.
Proof.
  unfold left_merge. induction left as [| l left IH]; intros H;
    [reflexivity |].
  cbn [flat_map]. rewrite map_app, IH
    by (intros l' Hl'; apply H; right; exact Hl').
  pose proof (H l (or_introl eq_refl)) as Hl.
  destruct (filter (on l) right) as [| r [| r' ms]];
    [reflexivity | reflexivity |].
  simpl List.length in Hl. lia.
Qed.

Lemma filter_user_key (k : option Z) (users : list UserFirstRequest) :
  NoDup (map ufr_final_user_id users) ->
  (List.length
     (filter (fun u => key_eqb k (Some (ufr_final_user_id u))) users)
   <= 1)%nat.
Proof.
  induction users as [| u users IH]; intros Hnd; [simpl; lia |].
  cbn [map] in Hnd. inversion Hnd as [| i ids Hnot Hnd']; subst.
  cbn [filter].
  destruct (key_eqb k (Some (ufr_final_user_id u))) eqn:E;
    [| exact (IH Hnd')].
  rewrite filter_nil; [simpl; lia |].
  intros u' Hu'.
  destruct (key_eqb k (Some (ufr_final_user_id u'))) eqn:E';
    [| reflexivity].
  exfalso. apply Hnot. apply key_eqb_Some in E. apply key_eqb_Some in E'.
  rewrite E in E'. injection E' as E'. rewrite E'. apply in_map. exact Hu'.
Qed.

(** In[8]: the cohort join adds no row and drops none. *)
Lemma cohort_table_rows (cash_df : list CleanCash) (fees_df : list Fee) :
  map fst (cohort_table cash_df fees_df)
  = merged_df (map add_eda_columns cash_df) fees_df.
Proof.
  unfold cohort_table, merged_cash_fee_cohort.
  apply left_merge_fst. intros m _.
  apply filter_user_key, user_first_request_keys.
Qed.

Lemma cohort_of_row_request (cash_df : list CleanCash) (fees_df : list Fee)
    (r : CohortRow) :
  In r (cohort_table cash_df fees_df) ->
  row_cohort_year_month r
  = cohort_of_request (map add_eda_columns cash_df) (fst (fst r)).
Proof.
  intros Hr. unfold cohort_of_request.
  destruct (cash_final_user_id (fst (fst r))) as [u |] eqn:Eu.
  - unfold row_cohort_year_month.
    rewrite (cohort_table_columns cash_df fees_df r Hr Eu). reflexivity.
  - unfold cohort_table in Hr.
    exact (proj2 (null_user_has_no_cohort _ _ r Hr Eu)).
Qed.

Lemma group_keys_count (df : list CohortRow) (c m : Period) :
  List.length (filter (in_group c m) (group_keys df))
  = List.length
      (filter (fun r => key_eqb (row_cohort_year_month r) (Some c)
                        && key_eqb (row_year_month r) (Some m))
              df).
Proof.
  unfold group_keys. induction df as [| r df IH]; [reflexivity |].
  cbn [flat_map]. rewrite filter_app, length_app, IH, length_filter_cons.
  f_equal.
  destruct (row_cohort_year_month r) as [c' |];
    destruct (row_year_month r) as [m' |]; cbn [key_eqb andb filter];
    try reflexivity.
  - unfold in_group. cbn [fst snd].
    destruct ((c' =? c) && (m' =? m)); reflexivity.
  - destruct (c' =? c); reflexivity.
Qed.

(** The rows a left merge makes of the left rows that satisfy [p]. *)
Lemma left_merge_count {L R : Type} (on : L -> R -> bool) (p : L -> bool)
    (left : list L) (right : list R) :
  Z.of_nat
    (List.length (filter (fun row => p (fst row)) (left_merge on left right)))
  = sumZ (map (fun l => Z.max 1 (Z.of_nat (List.length (filter (on l) right))))
              (filter p left)).
Proof.
  unfold left_merge. induction left as [| l left IH]; [reflexivity |].
  cbn [flat_map]. rewrite filter_app, length_app, Nat2Z.inj_add, IH.
  assert (E : Z.of_nat
                (List.length
                   (filter (fun row : L * option R => p (fst row))
                      match filter (on l) right with
                      | [] => [(l, None)]
                      | r :: ms => map (fun r0 => (l, Some r0)) (r :: ms)
                      end))
              = if p l
                then Z.max 1 (Z.of_nat (List.length (filter (on l) right)))
                else 0).
  { destruct (filter (on l) right) as [| r ms].
    - cbn [filter fst]. destruct (p l); reflexivity.
    - rewrite filter_map_commute, length_map. cbn [fst].
      destruct (p l).
      + rewrite filter_true by reflexivity.
        simpl List.length. lia.
      + rewrite filter_nil by reflexivity. reflexivity. }
  rewrite E. cbn [filter]. destruct (p l); [| reflexivity].
  cbn [map sumZ fold_right]. reflexivity.
Qed.

(** X26.  In[12]: a cell of the usage matrix counts the rows of the merged
    table, not the requests: a request of the cohort made in the month
    counts once when it has no fee and once for each of its fees when it
    has some.  Without fees, the cell is the number of requests. *)
Theorem usage_cell_counts_fee_rows (cash_df : list CleanCash)
    (fees_df : list Fee) (c m : Period) :
  let eda_cash := map add_eda_columns cash_df in
  let requests :=
    filter (fun q => key_eqb (cohort_of_request eda_cash q) (Some c)
                     && key_eqb (year_month q) (Some m))
           eda_cash in
  group_size (group_keys (cohort_table cash_df fees_df)) c m
  = sumZ (map (fun q =>
                 Z.max 1 (Z.of_nat (List.length (fees_of fees_df q))))
              requests)
  /\ Z.of_nat (List.length requests)
     <= group_size (group_keys (cohort_table cash_df fees_df)) c m
  /\ group_size (group_keys (cohort_table cash_df [])) c m
     = Z.of_nat (List.length requests).
Proof.
  intros eda_cash requests.
  assert (Hcell : forall fees,
             group_size (group_keys (cohort_table cash_df fees)) c m
             = sumZ (map (fun q =>
                            Z.max 1 (Z.of_nat (List.length (fees_of fees q))))
                         requests)).
  { intros fees. unfold group_size. rewrite group_keys_count.
    rewrite (@filter_ext_in _
               (fun r => key_eqb (row_cohort_year_month r) (Some c)
                         && key_eqb (row_year_month r) (Some m))
               (fun r => key_eqb (cohort_of_request eda_cash (fst (fst r)))
                                 (Some c)
                         && key_eqb (year_month (fst (fst r))) (Some m))).
    - rewrite <- (length_map fst).
      rewrite <- (filter_map_commute fst
                    (fun mrow =>
                       key_eqb (cohort_of_request eda_cash (fst mrow)) (Some c)
                       && key_eqb (year_month (fst mrow)) (Some m))).
      rewrite cohort_table_rows. unfold merged_df.
      apply (left_merge_count
               (fun q f =>
                  key_eqb (Some (cash_request_id_of q)) (cash_request_id f))
               (fun q => key_eqb (cohort_of_request eda_cash q) (Some c)
                         && key_eqb (year_month q) (Some m))).
    - intros r Hr. rewrite (cohort_of_row_request cash_df fees r Hr).
      reflexivity. }
  split; [apply Hcell |]. split.
  - rewrite Hcell. clear Hcell.
    induction requests as [| q requests IH]; [simpl; lia |].
    unfold sumZ in *. cbn [map fold_right]. simpl List.length.
    rewrite Nat2Z.inj_succ. lia.
  - rewrite Hcell. clear Hcell.
    induction requests as [| q requests IH]; [reflexivity |].
    unfold sumZ in *. cbn [map fold_right]. rewrite IH.
    unfold fees_of. cbn [filter List.length]. lia.
Qed.

(* ===================================================================== *)
(** * Further worked scenarios *)
(* ===================================================================== *)

(** Categories as they may stand in the raw files. *)
Example scenario_categories :
  map clean_categorical_column
      [Some "  Accepted "; Some " NaN"; None; Some ""; Some "money_back"]%string
  = [Some "accepted"; None; None; Some ""; Some "money_back"]%string.
Proof. reflexivity. Qed.

(** Request 21 entered twice: one duplicated row, one duplicated id;
    four rows, of which one has both ids and one has none. *)
Example scenario_duplicates :
  check_duplicates cash_request_eqb (Some id) repeated_requests
  = {| total_dupes := 1; id_dupes := Some 1%nat |}
  /\ identity_counts repeated_requests
     = {| total_rows := 4; n_both_present := 1; n_both_missing := 1;
          n_user_only := 2; n_deleted_only := 0 |}
  /\ identity_counts (map nullify_deleted_account_id repeated_requests)
     = {| total_rows := 4; n_both_present := 0; n_both_missing := 1;
          n_user_only := 3; n_deleted_only := 0 |}.
Proof. repeat split; reflexivity. Qed.

(** November 2019 to November 2020: the monthly summary, the active
    users, and the incident table with its markers. *)
Example scenario_months :
  map (fun r => (summary_month r, cash_requests r, summary_amount r))
      (monthly_summary full_year_cash)
  = [(ym 2019 11, 1, 100%Q); (ym 2020 1, 2, 150%Q); (ym 2020 11, 1, 100%Q)]
  /\ monthly_active_users (map add_eda_columns full_year_cash)
     = [(ym 2019 11, 1%nat); (ym 2020 1, 2%nat); (ym 2020 11, 1%nat)]
  /\ option_map
       (fun c =>
          (map (fun r => (incident_month r, incident r, no_incident r))
               (cell_table c),
           cell_partial_lines c, cell_jan_line c))
       (incident_cell full_year_cash)
     = Some ([(ym 2019 11, 0%Q, 1%Q); (ym 2020 1, 1%Q, 1%Q);
              (ym 2020 11, 0%Q, 1%Q)],
             [0%nat; 2%nat], Some 1%nat).
Proof. repeat split; reflexivity. Qed.

(** The scenario of the specification with its four fees: request 11,
    made in March by a user of the January cohort, has two fees and
    counts twice in the usage matrix. *)
Example scenario_usage_with_fees :
  cohort_usage_matrix (cohort_table scenario_cash scenario_fees)
  = [(ym 2020 1, [(ym 2020 1, 1); (ym 2020 2, 0); (ym 2020 3, 2)]);
     (ym 2020 2, [(ym 2020 1, 0); (ym 2020 2, 1); (ym 2020 3, 0)])]
  /\ avg_retention_months
       (filtered_retention_matrix
          (cohort_usage_matrix (cohort_table scenario_cash scenario_fees)))
     = [(ym 2020 1, 2); (ym 2020 2, 1)].
Proof. split; reflexivity. Qed.

(** A table that lacks a primary column cannot be reordered. *)
Example scenario_missing_column :
  reorder_columns cash_primary_cols ["id"; "amount"]%string = None.
Proof. reflexivity. Qed.

(** Users 7 and 8 with an accepted fee on an undated request of user 7:
    the revenue of the fee goes to the cohort of the users without a
    date, whose row of the CLV table has an ARPU and no CLV. *)
Example scenario_undated_clv :
  map (fun r => (clv_cohort r, arpu (clv_arpu r),
                 clv_avg_retention_months r, clv r))
      (out_clv_df (pipeline_metrics undated_cash undated_fees))
  = [(NaT_text, Some (500 # 100)%Q, None, None)].
Proof. reflexivity. Qed.

(* ===================================================================== *)
(** * The three scripts, end to end *)
(* ===================================================================== *)


